(** * CallDataParser: the token registry and the recursive value formatter

    A shallow embedding of [src/utils/tokenResolver.ts] (the token metadata
    registry) and of the current revision of [src/utils/enhancedFormatter.ts]
    (the recursive value formatter, with the [chainId] parameter, the
    CONTRACT_BALANCE guard and the three path renderers), together with the
    parts of JavaScript and of the viem library they rely on; then of what
    surrounds them: the basic formatter ([src/utils/formatter.ts]), the
    calldata parser ([src/utils/parser.ts]) with the input form and the
    application that call it, the command card that calls both formatters,
    and the earlier revision of the formatter. *)

From Stdlib Require Import ZArith List Ascii String Lia QArith.
From stdpp Require Import gmap strings.

Local Open Scope Z_scope.

(** ** Outcomes of JavaScript evaluation *)

(** A JavaScript computation either returns a value or throws. *)
Inductive JsError := TypeError | SyntaxError | RangeError | Error.

Inductive Outcome (A : Type) : Type :=
| Ok (a : A)
| Throw (e : JsError).
Arguments Ok {A} a.
Arguments Throw {A} e.

Definition bindO {A B} (m : Outcome A) (k : A -> Outcome B) : Outcome B :=
  match m with
  | Ok a => k a
  | Throw e => Throw e
  end.

#[global] Instance outcome_bind : MBind Outcome := fun A B k m => bindO m k.
#[global] Instance outcome_ret : MRet Outcome := @Ok.

(** A [for ... of] loop that pushes one result per element and stops at the
    first throw. *)
Fixpoint mapO {A B} (f : A -> Outcome B) (l : list A) : Outcome (list B) :=
  match l with
  | [] => Ok []
  | x :: l' =>
      y ← f x;
      ys ← mapO f l';
      Ok (y :: ys)
  end.

(** [try { body } catch { handler }]. *)
Definition tryCatch {A} (body : Outcome A) (handler : A) : A :=
  match body with
  | Ok a => a
  | Throw _ => handler
  end.

(** ** JavaScript strings

    A string is the sequence of its code units; [ascii] stands for a code
    unit, so the model covers strings of Latin-1 text.  The arrow of the path
    renderers only occurs in produced text, which is never measured. *)
Module JsString.

Definition chars (s : string) : list ascii := list_ascii_of_string s.
Definition text (l : list ascii) : string := string_of_list_ascii l.

Definition len (s : string) : nat := String.length s.

Definition code (c : ascii) : N := N_of_ascii c.

(** [s.startsWith(p)] *)
Fixpoint startsWith (p s : string) : bool :=
  match p, s with
  | EmptyString, _ => true
  | String a p', String b s' => if Ascii.eqb a b then startsWith p' s' else false
  | String _ _, EmptyString => false
  end.

(** [s.slice(start, end)]: negative indices count from the end, both are
    clamped to the string, an absent [end] is the length. *)
Definition clampIndex (n : nat) (i : Z) : nat :=
  if i <? 0 then Z.to_nat (Z.max 0 (Z.of_nat n + i))
  else Nat.min n (Z.to_nat i).

Definition sliceList {A} (l : list A) (start : Z) (stop : option Z) : list A :=
  let n := length l in
  let from := clampIndex n start in
  let to := match stop with Some e => clampIndex n e | None => n end in
  firstn (to - from) (skipn from l).

Definition slice (s : string) (start : Z) (stop : option Z) : string :=
  text (sliceList (chars s) start stop).

(** [s.toLowerCase()] on Latin-1 code units. *)
Definition lowerChar (c : ascii) : ascii :=
  let n := code c in
  if ((65 <=? n) && (n <=? 90))%N then ascii_of_N (n + 32)
  else if ((192 <=? n) && (n <=? 222) && negb (n =? 215))%N then ascii_of_N (n + 32)
  else c.

Fixpoint toLowerCase (s : string) : string :=
  match s with
  | EmptyString => EmptyString
  | String c s' => String (lowerChar c) (toLowerCase s')
  end.

(** [s.padStart(n, '0')] *)
Definition padStart0 (l : list ascii) (n : nat) : list ascii :=
  repeat "0"%char (n - length l) ++ l.

(** [parts.join(sep)] *)
Fixpoint join (sep : string) (parts : list string) : string :=
  match parts with
  | [] => ""
  | [p] => p
  | p :: rest => p +:+ sep +:+ join sep rest
  end.

(** [s.split('.')]: the pieces between the dots, at least one piece. *)
Fixpoint splitDot (cur : list ascii) (l : list ascii) : list (list ascii) :=
  match l with
  | [] => [rev cur]
  | c :: l' =>
      if Ascii.eqb c "."%char then rev cur :: splitDot [] l'
      else splitDot (c :: cur) l'
  end.

Definition split_dot (s : string) : list string :=
  map text (splitDot [] (chars s)).

(** [s.replace(/(0+)$/, '')]: drop the trailing zeros. *)
Fixpoint dropLeadingZeros (l : list ascii) : list ascii :=
  match l with
  | c :: l' => if Ascii.eqb c "0"%char then dropLeadingZeros l' else l
  | [] => []
  end.

Definition stripTrailingZeros (l : list ascii) : list ascii :=
  rev (dropLeadingZeros (rev l)).

(** *** Digits *)

Definition digitChar (d : N) : ascii :=
  if (d <? 10)%N then ascii_of_N (48 + d) else ascii_of_N (87 + d).

(** The value of a digit character (letters in either case), and its value
    as a digit of the given radix. *)
Definition rawDigit (c : ascii) : option N :=
  let n := code c in
  if ((48 <=? n) && (n <=? 57))%N then Some (n - 48)%N
  else if ((97 <=? n) && (n <=? 122))%N then Some (n - 87)%N
  else if ((65 <=? n) && (n <=? 90))%N then Some (n - 55)%N
  else None.

Definition digitVal (radix : N) (c : ascii) : option N :=
  match rawDigit c with
  | Some d => if (d <? radix)%N then Some d else None
  | None => None
  end.

(** [n.toString(radix)] for a non-negative integer: most significant digit
    first, ["0"] for zero.  [fuel] bounds the number of digits. *)
Fixpoint digitsFuel (fuel : nat) (radix n : N) (acc : list ascii) : list ascii :=
  match fuel with
  | O => acc
  | S fuel' =>
      let acc' := digitChar (n mod radix) :: acc in
      if (n / radix =? 0)%N then acc' else digitsFuel fuel' radix (n / radix) acc'
  end.

Definition digits (radix n : N) : list ascii :=
  digitsFuel (S (N.to_nat (N.size n))) radix n [].

(** Horner evaluation of a digit sequence; [None] on a character that is not
    a digit of the radix. *)
Fixpoint parseDigitsAcc (radix : N) (l : list ascii) (acc : N) : option N :=
  match l with
  | [] => Some acc
  | c :: l' =>
      match digitVal radix c with
      | Some d => parseDigitsAcc radix l' (acc * radix + d)
      | None => None
      end
  end.

Definition parseDigits (radix : N) (l : list ascii) : option N :=
  match l with
  | [] => None
  | _ => parseDigitsAcc radix l 0
  end.

(** [String(z)] for an integer (a bigint, or an integer-valued number). *)
Definition decimal (z : Z) : string :=
  if z <? 0 then String "-"%char (text (digits 10 (Z.to_N (- z))))
  else text (digits 10 (Z.to_N z)).

(** White space skipped by the string-to-number conversions. *)
Definition isWhiteSpace (c : ascii) : bool :=
  let n := code c in
  ((9 <=? n) && (n <=? 13) || (n =? 32) || (n =? 160))%N.

Fixpoint trimStart (l : list ascii) : list ascii :=
  match l with
  | c :: l' => if isWhiteSpace c then trimStart l' else l
  | [] => []
  end.

Definition trim (l : list ascii) : list ascii :=
  rev (trimStart (rev (trimStart l))).

(** [BigInt(s)] on a string (StringToBigInt): surrounding white space is
    skipped, the empty string is zero, a decimal literal may carry a sign, a
    literal with a radix prefix may not; anything else is a SyntaxError. *)
Definition liftParse (o : option N) : Outcome Z :=
  match o with
  | Some n => Ok (Z.of_N n)
  | None => Throw SyntaxError
  end.

(** The radix announced by a prefix [0x], [0o] or [0b], with the digits
    that follow it. *)
Definition radixPrefix (l : list ascii) : option (N * list ascii) :=
  match l with
  | c0 :: c1 :: ds =>
      if Ascii.eqb c0 "0" then
        if Ascii.eqb c1 "x" || Ascii.eqb c1 "X" then Some (16%N, ds)
        else if Ascii.eqb c1 "o" || Ascii.eqb c1 "O" then Some (8%N, ds)
        else if Ascii.eqb c1 "b" || Ascii.eqb c1 "B" then Some (2%N, ds)
        else None
      else None
  | _ => None
  end.

Definition stringToBigInt (s : string) : Outcome Z :=
  match trim (chars s) with
  | [] => Ok 0
  | c :: ds =>
      match radixPrefix (c :: ds) with
      | Some (radix, ds') => liftParse (parseDigits radix ds')
      | None =>
          if Ascii.eqb c "-" then z ← liftParse (parseDigits 10 ds); Ok (- z)
          else if Ascii.eqb c "+" then liftParse (parseDigits 10 ds)
          else liftParse (parseDigits 10 (c :: ds))
      end
  end.

End JsString.

(** ** JavaScript values

    The values the decoder hands to the formatter: primitives, arrays and
    plain data objects.  [VNum] is a number holding an integer (the decoder
    yields integers; fractions, NaN and the infinities are outside the
    model), [VBigInt] a native bigint.  An object is the list of its own
    enumerable properties in enumeration order; a key is looked up at its
    first occurrence. *)
Unset Elimination Schemes.
Inductive Value : Type :=
| VUndefined
| VNull
| VBool (b : bool)
| VNum (n : Z)
| VBigInt (n : Z)
| VStr (s : string)
| VArr (items : list Value)
| VObj (fields : list (string * Value)).
Set Elimination Schemes.

Module Js.
Import JsString.

Definition nl : string := String (ascii_of_nat 10) "".
Definition dquote : string := String (ascii_of_nat 34) "".

(** ToBoolean *)
Definition truthy (v : Value) : bool :=
  match v with
  | VUndefined | VNull => false
  | VBool b => b
  | VNum n | VBigInt n => negb (n =? 0)
  | VStr s => negb (String.eqb s "")
  | VArr _ | VObj _ => true
  end.

(** [a || b] *)
Definition or_else (a b : Value) : Value := if truthy a then a else b.

(** ToString, as performed by [String(v)] and by template literals. *)
Fixpoint toStringJS (v : Value) : string :=
  match v with
  | VUndefined => "undefined"
  | VNull => "null"
  | VBool b => if b then "true" else "false"
  | VNum n | VBigInt n => decimal n
  | VStr s => s
  | VArr items =>
      join "," (map (fun x => match x with
                              | VUndefined | VNull => ""
                              | _ => toStringJS x
                              end) items)
  | VObj _ => "[object Object]"
  end.

(** [typeof v === 'object'] *)
Definition isObjectType (v : Value) : bool :=
  match v with
  | VNull | VArr _ | VObj _ => true
  | _ => false
  end.

Definition isArray (v : Value) : bool :=
  match v with VArr _ => true | _ => false end.

Definition isString (v : Value) : bool :=
  match v with VStr _ => true | _ => false end.

(** [o.k] on the property list of an object: [undefined] when absent. *)
Fixpoint getField (k : string) (fields : list (string * Value)) : Value :=
  match fields with
  | [] => VUndefined
  | (k', v) :: rest => if String.eqb k k' then v else getField k rest
  end.

(** The same look-up, handing the property to [f]. *)
Fixpoint withField {A} (k : string) (f : Value -> A) (absent : A)
    (fields : list (string * Value)) : A :=
  match fields with
  | [] => absent
  | (k', v) :: rest => if String.eqb k k' then f v else withField k f absent rest
  end.

Fixpoint hasField (k : string) (fields : list (string * Value)) : bool :=
  match fields with
  | [] => false
  | (k', _) :: rest => if String.eqb k k' then true else hasField k rest
  end.

(** [k in v] for a value known to be a non-null object; none of the keys the
    formatter asks for is a built-in property of arrays. *)
Definition has (k : string) (v : Value) : bool :=
  match v with
  | VObj fields => hasField k fields
  | _ => false
  end.

(** [v.k] for the data properties the formatter reads: a TypeError on
    [null] and [undefined], [undefined] on the other primitives and on
    arrays. *)
Definition prop (v : Value) (k : string) : Outcome Value :=
  match v with
  | VUndefined | VNull => Throw TypeError
  | VObj fields => Ok (getField k fields)
  | _ => Ok VUndefined
  end.

(** [v.k] for a value that is an object. *)
Definition get (v : Value) (k : string) : Value :=
  match v with
  | VObj fields => getField k fields
  | _ => VUndefined
  end.

(** [v === s] for a string literal [s] *)
Definition isStr (v : Value) (s : string) : bool :=
  match v with
  | VStr t => String.eqb t s
  | _ => false
  end.

(** [v.slice(a, b)] is defined on strings and on arrays; calling it on
    anything else is a TypeError. *)
Definition sliceOf (v : Value) (start : Z) (stop : option Z) : Outcome Value :=
  match v with
  | VStr s => Ok (VStr (slice s start stop))
  | VArr items => Ok (VArr (sliceList items start stop))
  | _ => Throw TypeError
  end.

(** [BigInt(v)] *)
Definition toBigInt (v : Value) : Outcome Z :=
  match v with
  | VUndefined | VNull => Throw TypeError
  | VBool b => Ok (if b then 1 else 0)
  | VNum n | VBigInt n => Ok n
  | VStr _ | VArr _ | VObj _ => stringToBigInt (toStringJS v)
  end.

(** *** JSON.stringify(value, null, 2) *)

Definition hex4 (n : N) : string :=
  text (padStart0 (digits 16 n) 4).

Definition quoteChar (c : ascii) : string :=
  let n := code c in
  if (n =? 8)%N then "\b"
  else if (n =? 9)%N then "\t"
  else if (n =? 10)%N then "\n"
  else if (n =? 12)%N then "\f"
  else if (n =? 13)%N then "\r"
  else if (n =? 34)%N then "\" +:+ dquote
  else if (n =? 92)%N then "\\"
  else if (n <? 32)%N then "\u" +:+ hex4 n
  else String c "".

Fixpoint quoteChars (s : string) : string :=
  match s with
  | EmptyString => ""
  | String c s' => quoteChar c +:+ quoteChars s'
  end.

Definition quoteJSON (s : string) : string := dquote +:+ quoteChars s +:+ dquote.

Definition wrapJSON (opening closing indent inner : string) (parts : list string) : string :=
  match parts with
  | [] => opening +:+ closing
  | _ => opening +:+ nl +:+ inner +:+ join ("," +:+ nl +:+ inner) parts
         +:+ nl +:+ indent +:+ closing
  end.

Definition member (key str : string) : string := quoteJSON key +:+ ": " +:+ str.

(** SerializeJSONProperty with a gap of two spaces: [None] is [undefined]
    (the value is left out of an object and written [null] in an array); a
    bigint is a TypeError. *)
Fixpoint serialize (indent : string) (v : Value) {struct v} : Outcome (option string) :=
  match v with
  | VUndefined => Ok None
  | VNull => Ok (Some "null")
  | VBool b => Ok (Some (if b then "true" else "false"))
  | VNum n => Ok (Some (decimal n))
  | VBigInt _ => Throw TypeError
  | VStr s => Ok (Some (quoteJSON s))
  | VArr items =>
      let inner := indent +:+ "  " in
      parts ← mapO (fun x => o ← serialize inner x; Ok (default "null" o)) items;
      Ok (Some (wrapJSON "[" "]" indent inner parts))
  | VObj fields =>
      let inner := indent +:+ "  " in
      parts ← mapO (fun kx => o ← serialize inner (snd kx);
                              Ok (option_map (member (fst kx)) o)) fields;
      Ok (Some (wrapJSON "{" "}" indent inner (omap id parts)))
  end.

Definition JSON_stringify (v : Value) : Outcome (option string) := serialize "" v.

End Js.

(** ** The host: what the embedding takes from outside

    [checksumAddress] is viem's EIP-55 checksum encoding (a Keccak-256 hash
    decides the case of each letter).  [percentText v] is the text of the
    template hole [${v / 10000}]: a double division followed by the
    number-to-string conversion, or a TypeError when [v] is a bigint. *)
Class Host := {
  checksumAddress : string -> string;
  percentText : Value -> Outcome string;
}.

(** ** viem *)
Module Viem.
Import JsString.

Definition isHexChar (c : ascii) : bool :=
  match digitVal 16 c with Some _ => true | None => false end.

(** [/^0x[a-fA-F0-9]{40}$/] *)
Definition addressRegex (s : string) : bool :=
  match s with
  | String "0" (String "x" rest) =>
      (String.length rest =? 40)%nat && forallb isHexChar (chars rest)
  | _ => false
  end.

(** [isAddress(address)] with the default [strict: true]: an address in
    other than all lower case has to carry its checksum. *)
Definition isAddress `{Host} (address : string) : bool :=
  if negb (addressRegex address) then false
  else if String.eqb (toLowerCase address) address then true
  else String.eqb (checksumAddress address) address.

(** [formatUnits(value, decimals)], from the text [display] of
    [value.toString()]. *)
Definition formatUnits (display : string) (decimals : nat) : string :=
  let negative := startsWith "-" display in
  let display := if negative then slice display 1 None else display in
  let padded := padStart0 (chars display) decimals in
  let cut := (length padded - decimals)%nat in
  let integer := text (firstn cut padded) in
  let fraction := text (stripTrailingZeros (skipn cut padded)) in
  (if negative then "-" else "")
  +:+ (if String.eqb integer "" then "0" else integer)
  +:+ (if String.eqb fraction "" then "" else "." +:+ fraction).

End Viem.

(** ** The token metadata registry ([src/utils/tokenResolver.ts]) *)

Record TokenInfo := {
  symbol : string;
  decimals : nat;
  logo : string;
  contract : option string;
  priceInUsd : Q;
}.

Module LayerSwap.
Record Token := {
  symbol : string;
  contract : option string;
  decimals : nat;
  logo : string;
  price_in_usd : Q;
}.
Record Network := {
  chain_id : string;
  tokens : list Token;
}.
End LayerSwap.

Module Registry.
Import JsString.

(** The state of a promise.  The body of the fetch is wrapped in [try]/[catch],
    so the model never produces [Rejected]; the constructor is there for the
    [await] of [resolveToken], which would rethrow. *)
Inductive Promise := Pending | Fulfilled | Rejected.

(** The module-level variables, and a ghost counter of the calls to
    [fetch()] issued so far. *)
Record State := {
  tokenCache : gmap string TokenInfo;
  networksData : option (list LayerSwap.Network);
  fetchPromise : option Promise;
  requests : nat;
}.

Definition initial : State :=
  {| tokenCache := ∅; networksData := None; fetchPromise := None; requests := 0 |}.

(** How the request to the LayerSwap endpoint ends. *)
Inductive Response :=
| FetchRejected                                  (* [fetch()] rejects *)
| NotOk                                          (* [response.ok] is false *)
| BadJson                                        (* [response.json()] rejects *)
| Payload (data : list LayerSwap.Network).       (* a decoded LayerSwapResponse *)

Definition tokenInfoOf (token : LayerSwap.Token) : TokenInfo :=
  {| symbol := LayerSwap.symbol token;
     decimals := LayerSwap.decimals token;
     logo := LayerSwap.logo token;
     contract := LayerSwap.contract token;
     priceInUsd := LayerSwap.price_in_usd token |}.

(** [token.contract] is truthy: present and not empty. *)
Definition contractAddress (token : LayerSwap.Token) : option string :=
  match LayerSwap.contract token with
  | Some c => if String.eqb c "" then None else Some c
  | None => None
  end.

(** The body of the inner loop (lines 59 to 79). *)
Definition cacheToken (chain : string) (cache : gmap string TokenInfo)
    (token : LayerSwap.Token) : gmap string TokenInfo :=
  let address :=
    match contractAddress token with
    | Some c => toLowerCase c
    | None => "native"
    end in
  let key := chain +:+ ":" +:+ address in
  let cache := <[key := tokenInfoOf token]> cache in
  match contractAddress token with
  | Some c => <[toLowerCase c := tokenInfoOf token]> cache
  | None => cache
  end.

Definition cacheNetwork (cache : gmap string TokenInfo) (network : LayerSwap.Network)
    : gmap string TokenInfo :=
  fold_left (cacheToken (LayerSwap.chain_id network)) (LayerSwap.tokens network) cache.

Definition buildCache (data : list LayerSwap.Network) (cache : gmap string TokenInfo)
    : gmap string TokenInfo :=
  fold_left cacheNetwork data cache.

(** What a caller of [fetchLayerSwapData] gets to await. *)
Inductive Awaited := AlreadyLoaded | SharedFetch.

(** The synchronous part of [fetchLayerSwapData] (lines 36 to 47 and 88): up
    to the first [await] of the fetch body.  An empty [networksData] array is
    truthy. *)
Definition fetchLayerSwapData (st : State) : State * Awaited :=
  match networksData st with
  | Some _ => (st, AlreadyLoaded)
  | None =>
      match fetchPromise st with
      | Some _ => (st, SharedFetch)
      | None =>
          ({| tokenCache := tokenCache st;
              networksData := None;
              fetchPromise := Some Pending;
              requests := S (requests st) |}, SharedFetch)
      end
  end.

(** The rest of the fetch body (lines 49 to 85), run in one piece when the
    request ends: it contains no further [await] after [response.json()]. *)
Definition completeFetch (r : Response) (st : State) : State :=
  match r with
  | Payload data =>
      {| tokenCache := buildCache data (tokenCache st);
         networksData := Some data;
         fetchPromise := Some Fulfilled;
         requests := requests st |}
  | FetchRejected | NotOk | BadJson =>
      {| tokenCache := tokenCache st;
         networksData := Some [];
         fetchPromise := Some Fulfilled;
         requests := requests st |}
  end.

Definition nativeAddress : string := "0x0000000000000000000000000000000000000000".

Definition nativeToken : TokenInfo :=
  {| symbol := "ETH"; decimals := 18; logo := ""; contract := None; priceInUsd := 0%Q |}.

(** [chainId] is truthy. *)
Definition scoped (chainId : option string) : option string :=
  match chainId with
  | Some c => if String.eqb c "" then None else Some c
  | None => None
  end.

(** [resolveToken] after its [await] (lines 98 to 124), reading the cache. *)
Definition resolveToken `{Host} (cache : gmap string TokenInfo)
    (address : string) (chainId : option string) : option TokenInfo :=
  if String.eqb address "" || String.eqb address nativeAddress then Some nativeToken
  else if negb (Viem.isAddress address) then None
  else
    let lowerAddress := toLowerCase address in
    let byChain :=
      match scoped chainId with
      | Some c => cache !! (c +:+ ":" +:+ lowerAddress)
      | None => None
      end in
    match byChain with
    | Some token => Some token
    | None => cache !! lowerAddress
    end.

(** The formatter hands [resolveToken] values of type [any].  A falsy value
    takes the native branch; a truthy value that is not a string fails the
    address pattern through its text, or, when that text looks like an
    address, reaches a [toLowerCase] it does not have. *)
Definition resolveTokenAny `{Host} (cache : gmap string TokenInfo)
    (address : Value) (chainId : option string) : Outcome (option TokenInfo) :=
  match address with
  | VStr s => Ok (resolveToken cache s chainId)
  | _ =>
      if negb (Js.truthy address) then Ok (Some nativeToken)
      else if Viem.addressRegex (Js.toStringJS address) then Throw TypeError
      else Ok None
  end.

(** [getNetworksData] after its [await] *)
Definition getNetworksData (st : State) : list LayerSwap.Network :=
  default [] (networksData st).

(** *** Concurrent callers

    JavaScript runs each piece of code between two [await]s to completion, so
    a run of the process is a sequence of events: a caller entering
    [resolveToken], or the outstanding request ending.  Callers that await the
    shared promise are resumed, in order, when it settles. *)
Record Call := { callAddress : string; callChain : option string }.

Inductive Event :=
| Resolve (c : Call)
| RequestEnds (r : Response).

Record World := {
  registry : State;
  waiting : list Call;
  answered : list (Call * Outcome (option TokenInfo));
}.

Definition start : World :=
  {| registry := initial; waiting := []; answered := [] |}.

Definition answer `{Host} (st : State) (c : Call) : Call * Outcome (option TokenInfo) :=
  (c, Ok (resolveToken (tokenCache st) (callAddress c) (callChain c))).

Definition step `{Host} (w : World) (e : Event) : World :=
  match e with
  | Resolve c =>
      let '(st, awaited) := fetchLayerSwapData (registry w) in
      match awaited, fetchPromise st with
      | SharedFetch, Some Pending =>
          {| registry := st; waiting := waiting w ++ [c]; answered := answered w |}
      | SharedFetch, Some Rejected =>
          {| registry := st; waiting := waiting w;
             answered := answered w ++ [(c, Throw Error)] |}
      | _, _ =>
          {| registry := st; waiting := waiting w;
             answered := answered w ++ [answer st c] |}
      end
  | RequestEnds r =>
      match fetchPromise (registry w) with
      | Some Pending =>
          let st := completeFetch r (registry w) in
          {| registry := st; waiting := [];
             answered := answered w ++ map (answer st) (waiting w) |}
      | _ => w
      end
  end.

Definition run `{Host} (w : World) (events : list Event) : World :=
  fold_left step events w.

End Registry.

(** ** The recursive value formatter ([src/utils/enhancedFormatter.ts])

    Every [await resolveToken(...)] of a formatting run returns after the one
    fetch of the registry has ended, and the cache is not written afterwards,
    so a run reads one fixed cache: [cache] below. *)

Record Formatted := { formatted : string; raw : string }.

Module Formatter.
Import JsString Js.

Section Formatter.
Context `{Host}.
Variable cache : gmap string TokenInfo.

(** [chainId || undefined] *)
Definition orUndefined (chainId : option string) : option string :=
  match chainId with
  | Some c => if String.eqb c "" then None else Some c
  | None => None
  end.

Definition isBigNumberLike (value : Value) : bool :=
  isObjectType value
  && negb (match value with VNull => true | _ => false end)
  && (has "hex" value || has "_hex" value)
  && (if has "type" value then isStr (get value "type") "BigNumber" else true).

Definition CONTRACT_BALANCE : string :=
  "0x8000000000000000000000000000000000000000000000000000000000000000".

Definition CONTRACT_BALANCE_TEXT : string :=
  "CONTRACT_BALANCE (use all from previous step)".

Definition bigNumberToBigInt (bn : Value) : Outcome Z :=
  let hex := or_else (get bn "hex") (get bn "_hex") in
  if negb (truthy hex) then Ok 0
  else toBigInt hex.

(** [token?.symbol || alt]; [alt] is evaluated only when it is needed. *)
Definition symbolOr (token : option TokenInfo) (alt : Outcome string) : Outcome string :=
  match token with
  | Some t => if String.eqb (symbol t) "" then alt else Ok (symbol t)
  | None => alt
  end.

(** The template [${v.slice(0, 6)}...${v.slice(-4)}] *)
Definition shortAddress (v : Value) : Outcome string :=
  a ← sliceOf v 0 (Some 6);
  b ← sliceOf v (-4) None;
  Ok (toStringJS a +:+ "..." +:+ toStringJS b).

(** [formatUnits(v, decimals)] starts with [v.toString()]. *)
Definition formatUnitsOf (v : Value) (decimals : nat) : Outcome string :=
  match v with
  | VUndefined | VNull => Throw TypeError
  | _ => Ok (Viem.formatUnits (toStringJS v) decimals)
  end.

(** Lines 68 to 87 of [formatTokenAmount]. *)
Definition scaleAmount (amountBigInt tokenAddress : Value) (chainId : option string)
    : Outcome string :=
  tokenInfo ← (if truthy tokenAddress
               then Registry.resolveTokenAny cache tokenAddress (orUndefined chainId)
               else Ok None);
  match tokenInfo with
  | Some info =>
      formatted ← formatUnitsOf amountBigInt (decimals info);
      let parts := split_dot formatted in
      let wholePart := nth 0 parts "" in
      let decimalPart := nth 1 parts "" in
      let limitedDecimal := slice decimalPart 0 (Some 6) in
      let displayAmount :=
        if String.eqb limitedDecimal "" then wholePart
        else wholePart +:+ "." +:+ limitedDecimal in
      Ok (displayAmount +:+ " " +:+ symbol info)
  | None =>
      formatted ← formatUnitsOf amountBigInt 18;
      Ok (formatted +:+ " tokens")
  end.

Definition formatTokenAmount (amount tokenAddress : Value) (chainId : option string)
    : Outcome string :=
  if isBigNumberLike amount
     && isStr (or_else (get amount "hex") (get amount "_hex")) CONTRACT_BALANCE
  then Ok CONTRACT_BALANCE_TEXT
  else if isBigNumberLike amount then
    amountBigInt ← bigNumberToBigInt amount;
    scaleAmount (VBigInt amountBigInt) tokenAddress chainId
  else
    match amount with
    | VStr s =>
        if String.eqb s CONTRACT_BALANCE then Ok CONTRACT_BALANCE_TEXT
        else
          match stringToBigInt s with
          | Ok amountBigInt => scaleAmount (VBigInt amountBigInt) tokenAddress chainId
          | Throw _ => Ok s
          end
    | _ => scaleAmount amount tokenAddress chainId
    end.

Fixpoint formatV2Tokens (path : list Value) (chainId : option string)
    : Outcome (list string) :=
  match path with
  | [] => Ok []
  | address :: rest =>
      token ← Registry.resolveTokenAny cache address (orUndefined chainId);
      label ← symbolOr token (shortAddress address);
      tokens ← formatV2Tokens rest chainId;
      Ok (label :: tokens)
  end.

Definition arrow : string := "→".

Definition formatV2Path (path : list Value) (chainId : option string) : Outcome string :=
  tokens ← formatV2Tokens path chainId;
  Ok (join (" " +:+ arrow +:+ " ") tokens).

(** [hop.fee ? ` (${hop.fee / 10000}%)` : ''] *)
Definition feeNote (hop : Value) : Outcome string :=
  fee ← prop hop "fee";
  if truthy fee then p ← percentText fee; Ok (" (" +:+ p +:+ "%)")
  else Ok "".

Fixpoint formatV3Hops (path : list Value) (chainId : option string)
    : Outcome (list string) :=
  match path with
  | [] => Ok []
  | hop :: rest =>
      tokenOut ← prop hop "tokenOut";
      token ← Registry.resolveTokenAny cache tokenOut (orUndefined chainId);
      symbol ← symbolOr token (shortAddress tokenOut);
      fee ← feeNote hop;
      steps ← formatV3Hops rest chainId;
      Ok ((arrow +:+ fee +:+ " " +:+ symbol) :: steps)
  end.

Definition formatV3Path (path : list Value) (chainId : option string) : Outcome string :=
  match path with
  | [] => Ok ""
  | firstHop :: _ =>
      tokenIn ← prop firstHop "tokenIn";
      firstToken ← Registry.resolveTokenAny cache tokenIn (orUndefined chainId);
      first ← symbolOr firstToken (shortAddress tokenIn);
      steps ← formatV3Hops path chainId;
      Ok (join " " (first :: steps))
  end.

Fixpoint formatV4Hops (path : list Value) (chainId : option string)
    : Outcome (list string) :=
  match path with
  | [] => Ok []
  | hop :: rest =>
      currency ← prop hop "intermediateCurrency";
      if truthy currency then
        token ← Registry.resolveTokenAny cache currency (orUndefined chainId);
        symbol ← symbolOr token (Ok "Unknown");
        fee ← feeNote hop;
        steps ← formatV4Hops rest chainId;
        Ok ((arrow +:+ " " +:+ symbol +:+ fee) :: steps)
      else formatV4Hops rest chainId
  end.

Definition formatV4Path (path : list Value) (chainId : option string) : Outcome string :=
  steps ← formatV4Hops path chainId;
  Ok (join " " steps).

(** Lines 257 to 262 and 265 to 270: the [From:] and [To:] lines. *)
Definition currencyLine (label : string) (currency : Value) (chainId : option string)
    : Outcome string :=
  token ← Registry.resolveTokenAny cache currency (orUndefined chainId);
  addr ← (if isStr currency Registry.nativeAddress then Ok "Native ETH"
          else shortAddress currency);
  name ← symbolOr token (Ok addr);
  Ok (label +:+ name).

Definition amountLine (label : string) (amount tokenAddress : Value)
    (chainId : option string) : Outcome (list string) :=
  if truthy amount then
    formatted ← formatTokenAmount amount tokenAddress chainId;
    Ok [label +:+ formatted]
  else Ok [].

(** Lines 250 to 254: the currency of the first hop of the path. *)
Definition firstHopCurrency (obj : Value) : Outcome Value :=
  match get obj "path" with
  | VArr (firstHop :: _) => prop firstHop "intermediateCurrency"
  | _ => Ok VUndefined
  end.

Definition currencyLines (label : string) (currency : Value) (chainId : option string)
    : Outcome (list string) :=
  if truthy currency then l ← currencyLine label currency chainId; Ok [l]
  else Ok [].

(** Lines 292 to 297 *)
Definition pathLines (obj : Value) (chainId : option string) : Outcome (list string) :=
  match get obj "path" with
  | VArr path =>
      pathDesc ← formatV4Path path chainId;
      Ok (if String.eqb pathDesc "" then [] else ["Path: " +:+ pathDesc])
  | _ => Ok []
  end.

(** The body of the [try] of [formatSwapObject]: the lines pushed on
    [parts]. *)
Definition swapParts (obj : Value) (chainId : option string) : Outcome (list string) :=
  outputToken0 ← firstHopCurrency obj;
  fromLine ← currencyLines "From: " (get obj "currencyIn") chainId;
  toLine ← currencyLines "To: " (get obj "currencyOut") chainId;
  let outputToken :=
    if truthy (get obj "currencyOut") then get obj "currencyOut" else outputToken0 in
  amountIn ← amountLine "Amount In: " (get obj "amountIn") (get obj "currencyIn") chainId;
  amountOut ← amountLine "Amount Out: " (get obj "amountOut")
                (or_else outputToken (get obj "currencyOut")) chainId;
  minOut ← amountLine "Min Out: " (get obj "amountOutMinimum")
             (or_else outputToken (get obj "currencyOut")) chainId;
  pathLine ← pathLines obj chainId;
  Ok (fromLine ++ toLine ++ amountIn ++ amountOut ++ minOut ++ pathLine).

Definition formatSwapObject (obj : Value) (chainId : option string) : string :=
  tryCatch
    (parts ← swapParts obj chainId;
     Ok (match parts with
         | [] => "Swap Details"
         | _ => join nl parts
         end))
    "Error formatting swap details".

(** The [every] tests of lines 120, 130, 136 and 142. *)
Definition isNamedField (item : Value) : bool :=
  isObjectType item && truthy item && has "name" item && has "value" item.

Definition isAddressText (item : Value) : bool :=
  match item with
  | VStr s => startsWith "0x" s && (len s =? 42)%nat
  | _ => false
  end.

Definition isV3Hop (item : Value) : bool :=
  isObjectType item && truthy item && has "tokenIn" item && has "tokenOut" item.

Definition isV4Hop (item : Value) : bool :=
  isObjectType item && truthy item && has "intermediateCurrency" item.

Definition nullResult : Formatted := {| formatted := "null"; raw := "null" |}.

(** [raw] is a string unless the value is [undefined], and then line 104
    returns before [raw] is used. *)
Definition rawText (json : option string) : string := default "" json.

(** Lines 129 to 147: an array that is not a list of named fields. *)
Definition formatPathArray (raw : string) (items : list Value) (chainId : option string)
    : Outcome Formatted :=
  if forallb isAddressText items then
    pathDesc ← formatV2Path items chainId;
    Ok {| formatted := pathDesc; raw := raw |}
  else if forallb isV3Hop items then
    pathDesc ← formatV3Path items chainId;
    Ok {| formatted := pathDesc; raw := raw |}
  else if forallb isV4Hop items then
    pathDesc ← formatV4Path items chainId;
    Ok {| formatted := pathDesc; raw := raw |}
  else
    Ok {| formatted := "Array with " +:+ decimal (Z.of_nat (length items)) +:+ " items";
          raw := raw |}.

(** Lines 151 to 161: an object that is not a big number. *)
Definition formatObject (raw : string) (value : Value) (chainId : option string)
    : Outcome Formatted :=
  if has "currencyIn" value || has "currencyOut" value || has "path" value
  then Ok {| formatted := formatSwapObject value chainId; raw := raw |}
  else Ok {| formatted := "Object"; raw := raw |}.

(** Lines 163 to 179: addresses and the default. *)
Definition formatLeaf (value : Value) (chainId : option string) : Outcome Formatted :=
  match value with
  | VStr s =>
      if startsWith "0x" s && (len s =? 42)%nat then
        tokenInfo ← Registry.resolveTokenAny cache value (orUndefined chainId);
        let short := slice s 0 (Some 6) +:+ "..." +:+ slice s (-4) None in
        match tokenInfo with
        | Some info =>
            Ok {| formatted := symbol info +:+ " (" +:+ short +:+ ")"; raw := s |}
        | None => Ok {| formatted := short; raw := s |}
        end
      else Ok {| formatted := toStringJS value; raw := toStringJS value |}
  | _ => Ok {| formatted := toStringJS value; raw := toStringJS value |}
  end.

(** One turn of the loop of lines 122 to 125; [self] is the recursive call. *)
Definition namedFieldLine
    (self : Value -> Value -> option string -> Value -> Outcome Formatted)
    (chainId : option string) (item : Value) : Outcome string :=
  name ← prop item "name";
  value ← prop item "value";
  itemResult ← self name value chainId VUndefined;
  Ok (toStringJS name +:+ ": " +:+ formatted itemResult).

(** The body of the [try] of [formatValueEnhanced] (lines 102 to 179), with
    the recursive call as a parameter. *)
Definition formatBody
    (self : Value -> Value -> option string -> Value -> Outcome Formatted)
    (raw : string) (value : Value) (chainId : option string) (contextToken : Value)
    : Outcome Formatted :=
  match value with
  | VUndefined | VNull => Ok nullResult
  | _ =>
    if isBigNumberLike value then
      formatted ← formatTokenAmount value contextToken chainId;
      Ok {| formatted := formatted; raw := raw |}
    else
      match value with
      | VArr [] => Ok {| formatted := "[]"; raw := "[]" |}
      | VArr items =>
          if forallb isNamedField items then
            parts ← mapO (namedFieldLine self chainId) items;
            Ok {| formatted := join nl parts; raw := raw |}
          else formatPathArray raw items chainId
      | VObj _ => formatObject raw value chainId
      | _ => formatLeaf value chainId
      end
  end.

(** [formatValueEnhanced].  [raw] is computed on line 99, before the [try].
    The recursion is on the structure of the value: the loop over the named
    fields finds [item.value] in the property list of the item;
    [formatValueEnhanced_eq] below states it through [formatBody]. *)
Fixpoint formatValueEnhanced (_name value : Value) (chainId : option string)
    (contextToken : Value) {struct value} : Outcome Formatted :=
  json ← JSON_stringify value;
  let raw := rawText json in
  Ok (tryCatch
    (match value with
     | VUndefined | VNull => Ok nullResult
     | _ =>
       if isBigNumberLike value then
         formatted ← formatTokenAmount value contextToken chainId;
         Ok {| formatted := formatted; raw := raw |}
       else
         match value with
         | VArr [] => Ok {| formatted := "[]"; raw := "[]" |}
         | VArr items =>
             if forallb isNamedField items then
               parts ←
                 mapO (fun item =>
                         name ← prop item "name";
                         itemResult ←
                           match item with
                           | VObj fields =>
                               withField "value"
                                 (fun v => formatValueEnhanced name v chainId VUndefined)
                                 (Ok nullResult) fields
                           | _ => Ok nullResult
                           end;
                         Ok (toStringJS name +:+ ": " +:+ formatted itemResult))
                      items;
               Ok {| formatted := join nl parts; raw := raw |}
             else formatPathArray raw items chainId
         | VObj _ => formatObject raw value chainId
         | _ => formatLeaf value chainId
         end
     end)
    {| formatted := "Error formatting value"; raw := raw |}).

End Formatter.
End Formatter.

(** ** Sample data for the worked examples *)
Module Sample.
Import JsString.

(** The decimal expansion of [n / 10000], which is what JavaScript prints
    for an integer fee: the quotient has at most 15 significant digits for
    [|n| < 10^15], and such decimals survive the round trip through a
    double. *)
Definition percentOfInteger (n : Z) : string := Viem.formatUnits (decimal n) 4.

(** A host for integer fees and lower-case addresses: the checksum of this
    instance is never met by an address with a capital letter. *)
#[export] Instance host : Host := {|
  checksumAddress := toLowerCase;
  percentText v :=
    match v with
    | VNum n => Ok (percentOfInteger n)
    | VBool b => Ok (percentOfInteger (if b then 1 else 0))
    | VBigInt _ => Throw TypeError
    | _ => Ok "NaN"
    end
|}.

Definition tokenA : string := "0xaaaaaaaaaaaaaaaaaaaaaaaaaaaaaaaaaaaaaaaa".
Definition tokenB : string := "0xbbbbbbbbbbbbbbbbbbbbbbbbbbbbbbbbbbbbbbbb".
Definition tokenC : string := "0xcccccccccccccccccccccccccccccccccccccccc".

Definition lsToken (sym : string) (addr : option string) (dec : nat) : LayerSwap.Token :=
  {| LayerSwap.symbol := sym; LayerSwap.contract := addr; LayerSwap.decimals := dec;
     LayerSwap.logo := ""; LayerSwap.price_in_usd := 0%Q |}.

Definition payload : list LayerSwap.Network :=
  [ {| LayerSwap.chain_id := "1";
       LayerSwap.tokens := [ lsToken "ETH" None 18;
                             lsToken "FOO" (Some tokenA) 18;
                             lsToken "BAR" (Some tokenB) 6 ] |};
    {| LayerSwap.chain_id := "10";
       LayerSwap.tokens := [ lsToken "FOO.e" (Some tokenA) 8 ] |} ].

Definition cache : gmap string TokenInfo := Registry.buildCache payload ∅.

(** A payload that lists a token under the zero address, and a network
    whose identifier is the empty string. *)
Definition oddPayload : list LayerSwap.Network :=
  [ {| LayerSwap.chain_id := "1";
       LayerSwap.tokens := [ lsToken "ZERO" (Some Registry.nativeAddress) 9 ] |};
    {| LayerSwap.chain_id := "";
       LayerSwap.tokens := [ lsToken "FOO" (Some tokenA) 18 ] |};
    {| LayerSwap.chain_id := "10";
       LayerSwap.tokens := [ lsToken "FOO.e" (Some tokenA) 8 ] |} ].

Definition oddCache : gmap string TokenInfo := Registry.buildCache oddPayload ∅.

End Sample.

(** ** Vocabulary of the statements *)

(** The life cycle of the registry: unfetched, fetching, loaded.  In the
    first two phases nothing has been cached and nobody has been answered;
    in the last every answer given so far agrees with the cache. *)
Inductive Phase `{Host} (w : Registry.World) : Prop :=
| Unfetched :
    Registry.registry w = Registry.initial ->
    Registry.waiting w = [] ->
    Registry.answered w = [] ->
    Phase w
| Fetching :
    Registry.registry w =
      {| Registry.tokenCache := ∅; Registry.networksData := None;
         Registry.fetchPromise := Some Registry.Pending; Registry.requests := 1 |} ->
    Registry.answered w = [] ->
    Phase w
| Loaded (data : list LayerSwap.Network) :
    Registry.networksData (Registry.registry w) = Some data ->
    Registry.fetchPromise (Registry.registry w) = Some Registry.Fulfilled ->
    Registry.requests (Registry.registry w) = 1%nat ->
    Registry.waiting w = [] ->
    Forall (fun ca => ca = Registry.answer (Registry.registry w) (fst ca))
           (Registry.answered w) ->
    Phase w.

(** The request did not deliver a payload. *)
Definition failed (r : Registry.Response) : bool :=
  match r with
  | Registry.Payload _ => false
  | _ => true
  end.

(** The address takes the native branch of [resolveToken]. *)
Definition isNative (address : string) : bool :=
  String.eqb address "" || String.eqb address Registry.nativeAddress.

Definition pendingState : Registry.State :=
  {| Registry.tokenCache := ∅; Registry.networksData := None;
     Registry.fetchPromise := Some Registry.Pending; Registry.requests := 1 |}.

Definition resolveCalls (events : list Registry.Event) : list Registry.Call :=
  omap (fun e => match e with Registry.Resolve c => Some c | _ => None end) events.

(** The [raw] component of an outcome of the formatter. *)
Definition rawOutcome (o : Outcome Formatted) : Outcome string :=
  r ← o; Ok (raw r).

(** What [raw] is, from the input value alone: the JSON text, except that a
    string is given bare and [undefined] as ["null"]. *)
Definition rawOf (v : Value) : Outcome string :=
  json ← Js.JSON_stringify v;
  Ok (match v with
      | VUndefined => "null"
      | VStr s => s
      | _ => Formatter.rawText json
      end).

(** A big-number-like record whose effective hex field, [hex] or else
    [_hex], is the full-balance sentinel. *)
Definition isSentinelRecord (v : Value) : bool :=
  Formatter.isBigNumberLike v
  && Js.isStr (Js.or_else (Js.get v "hex") (Js.get v "_hex")) Formatter.CONTRACT_BALANCE.

(** The currency the output amounts of a swap descriptor are to be scaled
    by: the explicit output currency when there is one, else the one implied
    by the first hop of the path. *)
Definition outputCurrency (obj implied : Value) : Value :=
  if Js.truthy (Js.get obj "currencyOut") then Js.get obj "currencyOut" else implied.

(** A hop of a fee-tier path. *)
Record FeeTierHop := { tokenIn : string; tokenOut : string; fee : Z }.

Definition hopValue (h : FeeTierHop) : Value :=
  VObj [("tokenIn", VStr (tokenIn h)); ("tokenOut", VStr (tokenOut h)); ("fee", VNum (fee h))].

(** The symbol an address resolves to; empty when it does not resolve. *)
Definition symbolOf `{Host} (cache : gmap string TokenInfo) (chainId : option string)
    (address : string) : string :=
  match Registry.resolveToken cache address (Formatter.orUndefined chainId) with
  | Some info => symbol info
  | None => ""
  end.

(** The annotation of an arrow: the percentage in parentheses, nothing for
    a fee of zero. *)
Definition feeText `{Host} (fee : Z) : string :=
  if fee =? 0 then ""
  else match percentText (VNum fee) with
       | Ok p => " (" +:+ p +:+ "%)"
       | Throw _ => ""
       end.

Fixpoint concatText (l : list string) : string :=
  match l with
  | [] => ""
  | x :: l' => x +:+ concatText l'
  end.

(** The rendering of a fee-tier path in the words of the specification, with
    the spacing of the code: the symbol of the first input token, then for
    every hop an arrow, its annotation, and the symbol of the output token. *)
Definition feeTierText `{Host} (cache : gmap string TokenInfo) (chainId : option string)
    (hops : list FeeTierHop) : string :=
  match hops with
  | [] => ""
  | h :: _ =>
      symbolOf cache chainId (tokenIn h)
      +:+ concatText
            (map (fun x => " " +:+ Formatter.arrow +:+ feeText (fee x) +:+ " "
                           +:+ symbolOf cache chainId (tokenOut x)) hops)
  end.

(** A hop whose output token resolves to a symbol and whose fee, when it
    is not zero, has a percentage text. *)
Definition hopResolves `{Host} (cache : gmap string TokenInfo) (chainId : option string)
    (h : FeeTierHop) : Prop :=
  symbolOf cache chainId (tokenOut h) <> ""
  /\ (fee h = 0 \/ exists p, percentText (VNum (fee h)) = Ok p).

(** The value holds a native bigint somewhere. *)
Fixpoint hasBigInt (v : Value) : bool :=
  match v with
  | VBigInt _ => true
  | VArr items => existsb hasBigInt items
  | VObj fields => existsb (fun kv => hasBigInt (snd kv)) fields
  | _ => false
  end.

(** The display text of an outcome of the formatter. *)
Definition displayOf (o : Outcome Formatted) : string :=
  match o with
  | Ok r => formatted r
  | Throw _ => ""
  end.

(** The line of a named field: its name, a colon, and the display of its
    value formatted on its own, without a contextual currency. *)
Definition namedFieldText `{Host} (cache : gmap string TokenInfo) (chainId : option string)
    (item : Value) : string :=
  Js.toStringJS (Js.get item "name") +:+ ": "
  +:+ displayOf (Formatter.formatValueEnhanced cache (Js.get item "name")
                   (Js.get item "value") chainId VUndefined).

(** Swap descriptors for the worked examples: token A (FOO, 18 decimals)
    in; token B (BAR, 6 decimals) out, given explicitly, implied by the
    first hop of the path, or both with a path that names token A. *)
Module SampleSwap.
Import Sample.

Definition million : Value := VObj [("type", VStr "BigNumber"); ("hex", VStr "0x0f4240")].

Definition explicitOut : Value :=
  VObj [("currencyIn", VStr tokenA); ("currencyOut", VStr tokenB);
        ("amountOut", VStr "1500000"); ("amountOutMinimum", million)].

Definition impliedOut : Value :=
  VObj [("currencyIn", VStr tokenA);
        ("amountOut", VStr "1500000"); ("amountOutMinimum", million);
        ("path", VArr [VObj [("intermediateCurrency", VStr tokenB); ("fee", VNum 500)]])].

Definition bothOut : Value :=
  VObj [("currencyIn", VStr tokenA); ("currencyOut", VStr tokenB);
        ("amountOut", VStr "1500000"); ("amountOutMinimum", million);
        ("path", VArr [VObj [("intermediateCurrency", VStr tokenA); ("fee", VNum 500)]])].

End SampleSwap.

(** ** Encodings of an amount *)

(** The hex text of a big number as ethers writes it: [0x] and an even
    number of lower-case digits. *)
Definition evenPad (l : list ascii) : list ascii :=
  if Nat.even (length l) then l else "0"%char :: l.

Definition hexText (n : N) : string :=
  "0x" +:+ JsString.text (evenPad (JsString.digits 16 n)).

(** The record a big number serialises to, and the legacy record with the
    [_hex] field. *)
Definition bigNumber (n : N) : Value :=
  VObj [("type", VStr "BigNumber"); ("hex", VStr (hexText n))].

Definition legacyBigNumber (n : N) : Value :=
  VObj [("_hex", VStr (hexText n)); ("_isBigNumber", VBool true)].

(** The three encodings of a non-negative integer: the decimal string, the
    native bigint, and a hex-bearing record that is not the sentinel. *)
Inductive Encodes : Value -> Z -> Prop :=
| EncodesString n : 0 <= n -> Encodes (VStr (JsString.decimal n)) n
| EncodesBigInt n : 0 <= n -> Encodes (VBigInt n) n
| EncodesRecord n : 0 <= n -> n <> 2 ^ 255 -> Encodes (bigNumber (Z.to_N n)) n
| EncodesLegacy n : 0 <= n -> n <> 2 ^ 255 -> Encodes (legacyBigNumber (Z.to_N n)) n.

(** The last [width] decimal digits of [m], zeros included. *)
Fixpoint lastDigits (width : nat) (m : N) : list ascii :=
  match width with
  | O => []
  | S w => lastDigits w (m / 10) ++ [JsString.digitChar (m mod 10)]
  end.

Definition isDecimalDigit (c : ascii) : bool :=
  ((48 <=? JsString.code c) && (JsString.code c <=? 57))%N.

(** The number a string of decimal digits denotes. *)
Definition numeral (s : string) : N :=
  fold_left (fun acc c => (acc * 10 + (JsString.code c - 48))%N) (JsString.chars s) 0%N.

(** ** More of JavaScript: substring search, [typeof], [trim] *)
Module JsText.
Import JsString.

(** [s.includes(p)] *)
Fixpoint includes (p s : string) : bool :=
  startsWith p s
  || match s with
     | EmptyString => false
     | String _ s' => includes p s'
     end.

(** [s.trim()] *)
Definition trimText (s : string) : string := text (trim (chars s)).

(** [/^\d+$/.test(s)] *)
Definition isDigits (s : string) : bool :=
  negb (String.eqb s "") && forallb isDecimalDigit (chars s).

(** [typeof v] *)
Definition typeOf (v : Value) : string :=
  match v with
  | VUndefined => "undefined"
  | VBool _ => "boolean"
  | VNum _ => "number"
  | VBigInt _ => "bigint"
  | VStr _ => "string"
  | VNull | VArr _ | VObj _ => "object"
  end.

End JsText.

(** ** The basic formatter ([src/utils/formatter.ts]) *)
Module BasicFormatter.
Import JsString Js JsText.

Section BasicFormatter.
Context `{Host}.

Definition formatAddress (address : string) : string :=
  if negb (Viem.isAddress address) then address
  else if String.eqb address "0x0000000000000000000000000000000000000000" then "ETH (Native)"
  else if String.eqb address "0x0000000000000000000000000000000000000001" then "MSG_SENDER"
  else if String.eqb address "0x0000000000000000000000000000000000000002" then "ROUTER_ADDRESS"
  else
    let start := slice address 0 (Some 6) in
    let stop := slice address (-4) None in
    start +:+ "..." +:+ stop.

(** [formatAmount(amount, decimals = 18)]: the [catch] answers with
    [amount.toString()], which itself throws on [null] and [undefined]. *)
Definition formatAmount (amount : Value) (decimals : option nat) : Outcome string :=
  let decimals := default 18%nat decimals in
  let body :=
    value ← match amount with
            | VStr s => z ← stringToBigInt s; Ok (VBigInt z)
            | _ => Ok amount
            end;
    Formatter.formatUnitsOf value decimals in
  match body with
  | Ok formatted => Ok formatted
  | Throw _ =>
      match amount with
      | VUndefined | VNull => Throw TypeError
      | _ => Ok (toStringJS amount)
      end
  end.

(** The test of line 54: a string that starts with [0x]. *)
Definition isHexText (item : Value) : bool :=
  match item with
  | VStr s => startsWith "0x" s
  | _ => false
  end.

(** The test of line 67 on the name of the parameter. *)
Definition isAmountName (name : string) : bool :=
  includes "amount" (toLowerCase name) || includes "value" (toLowerCase name).

(** Lines 66 to 76 for a string or a bigint under an amount name. *)
Definition formatWei (value : Value) : Outcome string :=
  formatted ← formatAmount value None;
  Ok (formatted +:+ " (" +:+ toStringJS value +:+ " Wei)").

Fixpoint formatValue (name : string) (value : Value) {struct value} : Outcome string :=
  match value with
  | VUndefined | VNull => Ok "null"
  | VArr [] => Ok "[]"
  | VArr items =>
      if forallb isHexText items then
        Ok (join (" " +:+ Formatter.arrow +:+ " ")
                 (map (fun addr => formatAddress (toStringJS addr)) items))
      else
        parts ← mapO (formatValue name) items;
        Ok ("[" +:+ join ", " parts +:+ "]")
  | VStr s =>
      if startsWith "0x" s && (len s =? 42)%nat then Ok (formatAddress s)
      else if isAmountName name && isDigits s then formatWei value
      else Ok s
  | VBigInt n =>
      if isAmountName name then formatWei value
      else Ok (decimal n)
  | VBool b => Ok (if b then "true" else "false")
  | VObj _ =>
      json ← JSON_stringify value;
      Ok (Formatter.rawText json)
  | VNum n => Ok (decimal n)
  end.

End BasicFormatter.
End BasicFormatter.

(** ** The calldata parser ([src/utils/parser.ts]) and its callers *)
Module Parser.
Import JsString JsText.

(** What [CommandParser.parseCalldata] of the Uniswap SDK hands back: the
    decoded commands, or a thrown value, which is an [Error] with its message
    or something else. *)
Record SdkParam := { paramName : string; paramValue : Value }.
Record SdkCommand := {
  sdkCommandName : string;
  sdkCommandType : Z;
  sdkParams : list SdkParam;
}.
Inductive Thrown := ErrorObject (message : string) | OtherValue.
Inductive SdkResult := Parsed (decoded : list SdkCommand) | Throws (thrown : Thrown).

(** [src/types] *)
Record ParsedParam := { name : string; value : Value; type : option string }.
Record ParsedCommand := {
  commandName : string;
  commandType : string;
  params : list ParsedParam;
}.
Record ParseResult := {
  success : bool;
  commands : option (list ParsedCommand);
  error : option string;
}.

Section Parser.
Variable sdkParseCalldata : string -> SdkResult.

Definition toParam (param : SdkParam) : ParsedParam :=
  {| name := paramName param;
     value := paramValue param;
     type := Some (typeOf (paramValue param)) |}.

Definition toCommand (cmd : SdkCommand) : ParsedCommand :=
  {| commandName := sdkCommandName cmd;
     commandType := decimal (sdkCommandType cmd);
     params := map toParam (sdkParams cmd) |}.

Definition parseCalldata (calldata : string) : ParseResult :=
  if String.eqb calldata "" || negb (startsWith "0x" calldata) then
    {| success := false; commands := None;
       error := Some "Invalid calldata: must start with 0x" |}
  else
    match sdkParseCalldata calldata with
    | Parsed decoded =>
        {| success := true; commands := Some (map toCommand decoded); error := None |}
    | Throws (ErrorObject message) =>
        {| success := false; commands := None; error := Some message |}
    | Throws OtherValue =>
        {| success := false; commands := None; error := Some "Unknown error occurred" |}
    end.

End Parser.
End Parser.

(** [handleParse] of [src/components/CalldataInput.tsx]: the error it sets,
    and the text it hands to [onParse], if any. *)
Module CalldataInput.
Import JsString JsText.

Definition handleParse (calldata : string) : string * option string :=
  if String.eqb (trimText calldata) "" then ("Please enter calldata", None)
  else if negb (startsWith "0x" calldata) then ("Calldata must start with 0x", None)
  else ("", Some (trimText calldata)).

End CalldataInput.

(** [handleParse] of [src/App.tsx], as the state it leaves when it ends. *)
Module App.

Record State := {
  commands : list Parser.ParsedCommand;
  loading : bool;
  error : option string;
}.

Definition setCommands (v : list Parser.ParsedCommand) (st : State) : State :=
  {| commands := v; loading := loading st; error := error st |}.
Definition setLoading (v : bool) (st : State) : State :=
  {| commands := commands st; loading := v; error := error st |}.
Definition setError (v : option string) (st : State) : State :=
  {| commands := commands st; loading := loading st; error := v |}.

Section App.
Variable sdkParseCalldata : string -> Parser.SdkResult.

Definition handleParse (calldata : string) (st : State) : State :=
  let st := setLoading true st in
  let st := setError None st in
  let st := setCommands [] st in
  let result := Parser.parseCalldata sdkParseCalldata calldata in
  let st :=
    match Parser.success result, Parser.commands result with
    | true, Some parsed => setCommands parsed st
    | _, _ =>
        setError (Some (match Parser.error result with
                        | Some message =>
                            if String.eqb message "" then "Failed to parse calldata"
                            else message
                        | None => "Failed to parse calldata"
                        end)) st
    end in
  setLoading false st.

End App.
End App.

(** [enhanceParams] of [src/components/CommandCard.tsx], and the list the
    component renders. *)
Module CommandCard.
Import JsString Js.

Record EnhancedParam := {
  name : string;
  value : Value;
  formatted : string;
  raw : option string;
}.

Record State := {
  enhancedParams : list EnhancedParam;
  loading : bool;
}.

Section CommandCard.
Context `{Host}.
Variable cache : gmap string TokenInfo.

(** Lines 45 to 50 and 128 to 133: the entry built from the basic
    formatter. *)
Definition basicParam (param : Parser.ParsedParam) : Outcome EnhancedParam :=
  formatted ← BasicFormatter.formatValue (Parser.name param) (Parser.value param);
  raw ← JSON_stringify (Parser.value param);
  Ok {| name := Parser.name param; value := Parser.value param;
        formatted := formatted; raw := raw |}.

(** One turn of the loop of lines 31 to 52 *)
Definition enhanceParam (chainId : option string) (param : Parser.ParsedParam)
    : Outcome EnhancedParam :=
  match Formatter.formatValueEnhanced cache (VStr (Parser.name param))
          (Parser.value param) chainId VUndefined with
  | Ok (Build_Formatted resultFormatted resultRaw) =>
      Ok {| name := Parser.name param; value := Parser.value param;
            formatted := resultFormatted; raw := Some resultRaw |}
  | Throw _ => basicParam param
  end.

Definition enhanceParams (chainId : option string) (command : Parser.ParsedCommand)
    (st : State) : State :=
  let st := {| enhancedParams := enhancedParams st; loading := true |} in
  let st :=
    match mapO (enhanceParam chainId) (Parser.params command) with
    | Ok enhanced => {| enhancedParams := enhanced; loading := loading st |}
    | Throw _ => st
    end in
  {| enhancedParams := enhancedParams st; loading := false |}.

(** The list mapped over by the render (lines 128 to 133). *)
Definition shownParams (command : Parser.ParsedCommand) (st : State)
    : Outcome (list EnhancedParam) :=
  match enhancedParams st with
  | [] => mapO basicParam (Parser.params command)
  | _ => Ok (enhancedParams st)
  end.

End CommandCard.
End CommandCard.

(** ** The earlier revision of the formatter ([src/utils/enhancedFormatter.ts])

    The revision without the [chainId] parameter: no guard for the
    full-balance sentinel, one path renderer, no output currency taken from
    the path.  [isBigNumberLike], [bigNumberToBigInt] and the helpers that
    do not differ are those of the current revision. *)
Module Earlier.
Import JsString Js.

Section Earlier.
Context `{Host}.
Variable cache : gmap string TokenInfo.

(** Lines 53 to 72 of [formatTokenAmount]. *)
Definition scaleAmount (amountBigInt tokenAddress : Value) : Outcome string :=
  tokenInfo ← (if truthy tokenAddress
               then Registry.resolveTokenAny cache tokenAddress None
               else Ok None);
  match tokenInfo with
  | Some info =>
      formatted ← Formatter.formatUnitsOf amountBigInt (decimals info);
      let parts := split_dot formatted in
      let wholePart := nth 0 parts "" in
      let decimalPart := nth 1 parts "" in
      let limitedDecimal := slice decimalPart 0 (Some 6) in
      let displayAmount :=
        if String.eqb limitedDecimal "" then wholePart
        else wholePart +:+ "." +:+ limitedDecimal in
      Ok (displayAmount +:+ " " +:+ symbol info)
  | None =>
      formatted ← Formatter.formatUnitsOf amountBigInt 18;
      Ok (formatted +:+ " tokens")
  end.

Definition formatTokenAmount (amount tokenAddress : Value) : Outcome string :=
  if Formatter.isBigNumberLike amount then
    amountBigInt ← Formatter.bigNumberToBigInt amount;
    scaleAmount (VBigInt amountBigInt) tokenAddress
  else
    match amount with
    | VStr s =>
        match stringToBigInt s with
        | Ok amountBigInt => scaleAmount (VBigInt amountBigInt) tokenAddress
        | Throw _ => Ok s
        end
    | _ => scaleAmount amount tokenAddress
    end.

Fixpoint formatHops (path : list Value) : Outcome (list string) :=
  match path with
  | [] => Ok []
  | hop :: rest =>
      currency ← prop hop "intermediateCurrency";
      if truthy currency then
        token ← Registry.resolveTokenAny cache currency None;
        symbol ← Formatter.symbolOr token (Ok "Unknown");
        fee ← Formatter.feeNote hop;
        steps ← formatHops rest;
        Ok ((Formatter.arrow +:+ " " +:+ symbol +:+ fee) :: steps)
      else formatHops rest
  end.

Definition formatPath (path : list Value) : Outcome string :=
  steps ← formatHops path;
  Ok (join " " steps).

(** Lines 184 to 189 and 192 to 197 *)
Definition currencyLines (label : string) (currency : Value) : Outcome (list string) :=
  if truthy currency then
    token ← Registry.resolveTokenAny cache currency None;
    addr ← (if isStr currency Registry.nativeAddress then Ok "Native ETH"
            else Formatter.shortAddress currency);
    name ← Formatter.symbolOr token (Ok addr);
    Ok [label +:+ name]
  else Ok [].

Definition amountLine (label : string) (amount tokenAddress : Value)
    : Outcome (list string) :=
  if truthy amount then
    formatted ← formatTokenAmount amount tokenAddress;
    Ok [label +:+ formatted]
  else Ok [].

(** Lines 218 to 223 *)
Definition pathLines (obj : Value) : Outcome (list string) :=
  match get obj "path" with
  | VArr path =>
      pathDesc ← formatPath path;
      Ok (if String.eqb pathDesc "" then [] else ["Path: " +:+ pathDesc])
  | _ => Ok []
  end.

Definition swapParts (obj : Value) : Outcome (list string) :=
  fromLine ← currencyLines "From: " (get obj "currencyIn");
  toLine ← currencyLines "To: " (get obj "currencyOut");
  amountIn ← amountLine "Amount In: " (get obj "amountIn") (get obj "currencyIn");
  amountOut ← amountLine "Amount Out: " (get obj "amountOut") (get obj "currencyOut");
  minOut ← amountLine "Min Out: " (get obj "amountOutMinimum") (get obj "currencyOut");
  pathLine ← pathLines obj;
  Ok (fromLine ++ toLine ++ amountIn ++ amountOut ++ minOut ++ pathLine).

Definition formatSwapObject (obj : Value) : string :=
  tryCatch
    (parts ← swapParts obj;
     Ok (match parts with
         | [] => "Swap Details"
         | _ => join nl parts
         end))
    "Error formatting swap details".

(** Lines 113 to 119: an array that is not a list of named fields. *)
Definition formatPathArray (raw : string) (items : list Value) : Outcome Formatted :=
  if forallb Formatter.isV4Hop items then
    pathDesc ← formatPath items;
    Ok {| formatted := pathDesc; raw := raw |}
  else
    Ok {| formatted := "Array with " +:+ decimal (Z.of_nat (length items)) +:+ " items";
          raw := raw |}.

(** Lines 123 to 133 *)
Definition formatObject (raw : string) (value : Value) : Outcome Formatted :=
  if has "currencyIn" value || has "currencyOut" value || has "path" value
  then Ok {| formatted := formatSwapObject value; raw := raw |}
  else Ok {| formatted := "Object"; raw := raw |}.

(** Lines 136 to 151: addresses and the default. *)
Definition formatLeaf (value : Value) : Outcome Formatted :=
  match value with
  | VStr s =>
      if startsWith "0x" s && (len s =? 42)%nat then
        tokenInfo ← Registry.resolveTokenAny cache value None;
        let short := slice s 0 (Some 6) +:+ "..." +:+ slice s (-4) None in
        match tokenInfo with
        | Some info =>
            Ok {| formatted := symbol info +:+ " (" +:+ short +:+ ")"; raw := s |}
        | None => Ok {| formatted := short; raw := s |}
        end
      else Ok {| formatted := toStringJS value; raw := toStringJS value |}
  | _ => Ok {| formatted := toStringJS value; raw := toStringJS value |}
  end.

Fixpoint formatValueEnhanced (_name value contextToken : Value) {struct value}
    : Outcome Formatted :=
  json ← JSON_stringify value;
  let raw := Formatter.rawText json in
  Ok (tryCatch
    (match value with
     | VUndefined | VNull => Ok Formatter.nullResult
     | _ =>
       if Formatter.isBigNumberLike value then
         formatted ← formatTokenAmount value contextToken;
         Ok {| formatted := formatted; raw := raw |}
       else
         match value with
         | VArr [] => Ok {| formatted := "[]"; raw := "[]" |}
         | VArr items =>
             if forallb Formatter.isNamedField items then
               parts ←
                 mapO (fun item =>
                         name ← prop item "name";
                         itemResult ←
                           match item with
                           | VObj fields =>
                               withField "value"
                                 (fun v => formatValueEnhanced name v VUndefined)
                                 (Ok Formatter.nullResult) fields
                           | _ => Ok Formatter.nullResult
                           end;
                         Ok (toStringJS name +:+ ": " +:+ formatted itemResult))
                      items;
               Ok {| formatted := join nl parts; raw := raw |}
             else formatPathArray raw items
         | VObj _ => formatObject raw value
         | _ => formatLeaf value
         end
     end)
    {| formatted := "Error formatting value"; raw := raw |}).

End Earlier.
End Earlier.

(** ** Vocabulary of the further properties *)

(** The keys under which the loop of lines 58 to 80 of the registry stores
    a token. *)
Definition cacheKeys (chain : string) (token : LayerSwap.Token) : list string :=
  match Registry.contractAddress token with
  | Some c => [chain +:+ ":" +:+ JsString.toLowerCase c; JsString.toLowerCase c]
  | None => [chain +:+ ":" +:+ "native"]
  end.

(** A text without a colon, the separator of the scoped keys. *)
Definition colonFree (s : string) : bool :=
  forallb (fun c => negb (Ascii.eqb c ":")) (JsString.chars s).

(** No network id and no contract of the payload holds a colon. *)
Definition colonFreePayload (data : list LayerSwap.Network) : bool :=
  forallb (fun network =>
    colonFree (LayerSwap.chain_id network)
    && forallb (fun token =>
         match Registry.contractAddress token with
         | Some c => colonFree c
         | None => true
         end) (LayerSwap.tokens network)) data.

(** The network id asked for, if any, holds no colon. *)
Definition colonFreeId (chainId : option string) : bool :=
  match chainId with
  | Some chain => colonFree chain
  | None => true
  end.

(** The [set] calls of the loop over the payload, in order. *)
Definition tokenWrites (chain : string) (token : LayerSwap.Token)
    : list (string * TokenInfo) :=
  map (fun key => (key, Registry.tokenInfoOf token)) (cacheKeys chain token).

Definition networkWrites (network : LayerSwap.Network) : list (string * TokenInfo) :=
  flat_map (tokenWrites (LayerSwap.chain_id network)) (LayerSwap.tokens network).

Definition payloadWrites (data : list LayerSwap.Network) : list (string * TokenInfo) :=
  flat_map networkWrites data.

Definition applyWrites (writes : list (string * TokenInfo)) (cache : gmap string TokenInfo)
    : gmap string TokenInfo :=
  fold_left (fun cache kv => <[fst kv := snd kv]> cache) writes cache.

(** The registry indexes the networks it hands out. *)
Definition indexed (st : Registry.State) : Prop :=
  Registry.tokenCache st = Registry.buildCache (Registry.getNetworksData st) ∅.

(** An optional string argument: [undefined] when it is left out. *)
Definition optional (o : option string) : Value :=
  match o with
  | Some s => VStr s
  | None => VUndefined
  end.

(** The hex field the amount formatter reads off a record: [hex || _hex]. *)
Definition effectiveHex (v : Value) : Value :=
  Js.or_else (Js.get v "hex") (Js.get v "_hex").

(** The label of an address in a path: its symbol, or else its first six
    and last four characters. *)
Definition shortText (s : string) : string :=
  JsString.slice s 0 (Some 6) +:+ "..." +:+ JsString.slice s (-4) None.

Definition addressLabel `{Host} (cache : gmap string TokenInfo) (chainId : option string)
    (address : string) : string :=
  match Registry.resolveToken cache address (Formatter.orUndefined chainId) with
  | Some info => if String.eqb (symbol info) "" then shortText address else symbol info
  | None => shortText address
  end.

(** A hop that names an intermediate currency. *)
Definition namesCurrency (hop : Value) : bool :=
  Js.truthy (Js.get hop "intermediateCurrency").

Definition isNullish (v : Value) : bool :=
  match v with
  | VUndefined | VNull => true
  | _ => false
  end.

(** The test of lines 130 and 164 on a string. *)
Definition looksLikeAddress (s : string) : bool :=
  JsString.startsWith "0x" s && (JsString.len s =? 42)%nat.

(** The path of a swap descriptor adds no line: it is not an array, or it
    is an array of hops none of which names a currency. *)
Definition silentPath (path : Value) : bool :=
  match path with
  | VArr hops => negb (existsb isNullish hops) && forallb (fun hop => negb (namesCurrency hop)) hops
  | _ => true
  end.

(** A swap descriptor with nothing to show. *)
Definition hasNoContent (obj : Value) : bool :=
  negb (Js.truthy (Js.get obj "currencyIn"))
  && negb (Js.truthy (Js.get obj "currencyOut"))
  && negb (Js.truthy (Js.get obj "amountIn"))
  && negb (Js.truthy (Js.get obj "amountOut"))
  && negb (Js.truthy (Js.get obj "amountOutMinimum"))
  && silentPath (Js.get obj "path").

(** A parameter whose value holds a native bigint. *)
Definition holdsBigInt (param : Parser.ParsedParam) : bool :=
  hasBigInt (Parser.value param).

(** An amount that is not the full-balance sentinel, in neither form. *)
Definition notSentinel (amount : Value) : bool :=
  negb (isSentinelRecord amount) && negb (Js.isStr amount Formatter.CONTRACT_BALANCE).

(** The currency the first hop of the path of a swap descriptor names. *)
Definition impliedCurrency (obj : Value) : Value :=
  match Js.get obj "path" with
  | VArr (hop :: _) => Js.get hop "intermediateCurrency"
  | _ => VUndefined
  end.

(** A swap descriptor the two revisions read alike: no amount is the
    sentinel, and the output currency is given or the path implies none. *)
Definition readAlike (obj : Value) : bool :=
  notSentinel (Js.get obj "amountIn")
  && notSentinel (Js.get obj "amountOut")
  && notSentinel (Js.get obj "amountOutMinimum")
  && (Js.truthy (Js.get obj "currencyOut") || negb (Js.truthy (impliedCurrency obj))).

(** The first character of a text. *)
Definition firstChar (s : string) : option ascii :=
  match s with
  | String c _ => Some c
  | EmptyString => None
  end.

(** The first characters of the labels of a swap descriptor's lines. *)
Definition isLabelChar (c : ascii) : bool :=
  existsb (Ascii.eqb c) ["F"; "T"; "A"; "M"; "P"]%char.

Definition labelled (line : string) : Prop :=
  exists c, firstChar line = Some c /\ isLabelChar c = true.

(** A value the two revisions read alike: no record they reach is the
    sentinel, the lists that are not lists of named fields are neither lists
    of address-like texts nor fee-tier paths, and the swap descriptors are
    read alike; the fields of a list of named fields are looked at through
    their values. *)
Fixpoint readAlikeValue (v : Value) {struct v} : bool :=
  match v with
  | VArr items =>
      if forallb Formatter.isNamedField items then
        forallb (fun item =>
                   match item with
                   | VObj fields => Js.withField "value" readAlikeValue true fields
                   | _ => true
                   end) items
      else negb (forallb Formatter.isAddressText items)
           && negb (forallb Formatter.isV3Hop items)
  | VObj _ =>
      if Formatter.isBigNumberLike v then notSentinel v
      else if Js.has "currencyIn" v || Js.has "currencyOut" v || Js.has "path" v
           then readAlike v
           else true
  | _ => true
  end.

(** The two revisions agree on a value. *)
Definition agreeOn `{Host} (cache : gmap string TokenInfo) (v : Value) : Prop :=
  forall name ctx,
    readAlikeValue v = true ->
    Earlier.formatValueEnhanced cache name v ctx
    = Formatter.formatValueEnhanced cache name v None ctx.

(** They agree on what a list or an object holds. *)
Definition agreeInside `{Host} (cache : gmap string TokenInfo) (v : Value) : Prop :=
  match v with
  | VArr items => Forall (agreeOn cache) items
  | VObj fields => Forall (fun kv => agreeOn cache (snd kv)) fields
  | _ => True
  end.

(** The first hop of the path of a swap descriptor is [null] or
    [undefined], so that nothing can be read off it. *)
Definition unreadableFirstHop (obj : Value) : bool :=
  match Js.get obj "path" with
  | VArr (hop :: _) => isNullish hop
  | _ => false
  end.

(** The currency of the output of a swap descriptor: the explicit output
    currency when there is one, else the currency the first hop of the path
    names. *)
Definition swapOutputCurrency (obj : Value) : Value :=
  outputCurrency obj (impliedCurrency obj).

(** The output amounts of a swap descriptor, with the labels of their
    lines. *)
Definition outputAmounts (obj : Value) : list (string * Value) :=
  [("Amount Out: ", Js.get obj "amountOut");
   ("Min Out: ", Js.get obj "amountOutMinimum")].

Module SampleHops.
Import Sample.

(** Token A (FOO, 18 decimals) in, no explicit output currency, and a path
    of two hops: token B (BAR, 6 decimals) first, then token A. *)
Definition twoHops : Value :=
  VObj [("currencyIn", VStr tokenA);
        ("amountOut", VStr "1500000"); ("amountOutMinimum", SampleSwap.million);
        ("path", VArr [VObj [("intermediateCurrency", VStr tokenB); ("fee", VNum 500)];
                       VObj [("intermediateCurrency", VStr tokenA); ("fee", VNum 3000)]])].

(** Token B in, and neither an output currency nor a path. *)
Definition noOutput : Value :=
  VObj [("currencyIn", VStr tokenB);
        ("amountIn", VStr "1500000"); ("amountOut", VStr "1500000")].

End SampleHops.

(** Sample data of the further properties *)
Module SampleCard.
Import Sample.

Definition network1 : LayerSwap.Network :=
  {| LayerSwap.chain_id := "1";
     LayerSwap.tokens := [ lsToken "ETH" None 18;
                           lsToken "FOO" (Some tokenA) 18;
                           lsToken "BAR" (Some tokenB) 6 ] |}.

Definition network10 : LayerSwap.Network :=
  {| LayerSwap.chain_id := "10";
     LayerSwap.tokens := [ lsToken "FOO.e" (Some tokenA) 8 ] |}.

Definition param (name : string) (value : Value) : Parser.ParsedParam :=
  {| Parser.name := name; Parser.value := value;
     Parser.type := Some (JsText.typeOf value) |}.

(** A command whose parameters hold no bigint, and one with a bigint. *)
Definition sweep : Parser.ParsedCommand :=
  {| Parser.commandName := "SWEEP"; Parser.commandType := "4";
     Parser.params := [ param "token" (VStr tokenA); param "amountMin" (VStr "1500000") ] |}.

Definition wrap : Parser.ParsedCommand :=
  {| Parser.commandName := "WRAP_ETH"; Parser.commandType := "11";
     Parser.params := [ param "recipient" (VStr tokenA); param "amountMin" (VBigInt 1000) ] |}.

Definition idle : CommandCard.State :=
  {| CommandCard.enhancedParams := []; CommandCard.loading := false |}.

(** An SDK that decodes nothing. *)
Definition emptySdk (calldata : string) : Parser.SdkResult := Parser.Parsed [].

End SampleCard.

(** * Properties *)

Example decimal_ex : JsString.decimal (-1205) = "-1205".
Proof. reflexivity. Qed.
Example bigint_ex : JsString.stringToBigInt " 0x1F " = Ok 31.
Proof. reflexivity. Qed.
Example slice_ex : JsString.slice "0x1234567890" (-4) None = "7890".
Proof. reflexivity. Qed.
Example units_ex : Viem.formatUnits "1234500" 6 = "1.2345".
Proof. reflexivity. Qed.
Example units_ex2 : Viem.formatUnits "-5" 18 = "-0.000000000000000005".
Proof. reflexivity. Qed.


(** ** The registry *)
Section RegistryFacts.
Context `{Host}.
Import Registry.

Lemma run_app w es1 es2 : run w (es1 ++ es2) = run (run w es1) es2.
Proof. unfold run. apply fold_left_app. Qed.

Lemma run_cons w e es : run w (e :: es) = run (step w e) es.
Proof. reflexivity. Qed.

Lemma step_phase w e : Phase w -> Phase (step w e).
Proof.
  intros [Hreg Hwait Hans | Hreg Hans | data Hdata Hprom Hreq Hwait Hans];
    destruct w as [st wt an]; simpl in *; subst.
  - destruct e as [c | r]; simpl.
    + apply Fetching; reflexivity.
    + apply Unfetched; reflexivity.
  - destruct e as [c | r]; simpl.
    + apply Fetching; reflexivity.
    + destruct r as [ | | | data]; simpl.
      1-3: apply (Loaded _ []); simpl; try reflexivity;
           apply List.Forall_forall; intros ca Hin;
           apply in_map_iff in Hin as (c & <- & _); reflexivity.
      apply (Loaded _ data); simpl; try reflexivity.
      apply List.Forall_forall. intros ca Hin.
      apply in_map_iff in Hin as (c & <- & _). reflexivity.
  - destruct e as [c | r]; simpl.
    + unfold fetchLayerSwapData. rewrite Hdata. simpl.
      apply (Loaded _ data); simpl; auto.
      apply Forall_app. split; [exact Hans | repeat constructor].
    + rewrite Hprom. apply (Loaded _ data); simpl; auto.
Qed.

Lemma run_phase events : forall w, Phase w -> Phase (run w events).
Proof.
  induction events as [| e events IH]; intros w Hw; [exact Hw |].
  rewrite run_cons. apply IH, step_phase, Hw.
Qed.

Lemma start_phase : Phase start.
Proof. apply Unfetched; reflexivity. Qed.

Lemma phase_requests w : Phase w -> (requests (registry w) <= 1)%nat.
Proof.
  intros [Hreg _ _ | Hreg _ | data _ _ Hreq _ _]; try rewrite Hreg; simpl; lia.
Qed.

(** While the request is outstanding, callers queue up behind it. *)
Lemma run_resolves_pending c0 calls :
  run start (Resolve c0 :: map Resolve calls) =
  {| registry := {| tokenCache := ∅; networksData := None;
                    fetchPromise := Some Pending; requests := 1 |};
     waiting := c0 :: calls;
     answered := [] |}.
Proof.
  rewrite run_cons. simpl.
  change (c0 :: calls) with ([c0] ++ calls).
  generalize [c0] as queue. induction calls as [| c calls IH]; intros queue.
  - simpl. rewrite app_nil_r. reflexivity.
  - simpl map. rewrite run_cons. simpl. rewrite IH.
    rewrite <- app_assoc. reflexivity.
Qed.

(** Once loaded, the registry is never written again. *)
Lemma step_loaded w e data :
  networksData (registry w) = Some data ->
  fetchPromise (registry w) = Some Fulfilled ->
  registry (step w e) = registry w.
Proof.
  intros Hdata Hprom. destruct e as [c | r]; simpl.
  - unfold fetchLayerSwapData. rewrite Hdata. reflexivity.
  - rewrite Hprom. reflexivity.
Qed.

Lemma run_loaded events : forall w data,
  networksData (registry w) = Some data ->
  fetchPromise (registry w) = Some Fulfilled ->
  registry (run w events) = registry w.
Proof.
  induction events as [| e events IH]; intros w data Hdata Hprom; [reflexivity |].
  rewrite run_cons.
  pose proof (step_loaded w e data Hdata Hprom) as Hstep.
  rewrite (IH _ data); rewrite ?Hstep; auto.
Qed.

Lemma step_loaded_answers w e data :
  networksData (registry w) = Some data ->
  fetchPromise (registry w) = Some Fulfilled ->
  answered (step w e) =
  answered w ++ map (answer (registry w)) (resolveCalls [e]).
Proof.
  intros Hdata Hprom. destruct e as [c | r]; simpl.
  - unfold fetchLayerSwapData. rewrite Hdata. reflexivity.
  - rewrite Hprom, app_nil_r. reflexivity.
Qed.

Lemma run_loaded_answers events : forall w data,
  networksData (registry w) = Some data ->
  fetchPromise (registry w) = Some Fulfilled ->
  answered (run w events) =
  answered w ++ map (answer (registry w)) (resolveCalls events).
Proof.
  induction events as [| e events IH]; intros w data Hdata Hprom.
  - simpl. rewrite app_nil_r. reflexivity.
  - rewrite run_cons.
    pose proof (step_loaded w e data Hdata Hprom) as Hstep.
    rewrite (IH _ data); rewrite ?Hstep; auto.
    rewrite (step_loaded_answers w e data Hdata Hprom).
    rewrite <- app_assoc, <- map_app. f_equal. f_equal.
    destruct e; reflexivity.
Qed.

End RegistryFacts.

Section RegistryClaims.
Context `{Host}.
Import Registry JsString.

(** The run in which a first caller and any number of others arrive while
    the request is outstanding, the request ends, and anything happens
    afterwards. *)
Lemma run_after_response c0 calls r later :
  let w := run start (Resolve c0 :: map Resolve calls ++ RequestEnds r :: later) in
  registry w = completeFetch r pendingState
  /\ requests (registry w) = 1%nat
  /\ waiting w = []
  /\ answered w = map (answer (registry w)) (c0 :: calls ++ resolveCalls later).
Proof.
  intros w. subst w.
  change (Resolve c0 :: map Resolve calls ++ RequestEnds r :: later)
    with ((Resolve c0 :: map Resolve calls) ++ RequestEnds r :: later).
  rewrite run_app, run_resolves_pending, run_cons.
  set (w1 := step _ (RequestEnds r)).
  assert (Hw1 : w1 = {| registry := completeFetch r pendingState; waiting := [];
                        answered := map (answer (completeFetch r pendingState)) (c0 :: calls) |})
    by reflexivity.
  assert (Hdata : exists data, networksData (registry w1) = Some data)
    by (rewrite Hw1; destruct r; simpl; eauto).
  destruct Hdata as [data Hdata].
  assert (Hprom : fetchPromise (registry w1) = Some Fulfilled)
    by (rewrite Hw1; destruct r; reflexivity).
  rewrite (run_loaded later w1 data Hdata Hprom).
  rewrite (run_loaded_answers later w1 data Hdata Hprom).
  pose proof (run_phase later w1) as Hphase.
  rewrite Hw1. simpl registry. simpl waiting. simpl answered.
  repeat split.
  - destruct r; reflexivity.
  - assert (Hp : Phase w1).
    { rewrite Hw1. apply (Loaded _ data); simpl; try (destruct r; reflexivity).
      - rewrite Hw1 in Hdata. exact Hdata.
      - apply List.Forall_forall. intros ca Hin.
        change (In ca (map (answer (completeFetch r pendingState)) (c0 :: calls))) in Hin.
        apply in_map_iff in Hin as (c & <- & _). reflexivity. }
    destruct (Hphase Hp) as [Hreg Hw _ | Hreg _ | d _ _ _ Hw _]; auto.
    rewrite (run_loaded later w1 data Hdata Hprom) in Hreg.
    rewrite Hw1 in Hreg. destruct r; discriminate.
  - change (c0 :: calls ++ resolveCalls later)
      with ((c0 :: calls) ++ resolveCalls later).
    rewrite (map_app _ (c0 :: calls)). reflexivity.
Qed.

(** With nothing cached, only the native branch finds a token. *)
Lemma resolveToken_empty address chainId :
  resolveToken ∅ address chainId
  = if isNative address then Some nativeToken else None.
Proof.
  unfold resolveToken, isNative.
  destruct (String.eqb address "" || String.eqb address nativeAddress); [reflexivity |].
  destruct (negb (Viem.isAddress address)); [reflexivity |].
  destruct (scoped chainId); rewrite !lookup_empty; reflexivity.
Qed.

(** C6 (as amended): for an address that [isAddress] accepts and that is not
    the native zero address, and for a network id that is not the empty
    string, a cached entry under the network-scoped key is what
    [resolveToken] returns, whatever the network-agnostic key holds; the
    network-agnostic entry is consulted when the scoped key misses. *)
Theorem scoped_entry_takes_precedence
    (cache : gmap string TokenInfo) (address chainId : string) :
  Viem.isAddress address = true ->
  address <> nativeAddress ->
  chainId <> "" ->
  (forall scopedEntry,
      cache !! (chainId +:+ ":" +:+ toLowerCase address) = Some scopedEntry ->
      resolveToken cache address (Some chainId) = Some scopedEntry)
  /\ (cache !! (chainId +:+ ":" +:+ toLowerCase address) = None ->
      resolveToken cache address (Some chainId) = cache !! toLowerCase address).
Proof.
  intros Haddr Hnative Hchain.
  assert (Hne : String.eqb address "" = false).
  { destruct address; [discriminate Haddr | reflexivity]. }
  assert (Hnn : String.eqb address nativeAddress = false)
    by (apply String.eqb_neq; exact Hnative).
  assert (Hc : String.eqb chainId "" = false)
    by (apply String.eqb_neq; exact Hchain).
  unfold resolveToken, scoped. rewrite Hne, Hnn, Haddr, Hc. simpl.
  split.
  - intros scopedEntry ->. reflexivity.
  - intros ->. reflexivity.
Qed.

End RegistryClaims.

(** The hypotheses of [scoped_entry_takes_precedence] at the sample cache:
    on network 1 token A is FOO, while the network-agnostic key holds the
    entry of network 10. *)
Lemma scoped_entry_takes_precedence_witness :
  Registry.resolveToken (H := Sample.host) Sample.cache Sample.tokenA (Some "1")
    = Some {| symbol := "FOO"; decimals := 18; logo := ""; contract := Some Sample.tokenA;
              priceInUsd := 0%Q |}
  /\ Sample.cache !! Sample.tokenA
    = Some {| symbol := "FOO.e"; decimals := 8; logo := ""; contract := Some Sample.tokenA;
              priceInUsd := 0%Q |}.
Proof.
  split.
  - apply (scoped_entry_takes_precedence (H := Sample.host) Sample.cache Sample.tokenA "1").
    + vm_compute. reflexivity.
    + discriminate.
    + discriminate.
    + vm_compute. reflexivity.
  - vm_compute. reflexivity.
Defined.

(** C6 as stated fails twice over.  With a non-empty network id it fails at
    the zero address, which is well formed but answered with the synthesized
    native token even when both keys are cached; away from the zero address
    it fails at the empty network id, for which the scoped key is never
    consulted. *)
Lemma native_and_empty_network_bypass_scoped_entry :
  ~ (forall cache address chainId scopedEntry plainEntry,
        chainId <> "" ->
        Viem.isAddress (H := Sample.host) address = true ->
        cache !! (chainId +:+ ":" +:+ JsString.toLowerCase address) = Some scopedEntry ->
        cache !! JsString.toLowerCase address = Some plainEntry ->
        Registry.resolveToken (H := Sample.host) cache address (Some chainId)
          = Some scopedEntry)
  /\ ~ (forall cache address chainId scopedEntry plainEntry,
        address <> Registry.nativeAddress ->
        Viem.isAddress (H := Sample.host) address = true ->
        cache !! (chainId +:+ ":" +:+ JsString.toLowerCase address) = Some scopedEntry ->
        cache !! JsString.toLowerCase address = Some plainEntry ->
        Registry.resolveToken (H := Sample.host) cache address (Some chainId)
          = Some scopedEntry).
Proof.
  split; intros Hclaim.
  - specialize (Hclaim Sample.oddCache Registry.nativeAddress "1"
                  (Registry.tokenInfoOf (Sample.lsToken "ZERO" (Some Registry.nativeAddress) 9))
                  (Registry.tokenInfoOf (Sample.lsToken "ZERO" (Some Registry.nativeAddress) 9))).
    assert (Hc : Registry.resolveToken (H := Sample.host) Sample.oddCache
                   Registry.nativeAddress (Some "1") = Some Registry.nativeToken)
      by reflexivity.
    rewrite Hc in Hclaim.
    assert (Hfalse : Some Registry.nativeToken
                     = Some (Registry.tokenInfoOf
                               (Sample.lsToken "ZERO" (Some Registry.nativeAddress) 9))).
    { apply Hclaim; [discriminate | | |]; vm_compute; reflexivity. }
    discriminate Hfalse.
  - specialize (Hclaim Sample.oddCache Sample.tokenA ""
                  (Registry.tokenInfoOf (Sample.lsToken "FOO" (Some Sample.tokenA) 18))
                  (Registry.tokenInfoOf (Sample.lsToken "FOO.e" (Some Sample.tokenA) 8))).
    assert (Hc : Registry.resolveToken (H := Sample.host) Sample.oddCache
                   Sample.tokenA (Some "")
                 = Some (Registry.tokenInfoOf (Sample.lsToken "FOO.e" (Some Sample.tokenA) 8)))
      by (vm_compute; reflexivity).
    rewrite Hc in Hclaim.
    assert (Hfalse : Some (Registry.tokenInfoOf (Sample.lsToken "FOO.e" (Some Sample.tokenA) 8))
                     = Some (Registry.tokenInfoOf (Sample.lsToken "FOO" (Some Sample.tokenA) 18))).
    { apply Hclaim; [discriminate | | |]; vm_compute; reflexivity. }
    discriminate Hfalse.
Qed.

(** ** The formatter: unfolding and totality *)

Lemma withField_getField {A} k (f : Value -> A) fields :
  Js.withField k f (f VUndefined) fields = f (Js.getField k fields).
Proof.
  induction fields as [| [k' v] rest IH]; simpl; [reflexivity |].
  destruct (String.eqb k k'); [reflexivity | exact IH].
Qed.

Lemma mapO_ext {A B} (f g : A -> Outcome B) l :
  (forall x, f x = g x) -> mapO f l = mapO g l.
Proof.
  intros Hfg. induction l as [| x l IH]; simpl; [reflexivity |].
  rewrite Hfg, IH. reflexivity.
Qed.

Section FormatterFacts.
Context `{Host}.
Variable cache : gmap string TokenInfo.
Import JsString Js Formatter.

Lemma formatValueEnhanced_undefined name chain ctx :
  formatValueEnhanced cache name VUndefined chain ctx = Ok nullResult.
Proof. reflexivity. Qed.

(** The recursive function, read through the body of its [try]. *)
Lemma formatValueEnhanced_eq name v chain ctx :
  formatValueEnhanced cache name v chain ctx =
  json ← JSON_stringify v;
  Ok (tryCatch
        (formatBody cache (formatValueEnhanced cache) (rawText json) v chain ctx)
        {| formatted := "Error formatting value"; raw := rawText json |}).
Proof.
  destruct v; try reflexivity.
  unfold formatBody.
  rewrite (mapO_ext (namedFieldLine (formatValueEnhanced cache) chain)
             (fun item =>
                name ← prop item "name";
                itemResult ←
                  match item with
                  | VObj fields =>
                      withField "value"
                        (fun v => formatValueEnhanced cache name v chain VUndefined)
                        (Ok nullResult) fields
                  | _ => Ok nullResult
                  end;
                Ok (toStringJS name +:+ ": " +:+ formatted itemResult))).
  - destruct items; reflexivity.
  - intros item. unfold namedFieldLine.
    destruct item; try reflexivity.
    unfold prop. cbn [mbind outcome_bind bindO].
    change (Ok nullResult) with
      ((fun v => formatValueEnhanced cache (getField "name" fields) v chain VUndefined)
         VUndefined).
    rewrite (withField_getField "value"
               (fun v => formatValueEnhanced cache (getField "name" fields) v chain VUndefined)).
    reflexivity.
Qed.

(** The formatter returns exactly when the serialisation of line 99 does:
    whatever is thrown later is caught. *)
Lemma formatValueEnhanced_returns name v chain ctx json :
  JSON_stringify v = Ok json ->
  exists r, formatValueEnhanced cache name v chain ctx = Ok r.
Proof.
  intros Hjson. rewrite formatValueEnhanced_eq, Hjson. simpl. eauto.
Qed.

Lemma formatValueEnhanced_throws name v chain ctx e :
  JSON_stringify v = Throw e ->
  formatValueEnhanced cache name v chain ctx = Throw e.
Proof.
  intros Hjson. rewrite formatValueEnhanced_eq, Hjson. reflexivity.
Qed.

Lemma raw_tryCatch_bind {A} (m : Outcome A) (f : A -> string) (e x : string) :
  raw (tryCatch (a ← m; Ok {| formatted := f a; raw := x |})
                {| formatted := e; raw := x |}) = x.
Proof. destruct m; reflexivity. Qed.

(** In every branch of the body, and in the handler, [raw] is a function of
    the value and of the text computed on line 99. *)
Lemma raw_formatBody self rawj v chain ctx :
  raw (tryCatch (formatBody cache self rawj v chain ctx)
                {| formatted := "Error formatting value"; raw := rawj |})
  = match v with
    | VUndefined | VNull => "null"
    | VStr s => s
    | VBool _ | VNum _ | VBigInt _ => toStringJS v
    | VArr [] => "[]"
    | _ => rawj
    end.
Proof.
  destruct v as [| | b | n | n | s | items | fields]; try reflexivity.
  - unfold formatBody, formatLeaf.
    change (isBigNumberLike (VStr s)) with false. cbv beta iota.
    destruct (startsWith "0x" s && (len s =? 42)%nat); [| reflexivity].
    simpl. destruct (Registry.resolveToken cache s (orUndefined chain)); reflexivity.
  - unfold formatBody.
    change (isBigNumberLike (VArr items)) with false. cbv beta iota.
    destruct items as [| item items]; [reflexivity |].
    destruct (forallb isNamedField (item :: items)).
    + apply (raw_tryCatch_bind _ (fun parts => join nl parts)).
    + unfold formatPathArray.
      destruct (forallb isAddressText (item :: items));
        [apply (raw_tryCatch_bind _ (fun d => d)) |].
      destruct (forallb isV3Hop (item :: items));
        [apply (raw_tryCatch_bind _ (fun d => d)) |].
      destruct (forallb isV4Hop (item :: items));
        [apply (raw_tryCatch_bind _ (fun d => d)) | reflexivity].
  - unfold formatBody.
    destruct (isBigNumberLike (VObj fields)).
    + apply (raw_tryCatch_bind _ (fun d => d)).
    + unfold formatObject.
      destruct (has "currencyIn" (VObj fields) || has "currencyOut" (VObj fields)
                || has "path" (VObj fields)); reflexivity.
Qed.

Lemma rawOutcome_formatValueEnhanced name v chain ctx :
  rawOutcome (formatValueEnhanced cache name v chain ctx) = rawOf v.
Proof.
  rewrite formatValueEnhanced_eq. unfold rawOutcome, rawOf.
  destruct (JSON_stringify v) as [json | e] eqn:Hjson; [| reflexivity].
  cbn [mbind outcome_bind bindO]. rewrite raw_formatBody.
  destruct v as [| | b | n | n | s | items | fields]; try reflexivity.
  - inversion Hjson. reflexivity.
  - destruct b; inversion Hjson; reflexivity.
  - inversion Hjson. reflexivity.
  - discriminate Hjson.
  - destruct items; [inversion Hjson |]; reflexivity.
Qed.

End FormatterFacts.

Section FailureClaims.
Context `{Host}.
Import Registry JsString Js Formatter.

(** C5: when the request fails (the fetch rejects, the status is not ok, or
    the body does not decode), the failure is absorbed.  Whatever calls came
    before and whatever happens afterwards, the registry is loaded with no
    networks and an empty cache, the promise is fulfilled rather than
    rejected, the one request is never followed by another, every call is
    answered without a throw, with not-found unless the address takes the
    native branch, and formatting against this registry returns whenever the
    value can be serialised. *)
Theorem fetch_failure_is_absorbed c0 calls r later :
  failed r = true ->
  let w := run start (Resolve c0 :: map Resolve calls ++ RequestEnds r :: later) in
  tokenCache (registry w) = ∅
  /\ networksData (registry w) = Some []
  /\ fetchPromise (registry w) = Some Fulfilled
  /\ requests (registry w) = 1%nat
  /\ waiting w = []
  /\ answered w =
       map (fun c => (c, Ok (if isNative (callAddress c) then Some nativeToken else None)))
           (c0 :: calls ++ resolveCalls later)
  /\ (forall name v chain ctx json,
        JSON_stringify v = Ok json ->
        exists f, formatValueEnhanced (tokenCache (registry w)) name v chain ctx = Ok f).
Proof.
  intros Hfail w.
  destruct (run_after_response c0 calls r later) as (Hreg & Hreq & Hwait & Hans).
  fold w in Hreg, Hreq, Hwait, Hans.
  assert (Hst : registry w = {| tokenCache := ∅; networksData := Some [];
                                fetchPromise := Some Fulfilled; requests := 1 |}).
  { rewrite Hreg. destruct r; try reflexivity. discriminate Hfail. }
  rewrite Hans, Hst. simpl.
  repeat split; auto.
  - unfold answer. simpl. rewrite resolveToken_empty.
    f_equal. apply map_ext. intros c. rewrite resolveToken_empty. reflexivity.
  - intros name v chain ctx json Hjson.
    apply (formatValueEnhanced_returns _ name v chain ctx json Hjson).
Qed.

End FailureClaims.

(** [fetch_failure_is_absorbed] at a run of three callers, a rejected fetch,
    and a later caller followed by a stray successful response. *)
Lemma fetch_failure_is_absorbed_witness :
  let c a := {| Registry.callAddress := a; Registry.callChain := Some "1" |} in
  let w := Registry.run (H := Sample.host) Registry.start
             (Registry.Resolve (c Sample.tokenA)
              :: map Registry.Resolve [c Registry.nativeAddress; c Sample.tokenB]
              ++ Registry.RequestEnds Registry.FetchRejected
              :: [Registry.Resolve (c Sample.tokenC);
                  Registry.RequestEnds (Registry.Payload Sample.payload)]) in
  failed Registry.FetchRejected = true
  /\ Registry.requests (Registry.registry w) = 1%nat
  /\ Registry.answered w =
       [(c Sample.tokenA, Ok None); (c Registry.nativeAddress, Ok (Some Registry.nativeToken));
        (c Sample.tokenB, Ok None); (c Sample.tokenC, Ok None)].
Proof.
  intros c w.
  destruct (fetch_failure_is_absorbed (H := Sample.host) (c Sample.tokenA)
              [c Registry.nativeAddress; c Sample.tokenB] Registry.FetchRejected
              [Registry.Resolve (c Sample.tokenC);
               Registry.RequestEnds (Registry.Payload Sample.payload)] eq_refl)
    as (_ & _ & _ & Hreq & _ & Hans & _).
  split; [reflexivity |]. split; [exact Hreq | exact Hans].
Defined.

(** ** The raw component *)

Lemma JSON_stringify_defined v json :
  v <> VUndefined -> Js.JSON_stringify v = Ok json -> exists t, json = Some t.
Proof.
  intros Hv. unfold Js.JSON_stringify.
  destruct v as [| | b | n | n | s | items | fields]; simpl; intros Hj;
    try (inversion Hj; eauto; fail); try contradiction.
  - match type of Hj with (?m ≫= _) = _ => destruct m end; inversion Hj; eauto.
  - match type of Hj with (?m ≫= _) = _ => destruct m end; inversion Hj; eauto.
Qed.

Section RawClaims.
Context `{Host}.
Import JsString Js Formatter.

(** C3 (as amended): [raw] is a function of the input value alone.  It is
    the same under any two states of the registry, error-recovery path
    included; the call returns whenever the serialisation of its first line
    does; and what it returns as [raw] is the JSON text of the value, except
    for a string, which is given bare (without quotes or escapes), and for
    [undefined], which is given as ["null"]. *)
Theorem raw_depends_on_input_only name v chain ctx :
  (forall cache1 cache2,
      rawOutcome (formatValueEnhanced cache1 name v chain ctx)
      = rawOutcome (formatValueEnhanced cache2 name v chain ctx))
  /\ (forall cache json,
        JSON_stringify v = Ok json ->
        exists r, formatValueEnhanced cache name v chain ctx = Ok r)
  /\ (forall cache r,
        formatValueEnhanced cache name v chain ctx = Ok r ->
        match v with
        | VUndefined => raw r = "null"
        | VStr s => raw r = s
        | _ => JSON_stringify v = Ok (Some (raw r))
        end).
Proof.
  split; [| split].
  - intros cache1 cache2. rewrite !rawOutcome_formatValueEnhanced. reflexivity.
  - intros cache json. apply formatValueEnhanced_returns.
  - intros cache r Hr.
    pose proof (rawOutcome_formatValueEnhanced cache name v chain ctx) as Hraw.
    rewrite Hr in Hraw. unfold rawOutcome, rawOf in Hraw.
    cbn [mbind outcome_bind bindO] in Hraw.
    destruct (JSON_stringify v) as [json | e] eqn:Hjson; [| discriminate Hraw].
    cbn [mbind outcome_bind bindO] in Hraw. inversion Hraw as [Heq].
    destruct v as [| | b | n | n | s | items | fields];
      try exact Heq;
      match type of Hjson with
      | JSON_stringify ?v = _ =>
          assert (Hv : v <> VUndefined) by discriminate;
          destruct (JSON_stringify_defined v json Hv Hjson) as [t ->]
      end;
      simpl in Heq; rewrite Heq; reflexivity.
Qed.

End RawClaims.

(** [raw_depends_on_input_only] on the error-recovery path: a fee-tier hop
    whose input token is a number cannot be abbreviated, the display
    degrades to the error text, and [raw] is still the JSON text. *)
Lemma raw_depends_on_input_only_witness :
  let v := VArr [VObj [("tokenIn", VNum 5); ("tokenOut", VStr Sample.tokenB)]] in
  exists r,
    Formatter.formatValueEnhanced (H := Sample.host) ∅ (VStr "path") v None VUndefined = Ok r
    /\ formatted r = "Error formatting value"
    /\ Js.JSON_stringify v = Ok (Some (raw r)).
Proof.
  intros v.
  exists {| formatted := "Error formatting value";
            raw := Formatter.rawText (match Js.JSON_stringify v with
                                      | Ok j => j
                                      | Throw _ => None
                                      end) |}.
  assert (Hr : Formatter.formatValueEnhanced (H := Sample.host) ∅ (VStr "path") v None VUndefined
               = Ok {| formatted := "Error formatting value";
                       raw := Formatter.rawText (match Js.JSON_stringify v with
                                                 | Ok j => j
                                                 | Throw _ => None
                                                 end) |})
    by (vm_compute; reflexivity).
  split; [exact Hr |]. split; [reflexivity |].
  destruct (raw_depends_on_input_only (H := Sample.host) (VStr "path") v None VUndefined)
    as (_ & _ & Hraw).
  exact (Hraw ∅ _ Hr).
Defined.

(** C3 as stated fails on strings: the formatter returns a string as its
    own [raw], which is not its JSON text, so that the string ["null"] and
    the value [null] have the same [raw]. *)
Lemma raw_of_string_is_not_json :
  ~ (forall cache name v chain ctx r,
        Formatter.formatValueEnhanced (H := Sample.host) cache name v chain ctx = Ok r ->
        Js.JSON_stringify v = Ok (Some (raw r)))
  /\ rawOutcome (Formatter.formatValueEnhanced (H := Sample.host) ∅ (VStr "x")
                   (VStr "null") None VUndefined)
     = rawOutcome (Formatter.formatValueEnhanced (H := Sample.host) ∅ (VStr "x")
                   VNull None VUndefined).
Proof.
  split; [| reflexivity].
  intros Hclaim.
  specialize (Hclaim ∅ (VStr "x") (VStr "null") None VUndefined
                {| formatted := "null"; raw := "null" |} eq_refl).
  vm_compute in Hclaim. discriminate Hclaim.
Qed.

(** ** The full-balance sentinel *)
Section SentinelClaims.
Context `{Host}.
Variable cache : gmap string TokenInfo.
Import JsString Js Formatter.

(** C1 (as amended): a big-number-like record whose effective hex field
    ([hex], or [_hex] when [hex] is missing or empty) is the sentinel
    renders as the fixed marker, in the amount formatter and at the top
    level, under every context; the bare sentinel string renders as the
    marker in the amount formatter, which is where the amount fields of a
    swap descriptor go; at the top level the bare string is returned as it
    is.  In none of these cases is the value scaled. *)
Theorem sentinel_renders_marker :
  (forall amount tokenAddress chainId,
      amount = VStr CONTRACT_BALANCE \/ isSentinelRecord amount = true ->
      formatTokenAmount cache amount tokenAddress chainId = Ok CONTRACT_BALANCE_TEXT)
  /\ (forall name v chainId contextToken json,
        isSentinelRecord v = true ->
        JSON_stringify v = Ok json ->
        formatValueEnhanced cache name v chainId contextToken
        = Ok {| formatted := CONTRACT_BALANCE_TEXT; raw := rawText json |})
  /\ (forall name chainId contextToken,
        formatValueEnhanced cache name (VStr CONTRACT_BALANCE) chainId contextToken
        = Ok {| formatted := CONTRACT_BALANCE; raw := CONTRACT_BALANCE |}).
Proof.
  assert (Hamount : forall amount tokenAddress chainId,
             isSentinelRecord amount = true ->
             formatTokenAmount cache amount tokenAddress chainId = Ok CONTRACT_BALANCE_TEXT).
  { intros amount tokenAddress chainId Hs. unfold formatTokenAmount.
    unfold isSentinelRecord in Hs. rewrite Hs. reflexivity. }
  split; [| split].
  - intros amount tokenAddress chainId [-> | Hs]; [reflexivity | auto].
  - intros name v chainId contextToken json Hs Hjson.
    rewrite formatValueEnhanced_eq, Hjson. cbn [mbind outcome_bind bindO].
    assert (Hbn : isBigNumberLike v = true).
    { unfold isSentinelRecord in Hs. apply andb_prop in Hs. tauto. }
    unfold formatBody. rewrite Hbn, (Hamount v contextToken chainId Hs).
    destruct v; try discriminate Hbn; reflexivity.
  - intros name chainId contextToken. reflexivity.
Qed.

End SentinelClaims.

(** [sentinel_renders_marker] at the two record shapes of a big number, the
    serialised one and the legacy one. *)
Lemma sentinel_renders_marker_witness :
  let bn := VObj [("type", VStr "BigNumber"); ("hex", VStr Formatter.CONTRACT_BALANCE)] in
  let legacy := VObj [("_hex", VStr Formatter.CONTRACT_BALANCE); ("_isBigNumber", VBool true)] in
  Formatter.formatTokenAmount (H := Sample.host) Sample.cache bn (VStr Sample.tokenA) (Some "1")
    = Ok Formatter.CONTRACT_BALANCE_TEXT
  /\ (exists rawText,
        Formatter.formatValueEnhanced (H := Sample.host) Sample.cache (VStr "amountIn")
          legacy (Some "1") (VStr Sample.tokenA)
        = Ok {| formatted := Formatter.CONTRACT_BALANCE_TEXT; raw := rawText |}).
Proof.
  intros bn legacy.
  destruct (sentinel_renders_marker (H := Sample.host) Sample.cache) as (Hamount & Htop & _).
  split.
  - apply Hamount. right. reflexivity.
  - eexists. apply Htop; reflexivity.
Defined.

(** C1 as stated fails: at the top level the bare sentinel string is not
    given the marker but returned as it is; and a record whose [_hex] is
    the sentinel while its [hex] holds another number is scaled. *)
Lemma bare_sentinel_string_is_not_marked :
  (exists r,
      Formatter.formatValueEnhanced (H := Sample.host) Sample.cache (VStr "amountIn")
        (VStr Formatter.CONTRACT_BALANCE) (Some "1") VUndefined = Ok r
      /\ formatted r <> Formatter.CONTRACT_BALANCE_TEXT)
  /\ Formatter.formatTokenAmount (H := Sample.host) Sample.cache
       (VObj [("hex", VStr "0x01"); ("_hex", VStr Formatter.CONTRACT_BALANCE)])
       VUndefined (Some "1")
     = Ok "0.000000000000000001 tokens".
Proof.
  split.
  - eexists. split; [reflexivity | discriminate].
  - vm_compute. reflexivity.
Qed.

(** ** Text *)

Lemma append_cons x (a b : string) : String x a +:+ b = String x (a +:+ b).
Proof. reflexivity. Qed.

Lemma append_assoc (a b c : string) : (a +:+ b) +:+ c = a +:+ (b +:+ c).
Proof.
  induction a as [| x a IH]; [reflexivity |].
  rewrite !append_cons, IH. reflexivity.
Qed.

Lemma append_nil_r (a : string) : a +:+ "" = a.
Proof.
  induction a as [| x a IH]; [reflexivity |].
  rewrite append_cons, IH. reflexivity.
Qed.

Lemma join_cons_concat sep x l :
  JsString.join sep (x :: l) = x +:+ concatText (map (fun y => sep +:+ y) l).
Proof.
  revert x. induction l as [| y l IH]; intros x.
  - simpl. rewrite append_nil_r. reflexivity.
  - change (JsString.join sep (x :: y :: l)) with (x +:+ sep +:+ JsString.join sep (y :: l)).
    rewrite IH. simpl. rewrite append_assoc. reflexivity.
Qed.

(** ** Fee-tier paths *)
Section PathClaims.
Context `{Host}.
Variable cache : gmap string TokenInfo.
Import JsString Js Formatter.

Lemma symbolOr_symbolOf chain address alt :
  symbolOf cache chain address <> "" ->
  symbolOr (Registry.resolveToken cache address (orUndefined chain)) alt
  = Ok (symbolOf cache chain address).
Proof.
  unfold symbolOf, symbolOr.
  destruct (Registry.resolveToken cache address (orUndefined chain)) as [info |];
    [| congruence].
  intros Hne. apply String.eqb_neq in Hne. rewrite Hne. reflexivity.
Qed.

Lemma feeNote_hop h :
  (fee h = 0 \/ exists p, percentText (VNum (fee h)) = Ok p) ->
  feeNote (hopValue h) = Ok (feeText (fee h)).
Proof.
  intros Hfee. unfold feeNote, feeText, hopValue. simpl.
  destruct (fee h =? 0) eqn:Hz; [reflexivity |].
  destruct Hfee as [Hfee | [p Hp]].
  - apply Z.eqb_neq in Hz. contradiction.
  - simpl. rewrite Hp. reflexivity.
Qed.

Lemma formatV3Hops_hops chain hops :
  Forall (hopResolves cache chain) hops ->
  formatV3Hops cache (map hopValue hops) chain
  = Ok (map (fun x => arrow +:+ feeText (fee x) +:+ " " +:+ symbolOf cache chain (tokenOut x))
            hops).
Proof.
  induction 1 as [| h hops [Hsym Hfee] _ IH]; [reflexivity |].
  simpl map. cbn [formatV3Hops].
  change (prop (hopValue h) "tokenOut") with (Ok (VStr (tokenOut h))).
  cbn [mbind outcome_bind bindO Registry.resolveTokenAny].
  rewrite (symbolOr_symbolOf _ _ _ Hsym). cbn [mbind outcome_bind bindO].
  rewrite (feeNote_hop h Hfee). cbn [mbind outcome_bind bindO].
  rewrite IH. reflexivity.
Qed.

Lemma forallb_isV3Hop hops : forallb isV3Hop (map hopValue hops) = true.
Proof. induction hops as [| h hops IH]; [reflexivity | simpl; exact IH]. Qed.

Lemma serialize_hops indent hops :
  exists parts,
    mapO (fun x => o ← serialize indent x; Ok (default "null" o)) (map hopValue hops)
    = Ok parts.
Proof.
  induction hops as [| h hops [parts IH]]; [eexists; reflexivity |].
  simpl map. cbn [mapO]. rewrite IH. eexists. reflexivity.
Qed.

Lemma JSON_stringify_hops hops :
  exists t, JSON_stringify (VArr (map hopValue hops)) = Ok (Some t).
Proof.
  unfold JSON_stringify. cbn [serialize].
  destruct (serialize_hops ("" +:+ "  ") hops) as [parts ->].
  eexists. reflexivity.
Qed.

(** C9 (as amended): a fee-tier path whose tokens resolve renders as the
    symbol of the first hop's input token followed, for every hop, by a
    space, the arrow, the fee as a percentage in parentheses after one more
    space (nothing when the fee is zero), a space and the symbol of the
    hop's output token. *)
Theorem fee_tier_path_rendering name chain ctx h hops :
  symbolOf cache chain (tokenIn h) <> "" ->
  Forall (hopResolves cache chain) (h :: hops) ->
  exists rawText,
    formatValueEnhanced cache name (VArr (map hopValue (h :: hops))) chain ctx
    = Ok {| formatted := feeTierText cache chain (h :: hops); raw := rawText |}.
Proof.
  intros Hfirst Hhops.
  destruct (JSON_stringify_hops (h :: hops)) as [t Ht].
  exists t. rewrite formatValueEnhanced_eq, Ht. cbn [mbind outcome_bind bindO].
  unfold formatBody.
  change (isBigNumberLike (VArr (map hopValue (h :: hops)))) with false. cbv iota.
  simpl map.
  change (forallb isNamedField (hopValue h :: map hopValue hops)) with false. cbv iota.
  unfold formatPathArray.
  change (forallb isAddressText (hopValue h :: map hopValue hops)) with false. cbv iota.
  change (hopValue h :: map hopValue hops) with (map hopValue (h :: hops)).
  rewrite forallb_isV3Hop.
  unfold formatV3Path. simpl map. cbv beta iota.
  change (prop (hopValue h) "tokenIn") with (Ok (VStr (tokenIn h))).
  cbn [mbind outcome_bind bindO Registry.resolveTokenAny].
  rewrite (symbolOr_symbolOf _ _ _ Hfirst). cbn [mbind outcome_bind bindO].
  change (hopValue h :: map hopValue hops) with (map hopValue (h :: hops)).
  rewrite (formatV3Hops_hops chain (h :: hops) Hhops). cbn [mbind outcome_bind bindO].
  rewrite join_cons_concat. unfold tryCatch, feeTierText, rawText. simpl default.
  rewrite map_map. reflexivity.
Qed.

End PathClaims.

(** [fee_tier_path_rendering] at the single hop from token A to token B with
    fee 3000 on network 1, where A is FOO and B is BAR. *)
Lemma fee_tier_path_rendering_witness :
  exists rawText,
    Formatter.formatValueEnhanced (H := Sample.host) Sample.cache (VStr "path")
      (VArr [VObj [("tokenIn", VStr Sample.tokenA); ("tokenOut", VStr Sample.tokenB);
                   ("fee", VNum 3000)]])
      (Some "1") VUndefined
    = Ok {| formatted := "FOO → (0.3%) BAR"; raw := rawText |}.
Proof.
  destruct (fee_tier_path_rendering (H := Sample.host) Sample.cache (VStr "path") (Some "1")
              VUndefined
              {| tokenIn := Sample.tokenA; tokenOut := Sample.tokenB; fee := 3000 |} [])
    as [rawText Hr].
  - vm_compute. discriminate.
  - constructor; [| constructor]. split.
    + vm_compute. discriminate.
    + right. eexists. reflexivity.
  - exists rawText. etransitivity; [exact Hr |]. vm_compute. reflexivity.
Defined.

(** C9 as stated fails on its own example: the code puts a space between
    the arrow and the parenthesis. *)
Lemma fee_tier_arrow_is_followed_by_a_space :
  exists r,
    Formatter.formatValueEnhanced (H := Sample.host) Sample.cache (VStr "path")
      (VArr [VObj [("tokenIn", VStr Sample.tokenA); ("tokenOut", VStr Sample.tokenB);
                   ("fee", VNum 3000)]])
      (Some "1") VUndefined = Ok r
    /\ formatted r = "FOO → (0.3%) BAR"
    /\ formatted r <> "FOO →(0.3%) BAR".
Proof.
  eexists. split; [vm_compute; reflexivity |]. split; [reflexivity | discriminate].
Qed.

(** ** Serialisation and native bigints *)

Section ValueInduction.
Variable P : Value -> Prop.
Hypothesis Hundefined : P VUndefined.
Hypothesis Hnull : P VNull.
Hypothesis Hbool : forall b, P (VBool b).
Hypothesis Hnum : forall n, P (VNum n).
Hypothesis Hbigint : forall n, P (VBigInt n).
Hypothesis Hstr : forall s, P (VStr s).
Hypothesis Harr : forall items, Forall P items -> P (VArr items).
Hypothesis Hobj : forall fields, Forall (fun kv => P (snd kv)) fields -> P (VObj fields).

Fixpoint Value_induction (v : Value) : P v :=
  match v with
  | VUndefined => Hundefined
  | VNull => Hnull
  | VBool b => Hbool b
  | VNum n => Hnum n
  | VBigInt n => Hbigint n
  | VStr s => Hstr s
  | VArr items =>
      Harr items
        ((fix all (l : list Value) : Forall P l :=
            match l with
            | [] => List.Forall_nil P
            | x :: l' => List.Forall_cons P x l' (Value_induction x) (all l')
            end) items)
  | VObj fields =>
      Hobj fields
        ((fix all (l : list (string * Value)) : Forall (fun kv => P (snd kv)) l :=
            match l with
            | [] => List.Forall_nil _
            | kv :: l' => List.Forall_cons _ kv l' (Value_induction (snd kv)) (all l')
            end) fields)
  end.
End ValueInduction.

Lemma mapO_ok {A B} (f : A -> Outcome B) l :
  Forall (fun x => exists y, f x = Ok y) l -> exists ys, mapO f l = Ok ys.
Proof.
  induction 1 as [| x l [y Hy] _ [ys IH]]; [eexists; reflexivity |].
  simpl. rewrite Hy. simpl. rewrite IH. eexists. reflexivity.
Qed.

Lemma mapO_map {A B} (f : A -> Outcome B) (g : A -> B) l :
  Forall (fun x => f x = Ok (g x)) l -> mapO f l = Ok (map g l).
Proof.
  induction 1 as [| x l Hx _ IH]; [reflexivity |].
  simpl. rewrite Hx. simpl. rewrite IH. reflexivity.
Qed.

(** A value without a native bigint serialises, at any indentation. *)
Lemma serialize_ok v : forall indent,
  hasBigInt v = false -> exists o, Js.serialize indent v = Ok o.
Proof.
  induction v as [| | b | n | n | s | items IH | fields IH] using Value_induction;
    intros indent Hv; try (eexists; reflexivity); try discriminate Hv.
  - cbn [Js.serialize].
    assert (Hparts : exists parts,
               mapO (fun x => o ← Js.serialize (indent +:+ "  ") x; Ok (default "null" o)) items
               = Ok parts).
    { apply mapO_ok. simpl in Hv. induction IH as [| x l Hx _ IHl]; constructor.
      - simpl in Hv. apply orb_false_elim in Hv as [Hxb _].
        destruct (Hx (indent +:+ "  ") Hxb) as [o ->]. eexists. reflexivity.
      - apply IHl. simpl in Hv. apply orb_false_elim in Hv. tauto. }
    destruct Hparts as [parts ->]. eexists. reflexivity.
  - cbn [Js.serialize].
    assert (Hparts : exists parts,
               mapO (fun kx => o ← Js.serialize (indent +:+ "  ") (snd kx);
                               Ok (option_map (Js.member (fst kx)) o)) fields
               = Ok parts).
    { apply mapO_ok. simpl in Hv. induction IH as [| x l Hx _ IHl]; constructor.
      - simpl in Hv. apply orb_false_elim in Hv as [Hxb _].
        destruct (Hx (indent +:+ "  ") Hxb) as [o ->]. eexists. reflexivity.
      - apply IHl. simpl in Hv. apply orb_false_elim in Hv. tauto. }
    destruct Hparts as [parts ->]. eexists. reflexivity.
Qed.

Lemma JSON_stringify_ok v :
  hasBigInt v = false -> exists json, Js.JSON_stringify v = Ok json.
Proof. apply serialize_ok. Qed.

Lemma getField_hasBigInt k fields :
  existsb (fun kv => hasBigInt (snd kv)) fields = false ->
  hasBigInt (Js.getField k fields) = false.
Proof.
  induction fields as [| [k' v] rest IH]; [reflexivity |].
  simpl. intros Hf. apply orb_false_elim in Hf as [Hv Hrest].
  destruct (String.eqb k k'); auto.
Qed.

(** ** Lists of named fields *)
Section NamedFieldClaims.
Context `{Host}.
Variable cache : gmap string TokenInfo.
Import JsString Js Formatter.

Lemma namedFieldLine_text chain item :
  isNamedField item = true ->
  hasBigInt item = false ->
  (exists r, formatValueEnhanced cache (get item "name") (get item "value") chain VUndefined
             = Ok r)
  /\ namedFieldLine (formatValueEnhanced cache) chain item
     = Ok (namedFieldText cache chain item).
Proof.
  intros Hnamed Hbig.
  destruct item as [| | b | n | n | s | items | fields]; try discriminate Hnamed.
  simpl in Hbig.
  pose proof (getField_hasBigInt "value" fields Hbig) as Hvalue.
  destruct (JSON_stringify_ok _ Hvalue) as [json Hjson].
  destruct (formatValueEnhanced_returns cache (getField "name" fields)
              (getField "value" fields) chain VUndefined json Hjson) as [r Hr].
  split; [exists r; exact Hr |].
  unfold namedFieldLine, namedFieldText, prop, get.
  cbn [mbind outcome_bind bindO]. rewrite Hr. reflexivity.
Qed.

(** A non-empty array of named fields that holds no native bigint is
    rendered as a list of named fields: one line per element, each the name,
    a colon, and the element's value formatted recursively; the path shapes
    and the opaque summary are not considered. *)
Lemma named_field_list name items chain ctx :
  items <> [] ->
  forallb isNamedField items = true ->
  hasBigInt (VArr items) = false ->
  Forall (fun item =>
            exists r, formatValueEnhanced cache (get item "name") (get item "value")
                        chain VUndefined = Ok r) items
  /\ exists rawText,
       JSON_stringify (VArr items) = Ok (Some rawText)
       /\ formatValueEnhanced cache name (VArr items) chain ctx
          = Ok {| formatted := join nl (map (namedFieldText cache chain) items);
                  raw := rawText |}.
Proof.
  intros Hne Hnamed Hbig.
  assert (Hitems : Forall (fun item => isNamedField item = true /\ hasBigInt item = false)
                     items).
  { clear Hne. simpl in Hbig. induction items as [| item rest IH]; constructor.
    - simpl in Hnamed, Hbig. apply andb_prop in Hnamed. apply orb_false_elim in Hbig. tauto.
    - simpl in Hnamed, Hbig. apply andb_prop in Hnamed. apply orb_false_elim in Hbig.
      apply IH; tauto. }
  split.
  - eapply Forall_impl; [exact Hitems |]. intros item [Hn Hb].
    apply (namedFieldLine_text chain item Hn Hb).
  - destruct (JSON_stringify_ok _ Hbig) as [json Hjson].
    assert (Hdef : VArr items <> VUndefined) by discriminate.
    destruct (JSON_stringify_defined _ json Hdef Hjson) as [t ->].
    exists t. split; [exact Hjson |].
    rewrite formatValueEnhanced_eq, Hjson. cbn [mbind outcome_bind bindO].
    unfold formatBody.
    change (isBigNumberLike (VArr items)) with false. cbv iota.
    destruct items as [| item rest]; [contradiction |].
    rewrite Hnamed.
    rewrite (mapO_map _ (namedFieldText cache chain)); [reflexivity |].
    eapply Forall_impl; [exact Hitems |]. intros x [Hn Hb].
    apply (namedFieldLine_text chain x Hn Hb).
Qed.

End NamedFieldClaims.

(** ** Swap descriptors *)
Section SwapFacts.
Context `{Host}.
Variable cache : gmap string TokenInfo.
Import JsString Js Formatter.

(** Without a token address the amount is scaled by 18 decimals, whatever
    falsy value stands for the address. *)
Lemma scaleAmount_falsy v token chain :
  truthy token = false ->
  scaleAmount cache v token chain
  = (formatted ← formatUnitsOf v 18; Ok (formatted +:+ " tokens")).
Proof. intros Hf. unfold scaleAmount. rewrite Hf. reflexivity. Qed.

Lemma formatTokenAmount_falsy amount t1 t2 chain :
  truthy t1 = false -> truthy t2 = false ->
  formatTokenAmount cache amount t1 chain = formatTokenAmount cache amount t2 chain.
Proof.
  intros H1 H2. unfold formatTokenAmount.
  destruct (isBigNumberLike amount
            && isStr (or_else (get amount "hex") (get amount "_hex")) CONTRACT_BALANCE);
    [reflexivity |].
  destruct (isBigNumberLike amount).
  - destruct (bigNumberToBigInt amount) as [n | e]; [| reflexivity].
    cbn [mbind outcome_bind bindO].
    rewrite (scaleAmount_falsy _ t1 chain H1), (scaleAmount_falsy _ t2 chain H2).
    reflexivity.
  - destruct amount as [| | b | n | n | s | items | fields];
      rewrite ?(scaleAmount_falsy _ t1 chain H1), ?(scaleAmount_falsy _ t2 chain H2);
      try reflexivity.
    destruct (String.eqb s CONTRACT_BALANCE); [reflexivity |].
    destruct (stringToBigInt s) as [n | e]; [| reflexivity].
    rewrite (scaleAmount_falsy _ t1 chain H1), (scaleAmount_falsy _ t2 chain H2).
    reflexivity.
Qed.

Lemma amountLine_output_token label amount obj implied chain :
  amountLine cache label amount
    (or_else (if truthy (get obj "currencyOut") then get obj "currencyOut" else implied)
             (get obj "currencyOut")) chain
  = amountLine cache label amount (outputCurrency obj implied) chain.
Proof.
  unfold outputCurrency, or_else.
  destruct (truthy (get obj "currencyOut")) eqn:Hout.
  - rewrite Hout. reflexivity.
  - destruct (truthy implied) eqn:Himplied; [reflexivity |].
    unfold amountLine. destruct (truthy amount); [| reflexivity].
    rewrite (formatTokenAmount_falsy amount (get obj "currencyOut") implied chain Hout Himplied).
    reflexivity.
Qed.

Lemma swapParts_output_currency obj chain :
  swapParts cache obj chain =
  (implied ← firstHopCurrency obj;
   fromLine ← currencyLines cache "From: " (get obj "currencyIn") chain;
   toLine ← currencyLines cache "To: " (get obj "currencyOut") chain;
   amountIn ← amountLine cache "Amount In: " (get obj "amountIn") (get obj "currencyIn") chain;
   amountOut ← amountLine cache "Amount Out: " (get obj "amountOut")
                 (outputCurrency obj implied) chain;
   minOut ← amountLine cache "Min Out: " (get obj "amountOutMinimum")
              (outputCurrency obj implied) chain;
   pathLine ← pathLines cache obj chain;
   Ok (fromLine ++ toLine ++ amountIn ++ amountOut ++ minOut ++ pathLine)).
Proof.
  unfold swapParts.
  destruct (firstHopCurrency obj) as [implied | e]; [| reflexivity].
  cbn [mbind outcome_bind bindO].
  rewrite !amountLine_output_token. reflexivity.
Qed.

End SwapFacts.

(** ** Digits *)
Section Digits.
Import JsString.
Local Open Scope N_scope.

Lemma rawDigit_digitChar d : d < 16 -> rawDigit (digitChar d) = Some d.
Proof.
  intros Hd.
  assert (Hcases : d = 0 \/ d = 1 \/ d = 2 \/ d = 3 \/ d = 4 \/ d = 5 \/ d = 6 \/ d = 7
                   \/ d = 8 \/ d = 9 \/ d = 10 \/ d = 11 \/ d = 12 \/ d = 13 \/ d = 14
                   \/ d = 15) by lia.
  repeat (destruct Hcases as [-> | Hcases]; [reflexivity |]). subst d. reflexivity.
Qed.

Lemma digitVal_digitChar radix d :
  radix <= 16 -> d < radix -> digitVal radix (digitChar d) = Some d.
Proof.
  intros Hr Hd. unfold digitVal. rewrite rawDigit_digitChar by lia.
  apply N.ltb_lt in Hd. rewrite Hd. reflexivity.
Qed.

Variable radix : N.
Hypothesis radix_ge : 2 <= radix.
Hypothesis radix_le : radix <= 16.

Lemma digitsFuel_acc fuel : forall n acc,
  digitsFuel fuel radix n acc = digitsFuel fuel radix n [] ++ acc.
Proof.
  induction fuel as [| fuel IH]; intros n acc; [reflexivity |].
  cbn [digitsFuel]. destruct (n / radix =? 0).
  - reflexivity.
  - rewrite (IH _ (_ :: acc)), (IH _ [_]), <- app_assoc. reflexivity.
Qed.

Lemma digitsFuel_enough fuel : forall fuel' n acc,
  n < radix ^ N.of_nat fuel -> n < radix ^ N.of_nat fuel' ->
  digitsFuel (S fuel) radix n acc = digitsFuel (S fuel') radix n acc.
Proof.
  induction fuel as [| fuel IH]; intros fuel' n acc Hn Hn'.
  - simpl in Hn. assert (n = 0) by lia. subst n.
    cbn [digitsFuel]. rewrite N.div_small by lia. reflexivity.
  - cbn [digitsFuel]. destruct (n / radix =? 0) eqn:Hq; [reflexivity |].
    apply N.eqb_neq in Hq.
    destruct fuel' as [| fuel'].
    + simpl in Hn'. assert (n = 0) by lia. subst n. rewrite N.div_small in Hq by lia.
      contradiction.
    + apply IH.
      * apply N.Div0.div_lt_upper_bound.
        rewrite Nat2N.inj_succ, N.pow_succ_r' in Hn. exact Hn.
      * apply N.Div0.div_lt_upper_bound.
        rewrite Nat2N.inj_succ, N.pow_succ_r' in Hn'. exact Hn'.
Qed.

Lemma size_bound n : n < radix ^ N.of_nat (N.to_nat (N.size n)).
Proof.
  rewrite N2Nat.id.
  apply N.lt_le_trans with (2 ^ N.size n); [apply N.size_gt |].
  apply N.pow_le_mono_l. lia.
Qed.

(** One step of [toString]: the last digit, after the digits of the
    quotient. *)
Lemma digits_step n :
  digits radix n =
  if n / radix =? 0 then [digitChar (n mod radix)]
  else digits radix (n / radix) ++ [digitChar (n mod radix)].
Proof.
  unfold digits. cbn [digitsFuel].
  destruct (n / radix =? 0) eqn:Hq; [reflexivity |].
  apply N.eqb_neq in Hq.
  rewrite digitsFuel_acc. f_equal.
  pose proof (size_bound n) as Hn.
  destruct (N.to_nat (N.size n)) as [| fuel] eqn:Hfuel.
  - simpl in Hn. assert (n = 0) by lia. subst n. rewrite N.div_small in Hq by lia.
    contradiction.
  - apply digitsFuel_enough.
    + apply N.Div0.div_lt_upper_bound.
      rewrite Nat2N.inj_succ, N.pow_succ_r' in Hn. exact Hn.
    + apply size_bound.
Qed.

Lemma digits_small n : n < radix -> digits radix n = [digitChar n].
Proof.
  intros Hn. rewrite digits_step, N.div_small, N.mod_small by lia. reflexivity.
Qed.

Lemma digits_large n :
  radix <= n -> digits radix n = digits radix (n / radix) ++ [digitChar (n mod radix)].
Proof.
  intros Hn. rewrite digits_step.
  destruct (n / radix =? 0) eqn:Hq; [| reflexivity].
  apply N.eqb_eq in Hq. apply N.div_small_iff in Hq; lia.
Qed.

(** Strong induction along [digits_step]. *)
Lemma digits_ind (P : N -> Prop) :
  (forall n, n < radix -> P n) ->
  (forall n, radix <= n -> P (n / radix) -> P n) ->
  forall n, P n.
Proof.
  intros Hsmall Hlarge n.
  induction n as [n IH] using (well_founded_induction N.lt_wf_0).
  destruct (N.lt_ge_cases n radix) as [Hn | Hn]; [apply Hsmall; exact Hn |].
  apply Hlarge; [exact Hn |]. apply IH. apply N.div_lt; lia.
Qed.

Lemma parseDigitsAcc_app l1 l2 acc :
  parseDigitsAcc radix (l1 ++ l2) acc =
  match parseDigitsAcc radix l1 acc with
  | Some acc' => parseDigitsAcc radix l2 acc'
  | None => None
  end.
Proof.
  revert acc. induction l1 as [| c l1 IH]; intros acc; [reflexivity |].
  simpl. destruct (digitVal radix c); [apply IH | reflexivity].
Qed.

Lemma digits_nonempty n : digits radix n <> [].
Proof.
  rewrite digits_step. destruct (n / radix =? 0); [discriminate |].
  intros Hnil. apply app_eq_nil in Hnil as [_ Hnil]. discriminate Hnil.
Qed.

(** Reading back the digits of [n] gives [n]. *)
Lemma parseDigitsAcc_digits n : forall acc,
  parseDigitsAcc radix (digits radix n) acc
  = Some (acc * radix ^ N.of_nat (length (digits radix n)) + n).
Proof.
  induction n as [n Hn | n Hn IH] using digits_ind; intros acc.
  - rewrite digits_small by exact Hn. simpl.
    rewrite digitVal_digitChar by lia. f_equal. lia.
  - rewrite digits_large by exact Hn.
    rewrite parseDigitsAcc_app, IH. simpl.
    rewrite digitVal_digitChar by (try lia; apply N.mod_lt; lia).
    f_equal. rewrite length_app. simpl length.
    rewrite Nat2N.inj_add, N.pow_add_r. simpl N.of_nat. rewrite N.pow_1_r.
    pose proof (N.div_mod n radix ltac:(lia)). nia.
Qed.

Lemma parseDigits_digits n : parseDigits radix (digits radix n) = Some n.
Proof.
  unfold parseDigits. pose proof (digits_nonempty n) as Hne.
  destruct (digits radix n) eqn:Hd; [contradiction |].
  rewrite <- Hd, parseDigitsAcc_digits. f_equal; lia.
Qed.

Lemma digits_rawDigit n :
  Forall (fun c => exists d, d < radix /\ c = digitChar d) (digits radix n).
Proof.
  induction n as [n Hn | n Hn IH] using digits_ind.
  - rewrite digits_small by exact Hn.
    constructor; [| constructor]. exists n. split; [exact Hn | reflexivity].
  - rewrite digits_large by exact Hn. apply Forall_app. split; [exact IH |].
    constructor; [| constructor].
    exists (n mod radix). split; [apply N.mod_lt; lia | reflexivity].
Qed.

End Digits.

(** ** Reading numbers back *)
Section RoundTrip.
Import JsString.

Lemma chars_text l : chars (text l) = l.
Proof. apply list_ascii_of_string_of_list_ascii. Qed.

Lemma text_chars s : text (chars s) = s.
Proof. apply string_of_list_ascii_of_string. Qed.

Lemma chars_append a b : chars (a +:+ b) = chars a ++ chars b.
Proof.
  induction a as [| x a IH]; [reflexivity |].
  rewrite append_cons. simpl. f_equal. exact IH.
Qed.

Lemma text_app l1 l2 : text (l1 ++ l2) = text l1 +:+ text l2.
Proof.
  induction l1 as [| x l1 IH]; [reflexivity |].
  simpl. rewrite append_cons. f_equal. exact IH.
Qed.

(** A digit character is neither white space nor a sign. *)
Lemma digitChar_plain d :
  (d < 16)%N ->
  isWhiteSpace (digitChar d) = false
  /\ Ascii.eqb (digitChar d) "-" = false /\ Ascii.eqb (digitChar d) "+" = false.
Proof.
  intros Hd.
  assert (Hcases : (d = 0 \/ d = 1 \/ d = 2 \/ d = 3 \/ d = 4 \/ d = 5 \/ d = 6 \/ d = 7
                    \/ d = 8 \/ d = 9 \/ d = 10 \/ d = 11 \/ d = 12 \/ d = 13 \/ d = 14
                    \/ d = 15)%N) by lia.
  repeat (destruct Hcases as [-> | Hcases]; [repeat split; reflexivity |]).
  subst d. repeat split; reflexivity.
Qed.

Lemma digitChar_decimal d :
  (d < 10)%N ->
  isDecimalDigit (digitChar d) = true /\ (code (digitChar d) - 48 = d)%N.
Proof.
  intros Hd.
  assert (Hcases : (d = 0 \/ d = 1 \/ d = 2 \/ d = 3 \/ d = 4 \/ d = 5 \/ d = 6 \/ d = 7
                    \/ d = 8 \/ d = 9)%N) by lia.
  repeat (destruct Hcases as [-> | Hcases]; [split; reflexivity |]).
  subst d. split; reflexivity.
Qed.

Lemma trimStart_plain c l : isWhiteSpace c = false -> trimStart (c :: l) = c :: l.
Proof. intros Hc. simpl. rewrite Hc. reflexivity. Qed.

Lemma trim_plain l : Forall (fun c => isWhiteSpace c = false) l -> trim l = l.
Proof.
  intros Hl. unfold trim.
  assert (Hstart : forall k, Forall (fun c => isWhiteSpace c = false) k -> trimStart k = k).
  { intros k Hk. destruct Hk as [| c k Hc _]; [reflexivity | apply trimStart_plain, Hc]. }
  rewrite (Hstart l Hl), Hstart, rev_involutive; [reflexivity |].
  apply Forall_rev. exact Hl.
Qed.

Lemma digits_plain radix n :
  (2 <= radix)%N -> (radix <= 16)%N ->
  Forall (fun c => isWhiteSpace c = false
                   /\ Ascii.eqb c "-" = false /\ Ascii.eqb c "+" = false)
         (digits radix n).
Proof.
  intros Hge Hle. eapply Forall_impl; [apply (digits_rawDigit radix Hge Hle n) |].
  intros c (d & Hd & ->). apply digitChar_plain. lia.
Qed.

Lemma radixPrefix_decimal n : radixPrefix (digits 10 n) = None.
Proof.
  pose proof (digits_rawDigit 10 ltac:(lia) ltac:(lia) n) as Hd.
  destruct (digits 10 n) as [| c0 [| c1 ds]]; try reflexivity.
  apply Forall_cons_1 in Hd as [_ Hd]. apply Forall_cons_1 in Hd as [(d & Hlt & ->) _].
  unfold radixPrefix. destruct (Ascii.eqb c0 "0"); [| reflexivity].
  assert (Hcases : (d = 0 \/ d = 1 \/ d = 2 \/ d = 3 \/ d = 4 \/ d = 5 \/ d = 6 \/ d = 7
                    \/ d = 8 \/ d = 9)%N) by lia.
  repeat (destruct Hcases as [-> | Hcases]; [reflexivity |]). subst d. reflexivity.
Qed.

Lemma stringToBigInt_digits n :
  stringToBigInt (text (digits 10 n)) = Ok (Z.of_N n).
Proof.
  unfold stringToBigInt. rewrite chars_text.
  pose proof (digits_plain 10 n ltac:(lia) ltac:(lia)) as Hplain.
  rewrite trim_plain by (eapply Forall_impl; [exact Hplain |]; intros c Hc; apply Hc).
  pose proof (parseDigits_digits 10 ltac:(lia) ltac:(lia) n) as Hparse.
  pose proof (radixPrefix_decimal n) as Hprefix.
  destruct (digits 10 n) as [| c ds]; [discriminate Hparse |].
  rewrite Hprefix.
  apply Forall_cons_1 in Hplain as [(_ & Hminus & Hplus) _].
  rewrite Hminus, Hplus, Hparse. reflexivity.
Qed.

Lemma stringToBigInt_decimal z : stringToBigInt (decimal z) = Ok z.
Proof.
  unfold decimal. destruct (z <? 0) eqn:Hz.
  - apply Z.ltb_lt in Hz. unfold stringToBigInt.
    change (chars (String "-" (text (digits 10 (Z.to_N (- z))))))
      with ("-"%char :: chars (text (digits 10 (Z.to_N (- z))))).
    rewrite chars_text.
    pose proof (digits_plain 10 (Z.to_N (- z)) ltac:(lia) ltac:(lia)) as Hplain.
    rewrite trim_plain.
    + pose proof (parseDigits_digits 10 ltac:(lia) ltac:(lia) (Z.to_N (- z))) as Hparse.
      destruct (digits 10 (Z.to_N (- z))) as [| c ds]; [discriminate Hparse |].
      change (radixPrefix ("-"%char :: c :: ds)) with (@None (N * list ascii)).
      change (Ascii.eqb "-" "-") with true. cbv iota.
      rewrite Hparse. simpl. f_equal. lia.
    + constructor; [reflexivity |].
      eapply Forall_impl; [exact Hplain |]. intros c Hc. apply Hc.
  - apply Z.ltb_ge in Hz. rewrite stringToBigInt_digits. f_equal. lia.
Qed.

Lemma parseDigits_evenPad n : parseDigits 16 (evenPad (digits 16 n)) = Some n.
Proof.
  pose proof (parseDigits_digits 16 ltac:(lia) ltac:(lia) n) as Hparse.
  unfold evenPad. destruct (Nat.even (length (digits 16 n))); [exact Hparse |].
  destruct (digits 16 n) as [| c ds]; [discriminate Hparse |]. exact Hparse.
Qed.

Lemma stringToBigInt_hexText n : stringToBigInt (hexText n) = Ok (Z.of_N n).
Proof.
  unfold stringToBigInt, hexText.
  change (chars ("0x" +:+ text (evenPad (digits 16 n))))
    with ("0"%char :: "x"%char :: chars (text (evenPad (digits 16 n)))).
  rewrite chars_text, trim_plain.
  - change (radixPrefix ("0"%char :: "x"%char :: evenPad (digits 16 n)))
      with (Some (16%N, evenPad (digits 16 n))).
    cbv iota beta. rewrite parseDigits_evenPad. reflexivity.
  - constructor; [reflexivity |]. constructor; [reflexivity |].
    pose proof (digits_plain 16 n ltac:(lia) ltac:(lia)) as Hplain.
    unfold evenPad. destruct (Nat.even _); [| constructor; [reflexivity |]];
      (eapply Forall_impl; [exact Hplain |]; intros c Hc; apply Hc).
Qed.

End RoundTrip.

(** ** Scaling by a power of ten *)
Section Units.
Import JsString.
Local Open Scope N_scope.

Lemma lastDigits_length d : forall m, length (lastDigits d m) = d.
Proof.
  induction d as [| d IH]; intros m; [reflexivity |].
  simpl. rewrite length_app, IH. simpl. lia.
Qed.

Lemma lastDigits_zero d : lastDigits d 0 = repeat "0"%char d.
Proof.
  induction d as [| d IH]; [reflexivity |].
  cbn [lastDigits]. change (0 / 10) with 0. rewrite IH.
  change [digitChar (0 mod 10)] with (repeat "0"%char 1).
  rewrite <- repeat_app. f_equal. lia.
Qed.

Lemma digits10_small n : n < 10 -> digits 10 n = [digitChar n].
Proof. apply digits_small; lia. Qed.

Lemma digits10_large n :
  10 <= n -> digits 10 n = digits 10 (n / 10) ++ [digitChar (n mod 10)].
Proof. apply digits_large; lia. Qed.

(** The digits of [n] are those of the quotient by [10^d] followed by the
    last [d] digits. *)
Lemma digits_lastDigits d : forall n,
  10 ^ N.of_nat d <= n \/ d = 0%nat ->
  digits 10 n = digits 10 (n / 10 ^ N.of_nat d) ++ lastDigits d n.
Proof.
  induction d as [| d IH]; intros n Hn.
  - simpl. rewrite N.div_1_r, app_nil_r. reflexivity.
  - destruct Hn as [Hn | Hn]; [| discriminate Hn].
    rewrite Nat2N.inj_succ, N.pow_succ_r' in Hn.
    assert (H10 : 10 <= n).
    { pose proof (N.pow_nonzero 10 (N.of_nat d) ltac:(lia)). nia. }
    rewrite digits10_large by exact H10.
    rewrite (IH (n / 10)).
    + rewrite N.Div0.div_div, Nat2N.inj_succ, N.pow_succ_r', <- app_assoc. reflexivity.
    + left. apply N.div_le_lower_bound; lia.
Qed.

Lemma padStart0_lastDigits d : forall n,
  n < 10 ^ N.of_nat (S d) ->
  padStart0 (digits 10 n) (S d) = lastDigits (S d) n.
Proof.
  induction d as [| d IH]; intros n Hn.
  - change (10 ^ N.of_nat 1) with 10 in Hn.
    rewrite digits10_small by exact Hn. cbn [lastDigits].
    rewrite N.mod_small by exact Hn. reflexivity.
  - destruct (N.lt_ge_cases n 10) as [Hsmall | Hlarge].
    + rewrite digits10_small by exact Hsmall.
      cbn [lastDigits]. rewrite (N.div_small n 10) by exact Hsmall.
      change (0 / 10) with 0. rewrite (N.mod_small n 10) by exact Hsmall.
      pose proof (lastDigits_zero (S d)) as Hz. cbn [lastDigits] in Hz.
      change (0 / 10) with 0 in Hz. rewrite Hz. unfold padStart0. simpl length.
      replace (S (S d) - 1)%nat with (S d) by lia. reflexivity.
    + rewrite digits10_large by exact Hlarge.
      change (lastDigits (S (S d)) n)
        with (lastDigits (S d) (n / 10) ++ [digitChar (n mod 10)]).
      rewrite <- (IH (n / 10)).
      * unfold padStart0. rewrite length_app, <- app_assoc. simpl length.
        replace (S (S d) - (length (digits 10 (n / 10)) + 1))%nat
          with (S d - length (digits 10 (n / 10)))%nat by lia.
        rewrite app_assoc. reflexivity.
      * apply N.Div0.div_lt_upper_bound.
        rewrite (Nat2N.inj_succ (S d)), N.pow_succ_r' in Hn. exact Hn.
Qed.

(** [formatUnits] cuts the padded digits into the quotient and the last
    [d] digits of the remainder. *)
Lemma units_split n d :
  let padded := padStart0 (digits 10 n) d in
  let cut := (length padded - d)%nat in
  (match firstn cut padded with [] => digits 10 0 | l => l end)
    = digits 10 (n / 10 ^ N.of_nat d)
  /\ skipn cut padded = lastDigits d n.
Proof.
  intros padded cut.
  destruct (N.lt_ge_cases n (10 ^ N.of_nat d)) as [Hsmall | Hlarge].
  - destruct d as [| d].
    + simpl in Hsmall. assert (n = 0) by lia. subst n. split; reflexivity.
    + subst padded cut. rewrite padStart0_lastDigits by exact Hsmall.
      rewrite lastDigits_length, Nat.sub_diag, N.div_small by exact Hsmall.
      split; reflexivity.
  - pose proof (digits_lastDigits d n (or_introl Hlarge)) as Hd.
    assert (Hpad : padded = digits 10 n).
    { subst padded. unfold padStart0. rewrite Hd at 1. rewrite length_app, lastDigits_length.
      replace (d - (length (digits 10 (n / 10 ^ N.of_nat d)) + d))%nat with 0%nat by lia.
      reflexivity. }
    subst cut. rewrite Hpad, Hd, length_app, lastDigits_length.
    replace (length (digits 10 (n / 10 ^ N.of_nat d)) + d - d)%nat
      with (length (digits 10 (n / 10 ^ N.of_nat d))) by lia.
    rewrite firstn_app, firstn_all, Nat.sub_diag, skipn_app, skipn_all, Nat.sub_diag.
    simpl. rewrite app_nil_r.
    pose proof (digits_nonempty 10 ltac:(lia) ltac:(lia) (n / 10 ^ N.of_nat d)) as Hne.
    destruct (digits 10 (n / 10 ^ N.of_nat d)); [contradiction | split; reflexivity].
Qed.


Lemma text_length l : String.length (text l) = length l.
Proof. induction l as [| c l IH]; simpl; [reflexivity | rewrite IH; reflexivity]. Qed.

Lemma text_eqb_empty l :
  String.eqb (text l) "" = match l with [] => true | _ => false end.
Proof. destruct l; reflexivity. Qed.

Lemma decimal_of_N n : decimal (Z.of_N n) = text (digits 10 n).
Proof.
  unfold decimal. destruct (Z.of_N n <? 0)%Z eqn:Hn; [apply Z.ltb_lt in Hn; lia |].
  rewrite N2Z.id. reflexivity.
Qed.

Lemma startsWith_minus_digits n : startsWith "-" (text (digits 10 n)) = false.
Proof.
  pose proof (digits_plain 10 n ltac:(lia) ltac:(lia)) as Hplain.
  destruct (digits 10 n) as [| c ds]; [reflexivity |].
  apply Forall_cons_1 in Hplain as [(_ & Hminus & _) _].
  change (startsWith "-" (text (c :: ds))) with (if Ascii.eqb "-" c then true else false).
  rewrite Ascii.eqb_sym, Hminus. reflexivity.
Qed.

(** [formatUnits] on a non-negative integer: the quotient, then a point and
    the remainder without its trailing zeros, if any digit is left. *)
Lemma formatUnits_digits n d :
  Viem.formatUnits (text (digits 10 n)) d
  = text (digits 10 (n / 10 ^ N.of_nat d))
    +:+ match stripTrailingZeros (lastDigits d n) with
        | [] => ""
        | frac => "." +:+ text frac
        end.
Proof.
  unfold Viem.formatUnits. rewrite startsWith_minus_digits, chars_text.
  destruct (units_split n d) as [Hint Hfrac].
  cbv zeta in Hint, Hfrac. rewrite Hfrac, !text_eqb_empty.
  set (padded := padStart0 (digits 10 n) d) in *.
  replace (text (digits 10 (n / 10 ^ N.of_nat d)))
    with (if match firstn (length padded - d) padded with [] => true | _ => false end
          then "0" else text (firstn (length padded - d) padded)).
  - destruct (stripTrailingZeros (lastDigits d n)); reflexivity.
  - rewrite <- Hint. destruct (firstn (length padded - d) padded); reflexivity.
Qed.

Lemma decimalDigit_not_dot c : isDecimalDigit c = true -> Ascii.eqb c "." = false.
Proof.
  intros Hc. destruct (Ascii.eqb_spec c "."%char) as [-> | _]; [discriminate Hc | reflexivity].
Qed.

Lemma digits_decimal n : Forall (fun c => isDecimalDigit c = true) (digits 10 n).
Proof.
  eapply Forall_impl; [apply (digits_rawDigit 10 ltac:(lia) ltac:(lia) n) |].
  intros c (d & Hd & ->). apply digitChar_decimal. exact Hd.
Qed.

Lemma lastDigits_decimal d : forall m,
  Forall (fun c => isDecimalDigit c = true) (lastDigits d m).
Proof.
  induction d as [| d IH]; intros m; [constructor |].
  cbn [lastDigits]. apply Forall_app. split; [apply IH |].
  constructor; [| constructor]. apply digitChar_decimal. apply N.mod_lt. lia.
Qed.

Lemma splitDot_plain l : forall cur,
  Forall (fun c => isDecimalDigit c = true) l -> splitDot cur l = [rev cur ++ l].
Proof.
  induction l as [| c l IH]; intros cur Hl.
  - simpl. rewrite app_nil_r. reflexivity.
  - apply Forall_cons_1 in Hl as [Hc Hl]. simpl.
    rewrite (decimalDigit_not_dot c Hc), (IH _ Hl). simpl.
    rewrite <- app_assoc. reflexivity.
Qed.

Lemma splitDot_point l1 l2 : forall cur,
  Forall (fun c => isDecimalDigit c = true) l1 ->
  Forall (fun c => isDecimalDigit c = true) l2 ->
  splitDot cur (l1 ++ "."%char :: l2) = [rev cur ++ l1; l2].
Proof.
  induction l1 as [| c l1 IH]; intros cur H1 H2.
  - simpl. rewrite app_nil_r, (splitDot_plain l2 [] H2). reflexivity.
  - apply Forall_cons_1 in H1 as [Hc H1]. simpl.
    rewrite (decimalDigit_not_dot c Hc), (IH _ H1 H2). simpl.
    rewrite <- app_assoc. reflexivity.
Qed.

Lemma dropLeadingZeros_spec l :
  exists z, l = repeat "0"%char z ++ dropLeadingZeros l.
Proof.
  induction l as [| c l [z IH]]; [exists 0%nat; reflexivity |].
  simpl. destruct (Ascii.eqb_spec c "0"%char) as [-> | _].
  - exists (S z). simpl. f_equal. exact IH.
  - exists 0%nat. reflexivity.
Qed.

Lemma stripTrailingZeros_spec l :
  exists z, l = stripTrailingZeros l ++ repeat "0"%char z.
Proof.
  unfold stripTrailingZeros.
  destruct (dropLeadingZeros_spec (rev l)) as [z Hz].
  exists z. rewrite <- (rev_involutive l) at 1. rewrite Hz at 1.
  rewrite rev_app_distr. f_equal.
  clear. induction z as [| z IH]; [reflexivity |].
  simpl. rewrite IH. clear. induction z as [| z IH]; [reflexivity |].
  simpl. f_equal. exact IH.
Qed.

Lemma slice_first s k :
  slice s 0 (Some (Z.of_nat k)) = text (firstn k (chars s)).
Proof.
  unfold slice, sliceList, clampIndex. simpl.
  destruct (Z.of_nat k <? 0)%Z eqn:Hk; [apply Z.ltb_lt in Hk; lia |].
  change (Z.to_nat 0) with 0%nat. rewrite Nat.min_0_r, Nat2Z.id, Nat.sub_0_r.
  change (drop 0 (chars s)) with (chars s). f_equal.
  destruct (Nat.le_ge_cases (length (chars s)) k) as [Hle | Hge].
  - rewrite Nat.min_l by exact Hle. rewrite !firstn_all2 by lia. reflexivity.
  - rewrite Nat.min_r by exact Hge. reflexivity.
Qed.


(** *** The number a digit string denotes *)

Lemma numeral_text l :
  numeral (text l) = fold_left (fun acc c => acc * 10 + (code c - 48)) l 0.
Proof. unfold numeral. rewrite chars_text. reflexivity. Qed.

Lemma fold_numeral l : forall acc,
  fold_left (fun acc c => acc * 10 + (code c - 48)) l acc
  = acc * 10 ^ N.of_nat (length l)
    + fold_left (fun acc c => acc * 10 + (code c - 48)) l 0.
Proof.
  induction l as [| c l IH]; intros acc.
  - simpl. lia.
  - cbn [fold_left length]. rewrite (IH (acc * 10 + _)), (IH (0 * 10 + _)).
    rewrite Nat2N.inj_succ, N.pow_succ_r'. lia.
Qed.

Lemma numeral_app l1 l2 :
  numeral (text (l1 ++ l2))
  = numeral (text l1) * 10 ^ N.of_nat (length l2) + numeral (text l2).
Proof. rewrite !numeral_text, fold_left_app, fold_numeral. reflexivity. Qed.

Lemma numeral_zeros z : numeral (text (repeat "0"%char z)) = 0.
Proof.
  induction z as [| z IH]; [reflexivity |].
  change (repeat "0"%char (S z)) with (["0"%char] ++ repeat "0"%char z).
  rewrite numeral_app, IH. reflexivity.
Qed.

Lemma numeral_bound l :
  Forall (fun c => isDecimalDigit c = true) l ->
  numeral (text l) < 10 ^ N.of_nat (length l).
Proof.
  induction l as [| c l IH] using rev_ind; intros Hl; [reflexivity |].
  apply Forall_app in Hl as [Hl Hc]. apply Forall_cons_1 in Hc as [Hc _].
  rewrite numeral_app, length_app. simpl length.
  rewrite Nat2N.inj_add, N.pow_add_r. change (10 ^ N.of_nat 1) with 10.
  specialize (IH Hl).
  assert (Hd : numeral (text [c]) < 10).
  { rewrite numeral_text. cbn [fold_left]. unfold isDecimalDigit in Hc.
    apply andb_prop in Hc as [_ Hc]. apply N.leb_le in Hc. lia. }
  nia.
Qed.

Lemma numeral_lastDigits d : forall m,
  numeral (text (lastDigits d m)) = m mod 10 ^ N.of_nat d.
Proof.
  induction d as [| d IH]; intros m.
  - simpl. rewrite N.mod_1_r. reflexivity.
  - cbn [lastDigits]. rewrite numeral_app, IH. simpl length.
    rewrite numeral_text. simpl fold_left.
    destruct (digitChar_decimal (m mod 10)) as [_ ->]; [apply N.mod_lt; lia |].
    change (10 ^ N.of_nat 1) with 10. rewrite Nat2N.inj_succ, N.pow_succ_r'.
    rewrite N.Div0.mod_mul_r. lia.
Qed.

Lemma numeral_firstn l j :
  Forall (fun c => isDecimalDigit c = true) l ->
  (j <= length l)%nat ->
  numeral (text (firstn j l))
  = numeral (text l) / 10 ^ N.of_nat (length l - j).
Proof.
  intros Hl Hj.
  rewrite <- (firstn_skipn j l) at 2. rewrite numeral_app.
  assert (Hlen : length (skipn j l) = (length l - j)%nat) by apply length_skipn.
  rewrite Hlen.
  assert (Hb : numeral (text (skipn j l)) < 10 ^ N.of_nat (length l - j)).
  { rewrite <- Hlen. apply numeral_bound. apply Forall_drop. exact Hl. }
  rewrite N.div_add_l by (apply N.pow_nonzero; lia).
  rewrite (N.div_small _ _ Hb). lia.
Qed.

Lemma firstn_repeat_min {A} (x : A) z : forall j,
  firstn j (repeat x z) = repeat x (Nat.min j z).
Proof.
  induction z as [| z IH]; intros j.
  - rewrite Nat.min_0_r. destruct j; reflexivity.
  - destruct j; [reflexivity |]. simpl. f_equal. apply IH.
Qed.

(** What is shown after the point: at most six of the [d] digits of the
    remainder; completed with zeros they are its first [min 6 d] digits. *)
Lemma shown_fraction d m :
  let frac := firstn 6 (stripTrailingZeros (lastDigits d m)) in
  (length frac <= Nat.min 6 d)%nat
  /\ Forall (fun c => isDecimalDigit c = true) frac
  /\ numeral (text frac) * 10 ^ N.of_nat (Nat.min 6 d - length frac)
     = (m mod 10 ^ N.of_nat d) / 10 ^ N.of_nat (d - Nat.min 6 d).
Proof.
  intros frac.
  destruct (stripTrailingZeros_spec (lastDigits d m)) as [z Hz].
  set (S := stripTrailingZeros (lastDigits d m)) in *.
  pose proof (lastDigits_length d m) as Hlen.
  pose proof (lastDigits_decimal d m) as Hdec.
  rewrite Hz in Hlen, Hdec. rewrite length_app, repeat_length in Hlen.
  apply Forall_app in Hdec as [HS _].
  assert (Hfrac : Forall (fun c => isDecimalDigit c = true) frac)
    by (apply Forall_take; exact HS).
  assert (Hk : length frac = Nat.min 6 (length S)) by apply length_firstn.
  assert (Hcomplete : frac ++ repeat "0"%char (Nat.min 6 d - length frac)
                      = firstn (Nat.min 6 d) (lastDigits d m)).
  { rewrite Hz, firstn_app, firstn_repeat_min. subst frac.
    destruct (Nat.le_ge_cases 6 (length S)) as [Hge | Hlt].
    - rewrite Nat.min_l in Hk by exact Hge.
      replace (Nat.min 6 d) with 6%nat by lia.
      replace (Nat.min (6 - length S) z) with 0%nat by lia.
      rewrite Hk, Nat.sub_diag. reflexivity.
    - rewrite Nat.min_r in Hk by exact Hlt.
      rewrite (firstn_all2 S) by lia. rewrite (firstn_all2 S) in Hk by lia.
      rewrite (firstn_all2 (n := Nat.min 6 d) S) by lia.
      f_equal. f_equal. lia. }
  split; [lia |]. split; [exact Hfrac |].
  pose proof (f_equal (fun l => numeral (text l)) Hcomplete) as Hnum. cbv beta in Hnum.
  rewrite numeral_app, numeral_zeros, repeat_length, N.add_0_r in Hnum.
  rewrite Hnum, numeral_firstn.
  - rewrite numeral_lastDigits, lastDigits_length. reflexivity.
  - apply lastDigits_decimal.
  - rewrite lastDigits_length. lia.
Qed.

(** Without truncation: the digits after the point, completed with zeros,
    are the remainder. *)
Lemma whole_fraction d m :
  let frac := stripTrailingZeros (lastDigits d m) in
  (length frac <= d)%nat
  /\ Forall (fun c => isDecimalDigit c = true) frac
  /\ numeral (text frac) * 10 ^ N.of_nat (d - length frac) = m mod 10 ^ N.of_nat d.
Proof.
  intros frac.
  destruct (stripTrailingZeros_spec (lastDigits d m)) as [z Hz].
  fold frac in Hz.
  pose proof (lastDigits_length d m) as Hlen.
  pose proof (lastDigits_decimal d m) as Hdec.
  pose proof (numeral_lastDigits d m) as Hnum.
  rewrite Hz in Hlen, Hdec, Hnum. rewrite length_app, repeat_length in Hlen.
  apply Forall_app in Hdec as [HS _].
  rewrite numeral_app, numeral_zeros, repeat_length, N.add_0_r in Hnum.
  split; [lia |]. split; [exact HS |].
  replace (d - length frac)%nat with z by lia. exact Hnum.
Qed.

End Units.

(** ** Amounts *)
Section AmountClaims.
Context `{Host}.
Variable cache : gmap string TokenInfo.
Import JsString Js Formatter.

Lemma sentinel_value : stringToBigInt CONTRACT_BALANCE = Ok (2 ^ 255).
Proof. vm_compute. reflexivity. Qed.

Lemma decimal_not_sentinel n : String.eqb (decimal n) CONTRACT_BALANCE = false.
Proof.
  apply String.eqb_neq. intros Heq.
  pose proof (stringToBigInt_decimal n) as Hn.
  rewrite Heq, sentinel_value in Hn. inversion Hn as [Hv]. subst n.
  vm_compute in Heq. discriminate Heq.
Qed.

Lemma hexText_not_sentinel n :
  0 <= n -> n <> 2 ^ 255 -> String.eqb (hexText (Z.to_N n)) CONTRACT_BALANCE = false.
Proof.
  intros Hn Hne. apply String.eqb_neq. intros Heq.
  pose proof (stringToBigInt_hexText (Z.to_N n)) as Hh.
  rewrite Heq, sentinel_value in Hh. inversion Hh as [Hv]. lia.
Qed.

(** Every encoding of [n] is formatted as the bigint [n]. *)
Lemma formatTokenAmount_encodes amount n token chain :
  Encodes amount n ->
  formatTokenAmount cache amount token chain = scaleAmount cache (VBigInt n) token chain.
Proof.
  intros [m Hm | m Hm | m Hm Hne | m Hm Hne].
  - unfold formatTokenAmount. change (isBigNumberLike (VStr (decimal m))) with false.
    cbv iota. simpl andb. cbv iota.
    rewrite decimal_not_sentinel, stringToBigInt_decimal. reflexivity.
  - reflexivity.
  - unfold formatTokenAmount, bigNumber.
    change (isBigNumberLike (VObj [("type", VStr "BigNumber"); ("hex", VStr (hexText (Z.to_N m)))]))
      with true.
    change (or_else (get (VObj [("type", VStr "BigNumber"); ("hex", VStr (hexText (Z.to_N m)))]) "hex")
                    (get (VObj [("type", VStr "BigNumber"); ("hex", VStr (hexText (Z.to_N m)))]) "_hex"))
      with (VStr (hexText (Z.to_N m))).
    unfold isStr. rewrite (hexText_not_sentinel m Hm Hne). cbv iota. simpl andb. cbv iota.
    unfold bigNumberToBigInt.
    change (or_else (get (VObj [("type", VStr "BigNumber"); ("hex", VStr (hexText (Z.to_N m)))]) "hex")
                    (get (VObj [("type", VStr "BigNumber"); ("hex", VStr (hexText (Z.to_N m)))]) "_hex"))
      with (VStr (hexText (Z.to_N m))).
    change (truthy (VStr (hexText (Z.to_N m)))) with true. cbv iota. simpl negb. cbv iota.
    unfold toBigInt. change (toStringJS (VStr (hexText (Z.to_N m)))) with (hexText (Z.to_N m)).
    rewrite stringToBigInt_hexText, Z2N.id by exact Hm. reflexivity.
  - unfold formatTokenAmount, legacyBigNumber.
    change (isBigNumberLike (VObj [("_hex", VStr (hexText (Z.to_N m))); ("_isBigNumber", VBool true)]))
      with true.
    change (or_else (get (VObj [("_hex", VStr (hexText (Z.to_N m))); ("_isBigNumber", VBool true)]) "hex")
                    (get (VObj [("_hex", VStr (hexText (Z.to_N m))); ("_isBigNumber", VBool true)]) "_hex"))
      with (VStr (hexText (Z.to_N m))).
    unfold isStr. rewrite (hexText_not_sentinel m Hm Hne). cbv iota. simpl andb. cbv iota.
    unfold bigNumberToBigInt.
    change (or_else (get (VObj [("_hex", VStr (hexText (Z.to_N m))); ("_isBigNumber", VBool true)]) "hex")
                    (get (VObj [("_hex", VStr (hexText (Z.to_N m))); ("_isBigNumber", VBool true)]) "_hex"))
      with (VStr (hexText (Z.to_N m))).
    change (truthy (VStr (hexText (Z.to_N m)))) with true. cbv iota. simpl negb. cbv iota.
    unfold toBigInt. change (toStringJS (VStr (hexText (Z.to_N m)))) with (hexText (Z.to_N m)).
    rewrite stringToBigInt_hexText, Z2N.id by exact Hm. reflexivity.
Qed.


Lemma split_dot_units whole frac :
  Forall (fun c => isDecimalDigit c = true) whole ->
  Forall (fun c => isDecimalDigit c = true) frac ->
  split_dot (text whole +:+ match frac with [] => "" | c :: l => "." +:+ text (c :: l) end)
  = match frac with
    | [] => [text whole]
    | c :: l => [text whole; text (c :: l)]
    end.
Proof.
  intros Hwhole Hfrac. unfold split_dot. destruct frac as [| c frac].
  - rewrite append_nil_r, chars_text, (splitDot_plain whole [] Hwhole). reflexivity.
  - rewrite chars_append, chars_text.
    change (chars ("." +:+ text (c :: frac))) with ("."%char :: chars (text (c :: frac))).
    rewrite chars_text, (splitDot_point whole (c :: frac) [] Hwhole Hfrac). reflexivity.
Qed.

(** Lines 71 to 81 on a non-negative integer. *)
Lemma scaleAmount_resolved m token chain info :
  truthy token = true ->
  Registry.resolveTokenAny cache token (orUndefined chain) = Ok (Some info) ->
  scaleAmount cache (VBigInt (Z.of_N m)) token chain
  = Ok ((text (digits 10 (m / 10 ^ N.of_nat (decimals info)))
         +:+ match firstn 6 (stripTrailingZeros (lastDigits (decimals info) m)) with
             | [] => ""
             | frac => "." +:+ text frac
             end)
        +:+ " " +:+ symbol info).
Proof.
  intros Htruthy Hresolve. unfold scaleAmount. rewrite Htruthy, Hresolve.
  cbn [mbind outcome_bind bindO formatUnitsOf toStringJS].
  rewrite decimal_of_N, formatUnits_digits.
  set (whole := digits 10 (m / 10 ^ N.of_nat (decimals info))).
  set (frac := stripTrailingZeros (lastDigits (decimals info) m)).
  assert (Hwhole : Forall (fun c => isDecimalDigit c = true) whole) by apply digits_decimal.
  assert (Hfrac : Forall (fun c => isDecimalDigit c = true) frac).
  { destruct (whole_fraction (decimals info) m) as (_ & Hf & _). exact Hf. }
  rewrite (split_dot_units whole frac Hwhole Hfrac).
  destruct frac as [| c frac].
  - cbn [nth]. change (slice "" 0 (Some 6)) with "".
    change (firstn 6 (@nil ascii)) with (@nil ascii).
    change (String.eqb "" "") with true. cbv iota.
    rewrite append_nil_r. reflexivity.
  - cbn [nth]. change (Some 6) with (Some (Z.of_nat 6)).
    rewrite slice_first, chars_text. reflexivity.
Qed.

(** Lines 85 to 87 *)
Lemma scaleAmount_unresolved m token chain :
  Registry.resolveTokenAny cache token (orUndefined chain) = Ok None ->
  scaleAmount cache (VBigInt (Z.of_N m)) token chain
  = Ok ((text (digits 10 (m / 10 ^ 18))
         +:+ match stripTrailingZeros (lastDigits 18 m) with
             | [] => ""
             | frac => "." +:+ text frac
             end)
        +:+ " tokens").
Proof.
  intros Hresolve. unfold scaleAmount. rewrite Hresolve.
  destruct (truthy token);
    cbn [mbind outcome_bind bindO formatUnitsOf toStringJS];
    rewrite decimal_of_N, (formatUnits_digits m 18); reflexivity.
Qed.


Lemma Encodes_nonneg amount n : Encodes amount n -> 0 <= n.
Proof. intros [m Hm | m Hm | m Hm _ | m Hm _]; exact Hm. Qed.

Lemma fraction_text (frac : list ascii) :
  match frac with [] => "" | c :: l => "." +:+ text (c :: l) end
  = if String.eqb (text frac) "" then "" else "." +:+ text frac.
Proof. destruct frac; reflexivity. Qed.

(** C8: an encoding of a non-negative integer [n], formatted with a
    contextual currency.  When the currency resolves to a token of [d]
    decimals, the text is the decimal numeral of the quotient of [n] by
    [10^d], then, after a point, at most six digits, which completed with
    zeros are the first [min 6 d] decimals of the remainder (so the
    fraction is cut, not rounded), then a space and the symbol of the
    token.  When the currency does not resolve, the text is the same
    scaling by 18 decimals with every decimal shown, followed by
    [tokens]. *)
Theorem amount_is_scaled_and_truncated amount n token chain :
  Encodes amount n ->
  truthy token = true ->
  (forall info,
      Registry.resolveTokenAny cache token (orUndefined chain) = Ok (Some info) ->
      let d := decimals info in
      let shown := Nat.min 6 d in
      exists frac : string,
        formatTokenAmount cache amount token chain
        = Ok ((decimal (n / 10 ^ Z.of_nat d)
               +:+ (if String.eqb frac "" then "" else "." +:+ frac))
              +:+ " " +:+ symbol info)
        /\ (String.length frac <= shown)%nat
        /\ Forall (fun c => isDecimalDigit c = true) (chars frac)
        /\ Z.of_N (numeral frac) * 10 ^ Z.of_nat (shown - String.length frac)
           = (n mod 10 ^ Z.of_nat d) / 10 ^ Z.of_nat (d - shown))
  /\ (Registry.resolveTokenAny cache token (orUndefined chain) = Ok None ->
      exists frac : string,
        formatTokenAmount cache amount token chain
        = Ok ((decimal (n / 10 ^ 18)
               +:+ (if String.eqb frac "" then "" else "." +:+ frac))
              +:+ " tokens")
        /\ (String.length frac <= 18)%nat
        /\ Forall (fun c => isDecimalDigit c = true) (chars frac)
        /\ Z.of_N (numeral frac) * 10 ^ Z.of_nat (18 - String.length frac)
           = n mod 10 ^ 18).
Proof.
  intros Henc Htruthy.
  pose proof (Encodes_nonneg amount n Henc) as Hn.
  rewrite (formatTokenAmount_encodes amount n token chain Henc).
  rewrite <- (Z2N.id n Hn). set (m := Z.to_N n).
  split.
  - intros info Hresolve d shown.
    destruct (shown_fraction d m) as (Hlen & Hdigits & Hvalue). cbv zeta in Hlen, Hdigits, Hvalue.
    exists (text (firstn 6 (stripTrailingZeros (lastDigits d m)))).
    rewrite (scaleAmount_resolved m token chain info Htruthy Hresolve).
    rewrite fraction_text, text_length, chars_text. fold d.
    replace (Z.of_N m / 10 ^ Z.of_nat d) with (Z.of_N (m / 10 ^ N.of_nat d))
      by (rewrite N2Z.inj_div, N2Z.inj_pow, nat_N_Z; reflexivity).
    rewrite decimal_of_N.
    repeat split; auto.
    fold shown in Hvalue. apply (f_equal Z.of_N) in Hvalue.
    rewrite N2Z.inj_mul, N2Z.inj_div, N2Z.inj_mod, !N2Z.inj_pow, !nat_N_Z in Hvalue.
    exact Hvalue.
  - intros Hresolve.
    destruct (whole_fraction 18 m) as (Hlen & Hdigits & Hvalue). cbv zeta in Hlen, Hdigits, Hvalue.
    exists (text (stripTrailingZeros (lastDigits 18 m))).
    rewrite (scaleAmount_unresolved m token chain Hresolve).
    rewrite fraction_text, text_length, chars_text.
    replace (Z.of_N m / 10 ^ 18) with (Z.of_N (m / 10 ^ 18))
      by (rewrite N2Z.inj_div; reflexivity).
    rewrite decimal_of_N.
    repeat split; auto.
    apply (f_equal Z.of_N) in Hvalue.
    rewrite N2Z.inj_mul, N2Z.inj_mod, !N2Z.inj_pow, !nat_N_Z in Hvalue.
    exact Hvalue.
Qed.

(** C2 (as amended): for a non-negative integer other than [2^255], the
    amount formatter gives one and the same result on its three encodings,
    the decimal string, the native bigint and a hex-bearing record (in
    either form), under the same contextual currency and network; and that
    text is the display of the record at the top level. *)
Theorem encodings_format_alike token chain n :
  0 <= n ->
  n <> 2 ^ 255 ->
  formatTokenAmount cache (VStr (decimal n)) token chain
    = formatTokenAmount cache (VBigInt n) token chain
  /\ formatTokenAmount cache (bigNumber (Z.to_N n)) token chain
    = formatTokenAmount cache (VBigInt n) token chain
  /\ formatTokenAmount cache (legacyBigNumber (Z.to_N n)) token chain
    = formatTokenAmount cache (VBigInt n) token chain
  /\ (forall name display,
        formatTokenAmount cache (VBigInt n) token chain = Ok display ->
        exists rawText,
          formatValueEnhanced cache name (bigNumber (Z.to_N n)) chain token
          = Ok {| formatted := display; raw := rawText |}).
Proof.
  intros Hn Hne.
  pose proof (formatTokenAmount_encodes _ n token chain (EncodesString n Hn)) as Hs.
  pose proof (formatTokenAmount_encodes _ n token chain (EncodesBigInt n Hn)) as Hb.
  pose proof (formatTokenAmount_encodes _ n token chain (EncodesRecord n Hn Hne)) as Hr.
  pose proof (formatTokenAmount_encodes _ n token chain (EncodesLegacy n Hn Hne)) as Hl.
  repeat split; try congruence.
  intros name display Hdisplay.
  destruct (JSON_stringify_ok (bigNumber (Z.to_N n)) eq_refl) as [json Hjson].
  exists (rawText json).
  rewrite formatValueEnhanced_eq, Hjson. cbn [mbind outcome_bind bindO].
  unfold formatBody.
  change (isBigNumberLike (bigNumber (Z.to_N n))) with true. cbv iota.
  rewrite Hr, <- Hb, Hdisplay. reflexivity.
Qed.

End AmountClaims.

(** [amount_is_scaled_and_truncated] at 1234567890123456 of token A, which
    is FOO with 18 decimals on network 1: the text is [0.001234 FOO]. *)
Lemma amount_is_scaled_and_truncated_witness :
  Encodes (VStr "1234567890123456") 1234567890123456
  /\ Js.truthy (VStr Sample.tokenA) = true
  /\ exists frac : string,
       Formatter.formatTokenAmount (H := Sample.host) Sample.cache
         (VStr "1234567890123456") (VStr Sample.tokenA) (Some "1")
       = Ok (("0" +:+ (if String.eqb frac "" then "" else "." +:+ frac)) +:+ " FOO")
       /\ (String.length frac <= 6)%nat
       /\ Forall (fun c => isDecimalDigit c = true) (JsString.chars frac)
       /\ Z.of_N (numeral frac) * 10 ^ Z.of_nat (6 - String.length frac)
          = (1234567890123456 mod 10 ^ 18) / 10 ^ 12.
Proof.
  assert (Henc : Encodes (VStr "1234567890123456") 1234567890123456)
    by (apply (EncodesString 1234567890123456); lia).
  split; [exact Henc |]. split; [reflexivity |].
  destruct (amount_is_scaled_and_truncated (H := Sample.host) Sample.cache
              (VStr "1234567890123456") 1234567890123456 (VStr Sample.tokenA) (Some "1")
              Henc eq_refl) as [Hresolved _].
  apply (Hresolved {| symbol := "FOO"; decimals := 18; logo := "";
                      contract := Some Sample.tokenA; priceInUsd := 0%Q |}).
  vm_compute. reflexivity.
Defined.

(** [encodings_format_alike] at [10^18] of token A on network 1. *)
Lemma encodings_format_alike_witness :
  0 <= 10 ^ 18
  /\ 10 ^ 18 <> 2 ^ 255
  /\ Formatter.formatTokenAmount (H := Sample.host) Sample.cache
       (VStr "1000000000000000000") (VStr Sample.tokenA) (Some "1")
     = Formatter.formatTokenAmount (H := Sample.host) Sample.cache
         (VBigInt (10 ^ 18)) (VStr Sample.tokenA) (Some "1")
  /\ Formatter.formatTokenAmount (H := Sample.host) Sample.cache
       (VObj [("type", VStr "BigNumber"); ("hex", VStr "0x0de0b6b3a7640000")])
       (VStr Sample.tokenA) (Some "1")
     = Formatter.formatTokenAmount (H := Sample.host) Sample.cache
         (VBigInt (10 ^ 18)) (VStr Sample.tokenA) (Some "1").
Proof.
  assert (H0 : 0 <= 10 ^ 18) by lia.
  assert (H1 : 10 ^ 18 <> 2 ^ 255) by lia.
  destruct (encodings_format_alike (H := Sample.host) Sample.cache (VStr Sample.tokenA)
              (Some "1") (10 ^ 18) H0 H1) as (Hs & Hr & _).
  split; [exact H0 |]. split; [exact H1 |]. split; [exact Hs | exact Hr].
Defined.

(** C2 as stated fails.  At the top level the decimal string is returned
    as it is, the native bigint makes the serialisation of the first line
    throw, and only the record is scaled; in the amount formatter the
    record for [2^255] is the sentinel while the bigint [2^255] is scaled;
    and a record with the hex text of a negative number makes [BigInt]
    throw. *)
Lemma encodings_differ_at_top_level_and_at_sentinel :
  (Formatter.formatValueEnhanced (H := Sample.host) Sample.cache (VStr "amount")
     (VStr "1") None VUndefined
   = Ok {| formatted := "1"; raw := "1" |}
   /\ Formatter.formatValueEnhanced (H := Sample.host) Sample.cache (VStr "amount")
        (VBigInt 1) None VUndefined
      = Throw TypeError
   /\ displayOf (Formatter.formatValueEnhanced (H := Sample.host) Sample.cache (VStr "amount")
                   (bigNumber 1) None VUndefined)
      = "0.000000000000000001 tokens")
  /\ (bigNumber (2 ^ 255)
      = VObj [("type", VStr "BigNumber"); ("hex", VStr Formatter.CONTRACT_BALANCE)]
      /\ Formatter.formatTokenAmount (H := Sample.host) Sample.cache
           (bigNumber (2 ^ 255)) VUndefined None
         = Ok Formatter.CONTRACT_BALANCE_TEXT
      /\ Formatter.formatTokenAmount (H := Sample.host) Sample.cache
           (VBigInt (2 ^ 255)) VUndefined None
         = Ok "57896044618658097711785492504343953926634992332820282019728.792003956564819968 tokens")
  /\ (Formatter.formatTokenAmount (H := Sample.host) Sample.cache
        (VObj [("type", VStr "BigNumber"); ("hex", VStr "-0x01")]) VUndefined None
      = Throw SyntaxError
      /\ Formatter.formatTokenAmount (H := Sample.host) Sample.cache
           (VBigInt (-1)) VUndefined None
         = Ok "-0.000000000000000001 tokens").
Proof.
  repeat split; vm_compute; reflexivity.
Qed.

(** ** The output amounts of a swap descriptor *)
Section SwapOutput.
Context `{Host}.
Variable cache : gmap string TokenInfo.
Import JsString Js Formatter.

(** Lines 250 to 254 read the currency off the first hop. *)
Lemma firstHopCurrency_readable obj :
  unreadableFirstHop obj = false ->
  firstHopCurrency obj = Ok (impliedCurrency obj).
Proof.
  unfold unreadableFirstHop, firstHopCurrency, impliedCurrency.
  destruct (get obj "path") as [| | b | n | n | s | hops | fields]; try reflexivity.
  destruct hops as [| hop hops]; [reflexivity |].
  destruct hop; simpl; intros Hr; try discriminate Hr; reflexivity.
Qed.

Lemma firstHopCurrency_unreadable obj :
  unreadableFirstHop obj = true -> firstHopCurrency obj = Throw TypeError.
Proof.
  unfold unreadableFirstHop, firstHopCurrency.
  destruct (get obj "path") as [| | b | n | n | s | hops | fields]; try discriminate.
  destruct hops as [| hop hops]; [discriminate |].
  destruct hop; simpl; intros Hr; try discriminate Hr; reflexivity.
Qed.

Lemma swapParts_readable obj chain :
  unreadableFirstHop obj = false ->
  swapParts cache obj chain =
  (fromLine ← currencyLines cache "From: " (get obj "currencyIn") chain;
   toLine ← currencyLines cache "To: " (get obj "currencyOut") chain;
   amountIn ← amountLine cache "Amount In: " (get obj "amountIn") (get obj "currencyIn") chain;
   amountOut ← amountLine cache "Amount Out: " (get obj "amountOut")
                 (swapOutputCurrency obj) chain;
   minOut ← amountLine cache "Min Out: " (get obj "amountOutMinimum")
              (swapOutputCurrency obj) chain;
   pathLine ← pathLines cache obj chain;
   Ok (fromLine ++ toLine ++ amountIn ++ amountOut ++ minOut ++ pathLine)).
Proof.
  intros Hr. rewrite swapParts_output_currency, (firstHopCurrency_readable obj Hr).
  reflexivity.
Qed.

(** The line of an output amount is among the lines of the descriptor. *)
Lemma output_amount_line obj chain parts label amount shown :
  swapParts cache obj chain = Ok parts ->
  In (label, amount) (outputAmounts obj) ->
  truthy amount = true ->
  formatTokenAmount cache amount (swapOutputCurrency obj) chain = Ok shown ->
  In (label +:+ shown) parts.
Proof.
  intros Hparts Hin Htruthy Hshown.
  destruct (unreadableFirstHop obj) eqn:Hr.
  { unfold swapParts in Hparts. rewrite (firstHopCurrency_unreadable obj Hr) in Hparts.
    discriminate Hparts. }
  rewrite (swapParts_readable obj chain Hr) in Hparts.
  destruct (currencyLines cache "From: " _ chain) as [l1 |]; [| discriminate].
  cbn [mbind outcome_bind bindO] in Hparts.
  destruct (currencyLines cache "To: " _ chain) as [l2 |]; [| discriminate].
  cbn [mbind outcome_bind bindO] in Hparts.
  destruct (amountLine cache "Amount In: " _ _ chain) as [l3 |]; [| discriminate].
  cbn [mbind outcome_bind bindO] in Hparts.
  destruct (amountLine cache "Amount Out: " _ _ chain) as [l4 |] eqn:H4; [| discriminate].
  cbn [mbind outcome_bind bindO] in Hparts.
  destruct (amountLine cache "Min Out: " _ _ chain) as [l5 |] eqn:H5; [| discriminate].
  cbn [mbind outcome_bind bindO] in Hparts.
  destruct (pathLines cache obj chain) as [l6 |]; [| discriminate].
  cbn [mbind outcome_bind bindO] in Hparts.
  inversion Hparts as [Heq]. clear Hparts.
  destruct Hin as [Hin | [Hin | []]]; inversion Hin; subst label amount; clear Hin.
  - unfold amountLine in H4. rewrite Htruthy, Hshown in H4.
    cbn [mbind outcome_bind bindO] in H4. inversion H4; subst l4.
    rewrite !in_app_iff. right. right. right. left. left. reflexivity.
  - unfold amountLine in H5. rewrite Htruthy, Hshown in H5.
    cbn [mbind outcome_bind bindO] in H5. inversion H5; subst l5.
    rewrite !in_app_iff. right. right. right. right. left. left. reflexivity.
Qed.

(** An encoding of [n] under a token of [d] decimals: the quotient by
    [10^d], and at most six decimals, cut. *)
Lemma formatTokenAmount_scaled amount n token chain info :
  Encodes amount n ->
  truthy token = true ->
  Registry.resolveTokenAny cache token (orUndefined chain) = Ok (Some info) ->
  let d := decimals info in
  let shown := Nat.min 6 d in
  exists frac : string,
    formatTokenAmount cache amount token chain
    = Ok ((decimal (n / 10 ^ Z.of_nat d)
           +:+ (if String.eqb frac "" then "" else "." +:+ frac))
          +:+ " " +:+ symbol info)
    /\ (String.length frac <= shown)%nat
    /\ Forall (fun c => isDecimalDigit c = true) (chars frac)
    /\ Z.of_N (numeral frac) * 10 ^ Z.of_nat (shown - String.length frac)
       = (n mod 10 ^ Z.of_nat d) / 10 ^ Z.of_nat (d - shown).
Proof.
  intros Henc Htruthy Hresolve d shown.
  pose proof (Encodes_nonneg amount n Henc) as Hn.
  rewrite (formatTokenAmount_encodes cache amount n token chain Henc).
  rewrite <- (Z2N.id n Hn). set (m := Z.to_N n).
  destruct (shown_fraction d m) as (Hlen & Hdigits & Hvalue). cbv zeta in Hlen, Hdigits, Hvalue.
  exists (text (firstn 6 (stripTrailingZeros (lastDigits d m)))).
  rewrite (scaleAmount_resolved cache m token chain info Htruthy Hresolve).
  rewrite fraction_text, text_length, chars_text. fold d.
  replace (Z.of_N m / 10 ^ Z.of_nat d) with (Z.of_N (m / 10 ^ N.of_nat d))
    by (rewrite N2Z.inj_div, N2Z.inj_pow, nat_N_Z; reflexivity).
  rewrite decimal_of_N.
  repeat split; auto.
  fold shown in Hvalue. apply (f_equal Z.of_N) in Hvalue.
  rewrite N2Z.inj_mul, N2Z.inj_div, N2Z.inj_mod, !N2Z.inj_pow, !nat_N_Z in Hvalue.
  exact Hvalue.
Qed.

(** An encoding of [n] without a token, or under a token the registry does
    not know: 18 decimals, all of them shown. *)
Lemma formatTokenAmount_unscaled amount n token chain :
  Encodes amount n ->
  truthy token = false
  \/ Registry.resolveTokenAny cache token (orUndefined chain) = Ok None ->
  exists frac : string,
    formatTokenAmount cache amount token chain
    = Ok ((decimal (n / 10 ^ 18)
           +:+ (if String.eqb frac "" then "" else "." +:+ frac))
          +:+ " tokens")
    /\ (String.length frac <= 18)%nat
    /\ Forall (fun c => isDecimalDigit c = true) (chars frac)
    /\ Z.of_N (numeral frac) * 10 ^ Z.of_nat (18 - String.length frac)
       = n mod 10 ^ 18.
Proof.
  intros Henc Htoken.
  pose proof (Encodes_nonneg amount n Henc) as Hn.
  rewrite (formatTokenAmount_encodes cache amount n token chain Henc).
  rewrite <- (Z2N.id n Hn). set (m := Z.to_N n).
  destruct (whole_fraction 18 m) as (Hlen & Hdigits & Hvalue). cbv zeta in Hlen, Hdigits, Hvalue.
  exists (text (stripTrailingZeros (lastDigits 18 m))).
  assert (Hscale : scaleAmount cache (VBigInt (Z.of_N m)) token chain
                   = Ok ((text (digits 10 (m / 10 ^ 18))
                          +:+ match stripTrailingZeros (lastDigits 18 m) with
                              | [] => ""
                              | frac => "." +:+ text frac
                              end)
                         +:+ " tokens")).
  { destruct Htoken as [Hfalsy | Hnone].
    - rewrite (scaleAmount_falsy cache _ token chain Hfalsy).
      cbn [mbind outcome_bind bindO formatUnitsOf toStringJS].
      rewrite decimal_of_N, (formatUnits_digits m 18). reflexivity.
    - apply scaleAmount_unresolved, Hnone. }
  rewrite Hscale, fraction_text, text_length, chars_text.
  replace (Z.of_N m / 10 ^ 18) with (Z.of_N (m / 10 ^ 18))
    by (rewrite N2Z.inj_div; reflexivity).
  rewrite decimal_of_N.
  repeat split; auto.
  apply (f_equal Z.of_N) in Hvalue.
  rewrite N2Z.inj_mul, N2Z.inj_mod, !N2Z.inj_pow, !nat_N_Z in Hvalue.
  exact Hvalue.
Qed.

Lemma formatSwapObject_lines obj chain parts :
  swapParts cache obj chain = Ok parts -> parts <> [] ->
  formatSwapObject cache obj chain = join nl parts.
Proof.
  intros Hparts Hne. unfold formatSwapObject. rewrite Hparts.
  destruct parts; [contradiction | reflexivity].
Qed.

End SwapOutput.

(** C7: in a swap descriptor the lines of [amountOut] and of
    [amountOutMinimum] are produced with the output currency as the token of
    the amount: the explicit [currencyOut] when there is one, otherwise the
    [intermediateCurrency] of the first hop of the path, whatever the later
    hops name; the input currency scales [amountIn] only.  A first hop that
    is [null] or [undefined] gives the error text.  When the output currency
    resolves to a token of [d] decimals, the line of an output amount that
    encodes [n] is its label, the quotient of [n] by [10^d], at most six
    decimals, cut, and the symbol of that token, and the display is the
    lines joined by newlines; when there is no output currency, or the
    registry does not know it, the amount is shown with 18 decimals as
    [tokens], the input currency being of no use.  On the samples, with FOO
    of 18 decimals and BAR of 6 decimals, 1500000 out is shown as 1.5 BAR
    whether BAR is given explicitly, implied by a path of one hop, given
    explicitly next to a path that names FOO, or named by the first of two
    hops of which the second names FOO; with BAR in and no output currency
    it is shown as 0.0000000000015 tokens. *)
Theorem swap_output_amounts_use_output_currency :
  (forall (H : Host) (cache : gmap string TokenInfo) (obj : Value) (chain : option string),
      unreadableFirstHop obj = false ->
      Formatter.swapParts cache obj chain =
      (fromLine ← Formatter.currencyLines cache "From: " (Js.get obj "currencyIn") chain;
       toLine ← Formatter.currencyLines cache "To: " (Js.get obj "currencyOut") chain;
       amountIn ← Formatter.amountLine cache "Amount In: " (Js.get obj "amountIn")
                    (Js.get obj "currencyIn") chain;
       amountOut ← Formatter.amountLine cache "Amount Out: " (Js.get obj "amountOut")
                     (swapOutputCurrency obj) chain;
       minOut ← Formatter.amountLine cache "Min Out: " (Js.get obj "amountOutMinimum")
                  (swapOutputCurrency obj) chain;
       pathLine ← Formatter.pathLines cache obj chain;
       Ok (fromLine ++ toLine ++ amountIn ++ amountOut ++ minOut ++ pathLine)))
  /\ (forall (H : Host) (cache : gmap string TokenInfo) (obj : Value) (chain : option string),
        unreadableFirstHop obj = true ->
        Formatter.formatSwapObject cache obj chain = "Error formatting swap details")
  /\ (forall (H : Host) (cache : gmap string TokenInfo) (obj : Value) (chain : option string)
             (parts : list string) (label : string) (amount : Value) (n : Z)
             (info : TokenInfo),
        Formatter.swapParts cache obj chain = Ok parts ->
        In (label, amount) (outputAmounts obj) ->
        Js.truthy amount = true ->
        Encodes amount n ->
        Js.truthy (swapOutputCurrency obj) = true ->
        Registry.resolveTokenAny cache (swapOutputCurrency obj) (Formatter.orUndefined chain)
        = Ok (Some info) ->
        let d := decimals info in
        let shown := Nat.min 6 d in
        exists frac : string,
          Formatter.formatSwapObject cache obj chain = JsString.join Js.nl parts
          /\ In (label +:+ (JsString.decimal (n / 10 ^ Z.of_nat d)
                            +:+ (if String.eqb frac "" then "" else "." +:+ frac))
                       +:+ " " +:+ symbol info) parts
          /\ (String.length frac <= shown)%nat
          /\ Forall (fun c => isDecimalDigit c = true) (JsString.chars frac)
          /\ Z.of_N (numeral frac) * 10 ^ Z.of_nat (shown - String.length frac)
             = (n mod 10 ^ Z.of_nat d) / 10 ^ Z.of_nat (d - shown))
  /\ (forall (H : Host) (cache : gmap string TokenInfo) (obj : Value) (chain : option string)
             (parts : list string) (label : string) (amount : Value) (n : Z),
        Formatter.swapParts cache obj chain = Ok parts ->
        In (label, amount) (outputAmounts obj) ->
        Js.truthy amount = true ->
        Encodes amount n ->
        Js.truthy (swapOutputCurrency obj) = false
        \/ Registry.resolveTokenAny cache (swapOutputCurrency obj) (Formatter.orUndefined chain)
           = Ok None ->
        exists frac : string,
          Formatter.formatSwapObject cache obj chain = JsString.join Js.nl parts
          /\ In (label +:+ (JsString.decimal (n / 10 ^ 18)
                            +:+ (if String.eqb frac "" then "" else "." +:+ frac))
                       +:+ " tokens") parts
          /\ (String.length frac <= 18)%nat
          /\ Forall (fun c => isDecimalDigit c = true) (JsString.chars frac)
          /\ Z.of_N (numeral frac) * 10 ^ Z.of_nat (18 - String.length frac)
             = n mod 10 ^ 18)
  /\ Formatter.formatSwapObject (H := Sample.host) Sample.cache SampleSwap.explicitOut (Some "1")
     = "From: FOO" +:+ Js.nl +:+ "To: BAR" +:+ Js.nl
       +:+ "Amount Out: 1.5 BAR" +:+ Js.nl +:+ "Min Out: 1 BAR"
  /\ Formatter.formatSwapObject (H := Sample.host) Sample.cache SampleSwap.impliedOut (Some "1")
     = "From: FOO" +:+ Js.nl
       +:+ "Amount Out: 1.5 BAR" +:+ Js.nl +:+ "Min Out: 1 BAR" +:+ Js.nl
       +:+ "Path: → BAR (0.05%)"
  /\ Formatter.formatSwapObject (H := Sample.host) Sample.cache SampleSwap.bothOut (Some "1")
     = "From: FOO" +:+ Js.nl +:+ "To: BAR" +:+ Js.nl
       +:+ "Amount Out: 1.5 BAR" +:+ Js.nl +:+ "Min Out: 1 BAR" +:+ Js.nl
       +:+ "Path: → FOO (0.05%)"
  /\ Formatter.formatSwapObject (H := Sample.host) Sample.cache SampleHops.twoHops (Some "1")
     = "From: FOO" +:+ Js.nl
       +:+ "Amount Out: 1.5 BAR" +:+ Js.nl +:+ "Min Out: 1 BAR" +:+ Js.nl
       +:+ "Path: → BAR (0.05%) → FOO (0.3%)"
  /\ Formatter.formatSwapObject (H := Sample.host) Sample.cache SampleHops.noOutput (Some "1")
     = "From: BAR" +:+ Js.nl
       +:+ "Amount In: 1.5 BAR" +:+ Js.nl +:+ "Amount Out: 0.0000000000015 tokens".
Proof.
  split; [| split; [| split; [| split; [| split; [| split; [| split; [| split]]]]]]].
  - intros H cache obj chain. apply swapParts_readable.
  - intros H cache obj chain Hr. unfold Formatter.formatSwapObject, Formatter.swapParts.
    rewrite (firstHopCurrency_unreadable obj Hr). reflexivity.
  - intros H cache obj chain parts label amount n info Hparts Hin Htruthy Henc Hout Hres d shown.
    destruct (formatTokenAmount_scaled cache amount n (swapOutputCurrency obj) chain info
                Henc Hout Hres) as (frac & Hshown & Hlen & Hdigits & Hvalue).
    exists frac.
    pose proof (output_amount_line cache obj chain parts label amount _
                  Hparts Hin Htruthy Hshown) as Hline.
    repeat split; auto.
    apply formatSwapObject_lines; [exact Hparts |].
    intros ->. destruct Hline.
  - intros H cache obj chain parts label amount n Hparts Hin Htruthy Henc Hout.
    destruct (formatTokenAmount_unscaled cache amount n (swapOutputCurrency obj) chain
                Henc Hout) as (frac & Hshown & Hlen & Hdigits & Hvalue).
    exists frac.
    pose proof (output_amount_line cache obj chain parts label amount _
                  Hparts Hin Htruthy Hshown) as Hline.
    repeat split; auto.
    apply formatSwapObject_lines; [exact Hparts |].
    intros ->. destruct Hline.
  - vm_compute. reflexivity.
  - vm_compute. reflexivity.
  - vm_compute. reflexivity.
  - vm_compute. reflexivity.
  - vm_compute. reflexivity.
Qed.

(** [swap_output_amounts_use_output_currency] at the descriptor with two
    hops: the first hop names BAR, of 6 decimals, the second FOO, of 18;
    1500000 out is one whole and five tenths of BAR. *)
Lemma swap_output_amounts_use_output_currency_witness :
  let parts := ["From: FOO"; "Amount Out: 1.5 BAR"; "Min Out: 1 BAR";
                "Path: → BAR (0.05%) → FOO (0.3%)"] in
  Formatter.swapParts (H := Sample.host) Sample.cache SampleHops.twoHops (Some "1") = Ok parts
  /\ swapOutputCurrency SampleHops.twoHops = VStr Sample.tokenB
  /\ Encodes (VStr "1500000") 1500000
  /\ exists frac : string,
       Formatter.formatSwapObject (H := Sample.host) Sample.cache SampleHops.twoHops (Some "1")
       = JsString.join Js.nl parts
       /\ In ("Amount Out: " +:+ ("1" +:+ (if String.eqb frac "" then "" else "." +:+ frac))
                +:+ " BAR") parts
       /\ (String.length frac <= 6)%nat
       /\ Forall (fun c => isDecimalDigit c = true) (JsString.chars frac)
       /\ Z.of_N (numeral frac) * 10 ^ Z.of_nat (6 - String.length frac)
          = (1500000 mod 10 ^ 6) / 10 ^ 0.
Proof.
  intros parts.
  assert (Hparts : Formatter.swapParts (H := Sample.host) Sample.cache SampleHops.twoHops
                     (Some "1") = Ok parts) by (vm_compute; reflexivity).
  assert (Henc : Encodes (VStr "1500000") 1500000)
    by (apply (EncodesString 1500000); lia).
  split; [exact Hparts |]. split; [reflexivity |]. split; [exact Henc |].
  destruct swap_output_amounts_use_output_currency as (_ & _ & Hscaled & _).
  apply (Hscaled Sample.host Sample.cache SampleHops.twoHops (Some "1") parts
           "Amount Out: " (VStr "1500000") 1500000
           (Registry.tokenInfoOf (Sample.lsToken "BAR" (Some Sample.tokenB) 6))).
  - exact Hparts.
  - left. reflexivity.
  - reflexivity.
  - exact Henc.
  - reflexivity.
  - vm_compute. reflexivity.
Defined.

(** ** Lists of named fields against the path shapes *)

(** C10, where the code parts from it: an array of named fields that holds
    a native bigint is not rendered at all, since the serialisation of line
    99, outside the [try], throws; the amount formatter alone takes the same
    bigint. *)
Theorem named_field_list_with_bigint_throws :
  Formatter.isNamedField (VObj [("name", VStr "amountIn"); ("value", VBigInt 1000)]) = true
  /\ Formatter.formatValueEnhanced (H := Sample.host) Sample.cache (VStr "params")
       (VArr [VObj [("name", VStr "amountIn"); ("value", VBigInt 1000)]]) (Some "1") VUndefined
     = Throw TypeError
  /\ Formatter.formatTokenAmount (H := Sample.host) Sample.cache (VBigInt 1000)
       VUndefined (Some "1")
     = Ok "0.000000000000001 tokens".
Proof. repeat split; vm_compute; reflexivity. Qed.

(** Elements that carry [name] and [value] next to [tokenIn] and
    [tokenOut] are rendered as named fields, not as a fee-tier path. *)
Example named_fields_before_path_shapes :
  let hop :=
    VObj [("name", VStr "hop"); ("value", VStr Sample.tokenA);
          ("tokenIn", VStr Sample.tokenA); ("tokenOut", VStr Sample.tokenB)] in
  Formatter.isV3Hop hop = true
  /\ displayOf (Formatter.formatValueEnhanced (H := Sample.host) Sample.cache (VStr "path")
                  (VArr [hop]) (Some "1") VUndefined)
     = "hop: FOO (0xaaaa...aaaa)".
Proof. split; vm_compute; reflexivity. Qed.

(** * Further properties of the code *)

(** ** The cache after a fetch *)

Section CacheFacts.
Import Registry JsString.

Lemma applyWrites_app ws1 ws2 m :
  applyWrites (ws1 ++ ws2) m = applyWrites ws2 (applyWrites ws1 m).
Proof. unfold applyWrites. apply fold_left_app. Qed.

Lemma cacheToken_writes chain m token :
  cacheToken chain m token = applyWrites (tokenWrites chain token) m.
Proof.
  unfold cacheToken, tokenWrites, cacheKeys.
  destruct (contractAddress token); reflexivity.
Qed.

Lemma cacheNetwork_writes network : forall m,
  cacheNetwork m network = applyWrites (networkWrites network) m.
Proof.
  unfold cacheNetwork, networkWrites.
  induction (LayerSwap.tokens network) as [| t ts IH]; intros m; [reflexivity |].
  simpl. rewrite IH, applyWrites_app, cacheToken_writes. reflexivity.
Qed.

Lemma buildCache_writes data : forall m,
  buildCache data m = applyWrites (payloadWrites data) m.
Proof.
  unfold buildCache, payloadWrites.
  induction data as [| n data IH]; intros m; [reflexivity |].
  simpl. rewrite IH, applyWrites_app, cacheNetwork_writes. reflexivity.
Qed.

Lemma applyWrites_sound ws : forall m key info,
  applyWrites ws m !! key = Some info ->
  m !! key = Some info \/ In (key, info) ws.
Proof.
  induction ws as [| [k v] ws IH]; intros m key info Hlook; [left; exact Hlook |].
  simpl in Hlook. apply IH in Hlook as [Hlook | Hin].
  - destruct (decide (k = key)) as [-> | Hne].
    + rewrite lookup_insert_eq in Hlook. right. left. congruence.
    + rewrite lookup_insert_ne in Hlook by exact Hne. left. exact Hlook.
  - right. right. exact Hin.
Qed.

Lemma applyWrites_untouched ws : forall m key,
  ~ In key (map fst ws) -> applyWrites ws m !! key = m !! key.
Proof.
  induction ws as [| [k v] ws IH]; intros m key Hnot; [reflexivity |].
  simpl in *. rewrite IH by tauto.
  apply lookup_insert_ne. tauto.
Qed.

Lemma applyWrites_last ws1 ws2 m key info :
  ~ In key (map fst ws2) ->
  applyWrites (ws1 ++ (key, info) :: ws2) m !! key = Some info.
Proof.
  intros Hnot. rewrite applyWrites_app. simpl.
  rewrite applyWrites_untouched by exact Hnot.
  apply lookup_insert_eq.
Qed.

Lemma applyWrites_written ws : forall m key,
  In key (map fst ws) -> is_Some (applyWrites ws m !! key).
Proof.
  induction ws as [| [k v] ws IH]; intros m key Hin; [destruct Hin |].
  simpl. destruct (in_dec string_dec key (map fst ws)) as [Hlater | Hnot].
  - apply IH, Hlater.
  - destruct Hin as [Hk | Hin]; [| contradiction].
    simpl in Hk. subst k. rewrite applyWrites_untouched by exact Hnot.
    rewrite lookup_insert_eq. eauto.
Qed.

Lemma in_tokenWrites chain token key info :
  In (key, info) (tokenWrites chain token) <->
  In key (cacheKeys chain token) /\ info = tokenInfoOf token.
Proof.
  unfold tokenWrites. rewrite in_map_iff. split.
  - intros (k & Heq & Hin). inversion Heq; subst. auto.
  - intros [Hin ->]. exists key. auto.
Qed.

Lemma in_payloadWrites data key info :
  In (key, info) (payloadWrites data) <->
  exists network token,
    In network data /\ In token (LayerSwap.tokens network)
    /\ In key (cacheKeys (LayerSwap.chain_id network) token)
    /\ info = tokenInfoOf token.
Proof.
  unfold payloadWrites, networkWrites. rewrite in_flat_map. split.
  - intros (n & Hn & Hin). apply in_flat_map in Hin as (t & Ht & Hin).
    apply in_tokenWrites in Hin as [Hk ->]. exists n, t. auto.
  - intros (n & t & Hn & Ht & Hk & ->). exists n. split; [exact Hn |].
    apply in_flat_map. exists t. split; [exact Ht |].
    apply in_tokenWrites. auto.
Qed.

Lemma keys_tokenWrites chain token :
  map fst (tokenWrites chain token) = cacheKeys chain token.
Proof.
  unfold tokenWrites. rewrite map_map. simpl. apply map_id.
Qed.

Lemma in_keys_networkWrites network key :
  In key (map fst (networkWrites network)) <->
  exists token, In token (LayerSwap.tokens network)
                /\ In key (cacheKeys (LayerSwap.chain_id network) token).
Proof.
  unfold networkWrites. rewrite in_map_iff. split.
  - intros ([k info] & Hk & Hin). simpl in Hk. subst k.
    apply in_flat_map in Hin as (t & Ht & Hin).
    apply in_tokenWrites in Hin as [Hin _]. eauto.
  - intros (t & Ht & Hin). exists (key, tokenInfoOf t). split; [reflexivity |].
    apply in_flat_map. exists t. split; [exact Ht |].
    apply in_tokenWrites. auto.
Qed.

Lemma in_keys_payloadWrites data key :
  In key (map fst (payloadWrites data)) <->
  exists network token,
    In network data /\ In token (LayerSwap.tokens network)
    /\ In key (cacheKeys (LayerSwap.chain_id network) token).
Proof.
  rewrite in_map_iff. split.
  - intros ([k info] & Hk & Hin). simpl in Hk. subst k.
    apply in_payloadWrites in Hin as (n & t & Hn & Ht & Hin & _). eauto.
  - intros (n & t & Hn & Ht & Hin). exists (key, tokenInfoOf t).
    split; [reflexivity |]. apply in_payloadWrites. eauto 6.
Qed.

Lemma buildCache_sound data key info :
  buildCache data ∅ !! key = Some info ->
  exists network token,
    In network data /\ In token (LayerSwap.tokens network)
    /\ In key (cacheKeys (LayerSwap.chain_id network) token)
    /\ info = tokenInfoOf token.
Proof.
  rewrite buildCache_writes. intros Hlook.
  apply applyWrites_sound in Hlook as [Hlook | Hin].
  - rewrite lookup_empty in Hlook. discriminate.
  - apply in_payloadWrites, Hin.
Qed.

Lemma buildCache_written data network token key :
  In network data -> In token (LayerSwap.tokens network) ->
  In key (cacheKeys (LayerSwap.chain_id network) token) ->
  is_Some (buildCache data ∅ !! key).
Proof.
  intros Hn Ht Hk. rewrite buildCache_writes.
  apply applyWrites_written, in_keys_payloadWrites. eauto.
Qed.

End CacheFacts.

Section CacheProperties.
Import Registry JsString.

(** X1: what the cache holds after a fetch is what the payload lists, under
    the keys of the loop: an entry found under a key was listed by the
    payload under that key, and a key the payload lists is found. *)
Theorem cache_holds_what_the_payload_lists data key :
  (forall info, buildCache data ∅ !! key = Some info ->
     exists network token,
       In network data /\ In token (LayerSwap.tokens network)
       /\ In key (cacheKeys (LayerSwap.chain_id network) token)
       /\ info = tokenInfoOf token)
  /\ ((exists network token,
         In network data /\ In token (LayerSwap.tokens network)
         /\ In key (cacheKeys (LayerSwap.chain_id network) token))
      -> is_Some (buildCache data ∅ !! key)).
Proof.
  split.
  - intros info. apply buildCache_sound.
  - intros (n & t & Hn & Ht & Hk). eapply buildCache_written; eauto.
Qed.

(** X2: the last token the payload lists under a key is the one the cache
    keeps: tokens listed later in the same network and the networks listed
    later overwrite, the ones listed earlier do not. *)
Theorem cache_keeps_the_last_listing
    earlier network later before token after key cache :
  LayerSwap.tokens network = before ++ token :: after ->
  In key (cacheKeys (LayerSwap.chain_id network) token) ->
  (forall t, In t after -> ~ In key (cacheKeys (LayerSwap.chain_id network) t)) ->
  (forall n t, In n later -> In t (LayerSwap.tokens n) ->
               ~ In key (cacheKeys (LayerSwap.chain_id n) t)) ->
  buildCache (earlier ++ network :: later) cache !! key
  = Some (tokenInfoOf token).
Proof.
  intros Htokens Hkey Hafter Hlater.
  rewrite buildCache_writes. unfold payloadWrites.
  rewrite flat_map_app. simpl. rewrite applyWrites_app, applyWrites_app.
  rewrite applyWrites_untouched.
  2: { intros Hin. apply (in_keys_payloadWrites later key) in Hin
         as (n & t & Hn & Ht & Hin). exact (Hlater n t Hn Ht Hin). }
  unfold networkWrites. rewrite Htokens, flat_map_app. simpl.
  rewrite applyWrites_app, applyWrites_app.
  rewrite applyWrites_untouched.
  2: { intros Hin. apply in_map_iff in Hin as ([k info] & Hk & Hin).
       simpl in Hk. subst k. apply in_flat_map in Hin as (t & Ht & Hin).
       apply in_tokenWrites in Hin as [Hin _]. exact (Hafter t Ht Hin). }
  generalize (applyWrites (flat_map (tokenWrites (LayerSwap.chain_id network)) before)
                (applyWrites (flat_map networkWrites earlier) cache)).
  intros m. unfold tokenWrites, cacheKeys in *.
  destruct (contractAddress token) as [c |]; simpl in *.
  - destruct Hkey as [<- | [<- | []]].
    + destruct (decide (toLowerCase c
                        = LayerSwap.chain_id network +:+ ":" +:+ toLowerCase c)) as [He | Hne].
      * rewrite <- He. apply lookup_insert_eq.
      * rewrite lookup_insert_ne by exact Hne. apply lookup_insert_eq.
    + apply lookup_insert_eq.
  - destruct Hkey as [<- | []]. apply lookup_insert_eq.
Qed.

End CacheProperties.

(** [cache_holds_what_the_payload_lists] at the sample payload: the entry
    under the scoped key of token B on network 1 is the BAR the payload
    lists there, and the key is found because the payload lists it. *)
Lemma cache_holds_what_the_payload_lists_witness :
  (exists network token,
      In network Sample.payload /\ In token (LayerSwap.tokens network)
      /\ In ("1:" +:+ Sample.tokenB) (cacheKeys (LayerSwap.chain_id network) token)
      /\ Registry.tokenInfoOf (Sample.lsToken "BAR" (Some Sample.tokenB) 6)
         = Registry.tokenInfoOf token)
  /\ is_Some (Sample.cache !! ("1:" +:+ Sample.tokenB)).
Proof.
  destruct (cache_holds_what_the_payload_lists Sample.payload ("1:" +:+ Sample.tokenB))
    as [Hsound Hfound].
  split.
  - apply Hsound. vm_compute. reflexivity.
  - apply Hfound. exists SampleCard.network1, (Sample.lsToken "BAR" (Some Sample.tokenB) 6).
    split; [left; reflexivity |]. split; [right; right; left; reflexivity |].
    left. reflexivity.
Defined.

(** [cache_keeps_the_last_listing] at the sample payload: under the address
    alone, token A is the FOO.e of network 10, which is listed last. *)
Lemma cache_keeps_the_last_listing_witness :
  Sample.cache !! Sample.tokenA
  = Some (Registry.tokenInfoOf (Sample.lsToken "FOO.e" (Some Sample.tokenA) 8)).
Proof.
  apply (cache_keeps_the_last_listing [SampleCard.network1] SampleCard.network10 []
           [] (Sample.lsToken "FOO.e" (Some Sample.tokenA) 8) [] Sample.tokenA ∅).
  - reflexivity.
  - vm_compute. auto.
  - intros t [].
  - intros n t [].
Defined.

(** ** Resolution against a fetched payload *)

Section AddressText.
Import JsString.

Lemma toLowerCase_length s : String.length (toLowerCase s) = String.length s.
Proof. induction s as [| c s IH]; simpl; congruence. Qed.

Lemma chars_length s : length (chars s) = String.length s.
Proof. induction s as [| c s IH]; simpl; congruence. Qed.

Lemma chars_inj a b : chars a = chars b -> a = b.
Proof. intros Heq. rewrite <- (text_chars a), <- (text_chars b), Heq. reflexivity. Qed.

Lemma colonFree_spec s : colonFree s = true <-> ~ In ":"%char (chars s).
Proof.
  unfold colonFree. rewrite forallb_forall. split.
  - intros Hall Hin. specialize (Hall _ Hin). discriminate Hall.
  - intros Hnot c Hin. destruct (Ascii.eqb_spec c ":"%char) as [-> |]; [contradiction | reflexivity].
Qed.

Lemma lowerChar_colon c : lowerChar c = ":"%char -> c = ":"%char.
Proof.
  destruct c as [[] [] [] [] [] [] [] []]; vm_compute; intros Heq;
    try discriminate Heq; reflexivity.
Qed.

Lemma chars_toLowerCase s : chars (toLowerCase s) = map lowerChar (chars s).
Proof. induction s as [| c s IH]; simpl; [reflexivity |]. f_equal. exact IH. Qed.

Lemma colonFree_toLowerCase s : colonFree s = true -> colonFree (toLowerCase s) = true.
Proof.
  rewrite !colonFree_spec, chars_toLowerCase. intros Hnot Hin.
  apply in_map_iff in Hin as (c & Hc & Hin).
  apply lowerChar_colon in Hc. subst c. contradiction.
Qed.

Lemma hex_colonFree l : forallb Viem.isHexChar l = true -> ~ In ":"%char l.
Proof.
  rewrite forallb_forall. intros Hall Hin. specialize (Hall _ Hin). discriminate Hall.
Qed.

Lemma addressRegex_shape s :
  Viem.addressRegex s = true ->
  String.length (toLowerCase s) = 42%nat /\ colonFree (toLowerCase s) = true.
Proof.
  intros Hrx. assert (Hfree : colonFree s = true /\ String.length s = 42%nat).
  { unfold Viem.addressRegex in Hrx.
    destruct s as [| c0 s]; [discriminate |].
    destruct c0 as [[] [] [] [] [] [] [] []]; try discriminate.
    destruct s as [| c1 rest]; [discriminate |].
    destruct c1 as [[] [] [] [] [] [] [] []]; try discriminate.
    apply andb_true_iff in Hrx as [Hlen Hhex]. apply Nat.eqb_eq in Hlen.
    split; [| simpl; rewrite Hlen; reflexivity].
    apply colonFree_spec. simpl. intros [Hc | [Hc | Hin]]; try discriminate.
    exact (hex_colonFree _ Hhex Hin). }
  destruct Hfree as [Hfree Hlen].
  rewrite toLowerCase_length. split; [exact Hlen | apply colonFree_toLowerCase, Hfree].
Qed.

Lemma split_at_first {A} (x : A) l1 : forall l2 r1 r2,
  ~ In x l1 -> ~ In x l2 -> l1 ++ x :: r1 = l2 ++ x :: r2 -> l1 = l2 /\ r1 = r2.
Proof.
  induction l1 as [| a l1 IH]; intros [| b l2] r1 r2 H1 H2 Heq; simpl in *.
  - inversion Heq. auto.
  - inversion Heq; subst. tauto.
  - inversion Heq; subst. tauto.
  - inversion Heq; subst. destruct (IH l2 r1 r2) as [-> ->]; auto.
Qed.

Lemma scoped_key_inj c L c' A :
  colonFree c = true -> colonFree c' = true ->
  c +:+ ":" +:+ L = c' +:+ ":" +:+ A -> c = c' /\ L = A.
Proof.
  rewrite !colonFree_spec. intros Hc Hc' Heq. apply (f_equal chars) in Heq.
  rewrite !chars_append in Heq.
  change (chars ":" ++ ?l) with (":"%char :: l) in Heq.
  apply split_at_first in Heq as [H1 H2]; [| assumption | assumption].
  split; apply chars_inj; assumption.
Qed.

Lemma plain_key_not_scoped L c' A :
  colonFree L = true -> L <> c' +:+ ":" +:+ A.
Proof.
  rewrite colonFree_spec. intros Hfree Heq. apply Hfree.
  rewrite Heq, !chars_append. apply in_or_app. right. simpl. auto.
Qed.

End AddressText.

Section Resolution.
Context `{Host}.
Import Registry JsString.

Lemma colonFreePayload_in data network token c :
  colonFreePayload data = true ->
  In network data -> In token (LayerSwap.tokens network) ->
  contractAddress token = Some c ->
  colonFree (LayerSwap.chain_id network) = true /\ colonFree c = true.
Proof.
  unfold colonFreePayload. rewrite forallb_forall. intros Hwf Hn Ht Hc.
  specialize (Hwf _ Hn). apply andb_true_iff in Hwf as [Hchain Htokens].
  rewrite forallb_forall in Htokens.
  specialize (Htokens _ Ht). rewrite Hc in Htokens. auto.
Qed.

Lemma colonFreePayload_chain data network :
  colonFreePayload data = true -> In network data ->
  colonFree (LayerSwap.chain_id network) = true.
Proof.
  unfold colonFreePayload. rewrite forallb_forall. intros Hwf Hn.
  specialize (Hwf _ Hn). apply andb_true_iff in Hwf as [Hchain _]. exact Hchain.
Qed.

Lemma isAddress_regex address :
  Viem.isAddress address = true -> Viem.addressRegex address = true.
Proof.
  unfold Viem.isAddress. destruct (Viem.addressRegex address); [reflexivity | discriminate].
Qed.

(** A hit under the scoped key is a token of that network at that address. *)
Lemma scoped_hit data chain address info :
  colonFreePayload data = true ->
  colonFree chain = true ->
  Viem.addressRegex address = true ->
  buildCache data ∅ !! (chain +:+ ":" +:+ toLowerCase address) = Some info ->
  exists network token c,
    In network data /\ In token (LayerSwap.tokens network)
    /\ info = tokenInfoOf token
    /\ contractAddress token = Some c
    /\ toLowerCase c = toLowerCase address
    /\ LayerSwap.chain_id network = chain.
Proof.
  intros Hwf Hchain Hrx Hlook.
  destruct (addressRegex_shape _ Hrx) as [Hlen Hfree].
  apply buildCache_sound in Hlook as (n & t & Hn & Ht & Hkey & ->).
  pose proof (colonFreePayload_chain _ _ Hwf Hn) as Hn_free.
  unfold cacheKeys in Hkey.
  destruct (contractAddress t) as [c |] eqn:Hc; simpl in Hkey.
  - destruct (colonFreePayload_in _ _ _ _ Hwf Hn Ht Hc) as [_ Hc_free].
    destruct Hkey as [Hkey | [Hkey | []]].
    + symmetry in Hkey. apply scoped_key_inj in Hkey as [Heq1 Heq2]; [| assumption ..].
      exists n, t, c. auto 10.
    + exfalso. apply colonFree_toLowerCase in Hc_free.
      exact (plain_key_not_scoped _ _ _ Hc_free Hkey).
  - destruct Hkey as [Hkey | []]. exfalso. symmetry in Hkey.
    apply scoped_key_inj in Hkey as [_ Heq]; [| assumption ..].
    rewrite Heq in Hlen. discriminate Hlen.
Qed.

(** A hit under the address alone is a token at that address. *)
Lemma plain_hit data address info :
  Viem.addressRegex address = true ->
  buildCache data ∅ !! toLowerCase address = Some info ->
  exists network token c,
    In network data /\ In token (LayerSwap.tokens network)
    /\ info = tokenInfoOf token
    /\ contractAddress token = Some c
    /\ toLowerCase c = toLowerCase address.
Proof.
  intros Hrx Hlook.
  destruct (addressRegex_shape _ Hrx) as [Hlen Hfree].
  apply buildCache_sound in Hlook as (n & t & Hn & Ht & Hkey & ->).
  unfold cacheKeys in Hkey.
  destruct (contractAddress t) as [c |] eqn:Hc; simpl in Hkey.
  - destruct Hkey as [Hkey | [Hkey | []]].
    + exfalso. symmetry in Hkey. revert Hkey. apply plain_key_not_scoped, Hfree.
    + exists n, t, c. auto 10.
  - destruct Hkey as [Hkey | []]. exfalso. symmetry in Hkey. revert Hkey.
    apply plain_key_not_scoped, Hfree.
Qed.

Lemma resolveToken_lookup cache address chainId :
  isNative address = false -> Viem.isAddress address = true ->
  resolveToken cache address chainId
  = match match scoped chainId with
          | Some c => cache !! (c +:+ ":" +:+ toLowerCase address)
          | None => None
          end with
    | Some token => Some token
    | None => cache !! toLowerCase address
    end.
Proof.
  unfold isNative, resolveToken. intros -> ->. reflexivity.
Qed.

(** X3: the registry never answers with a token of another address.  When
    no network id and no contract of the payload holds a colon, the separator
    of the scoped keys, and the network id asked for holds none, an entry
    returned for an address that is not the native one was listed by the
    payload with a contract that is this address up to the case of its
    letters; and with a network id, it is a token of another network only
    when that network does not list the address. *)
Theorem resolved_token_is_listed_at_the_address data address chainId info :
  colonFreePayload data = true ->
  colonFreeId chainId = true ->
  isNative address = false ->
  resolveToken (buildCache data ∅) address chainId = Some info ->
  exists network token c,
    In network data /\ In token (LayerSwap.tokens network)
    /\ info = tokenInfoOf token
    /\ contractAddress token = Some c
    /\ toLowerCase c = toLowerCase address
    /\ match scoped chainId with
       | Some chain =>
           LayerSwap.chain_id network = chain
           \/ buildCache data ∅ !! (chain +:+ ":" +:+ toLowerCase address) = None
       | None => True
       end.
Proof.
  intros Hwf Hid Hnative Hres.
  destruct (Viem.isAddress address) eqn:Haddr.
  2: { unfold isNative in Hnative. unfold resolveToken in Hres.
       rewrite Hnative, Haddr in Hres. discriminate. }
  rewrite (resolveToken_lookup _ _ _ Hnative Haddr) in Hres.
  pose proof (isAddress_regex _ Haddr) as Hrx.
  destruct (scoped chainId) as [chain |] eqn:Hscoped.
  - assert (Hchain : colonFree chain = true).
    { unfold scoped in Hscoped. destruct chainId as [id |]; [| discriminate].
      destruct (String.eqb id ""); inversion Hscoped; subst. exact Hid. }
    destruct (buildCache data ∅ !! (chain +:+ ":" +:+ toLowerCase address))
      as [hit |] eqn:Hlook.
    + inversion Hres; subst hit.
      destruct (scoped_hit _ _ _ _ Hwf Hchain Hrx Hlook)
        as (n & t & c & Hn & Ht & Hinfo & Hc & Hlow & Hnet).
      exists n, t, c. auto 10.
    + destruct (plain_hit _ _ _ Hrx Hres)
        as (n & t & c & Hn & Ht & Hinfo & Hc & Hlow).
      exists n, t, c. auto 10.
  - destruct (plain_hit _ _ _ Hrx Hres)
      as (n & t & c & Hn & Ht & Hinfo & Hc & Hlow).
    exists n, t, c. auto 10.
Qed.

Lemma listed_token_resolves data network token c address :
  colonFreePayload data = true ->
  In network data -> In token (LayerSwap.tokens network) ->
  contractAddress token = Some c ->
  LayerSwap.chain_id network <> "" ->
  Viem.isAddress address = true -> isNative address = false ->
  toLowerCase address = toLowerCase c ->
  exists network' token' c',
    In network' data /\ In token' (LayerSwap.tokens network')
    /\ LayerSwap.chain_id network' = LayerSwap.chain_id network
    /\ contractAddress token' = Some c'
    /\ toLowerCase c' = toLowerCase c
    /\ resolveToken (buildCache data ∅) address (Some (LayerSwap.chain_id network))
       = Some (tokenInfoOf token').
Proof.
  intros Hwf Hn Ht Hc Hchain Haddr Hnative Hlow.
  rewrite (resolveToken_lookup _ _ _ Hnative Haddr).
  unfold scoped. apply String.eqb_neq in Hchain. rewrite Hchain.
  destruct (buildCache_written data network token
              (LayerSwap.chain_id network +:+ ":" +:+ toLowerCase address) Hn Ht)
    as [info Hlook].
  { unfold cacheKeys. rewrite Hc, Hlow. left. reflexivity. }
  rewrite Hlook.
  destruct (scoped_hit _ _ _ _ Hwf (colonFreePayload_chain _ _ Hwf Hn)
              (isAddress_regex _ Haddr) Hlook)
    as (n' & t' & c' & Hn' & Ht' & -> & Hc' & Hlow' & Hchain').
  exists n', t', c'. repeat split; auto. congruence.
Qed.

(** X4: a token the payload lists is found on its network, whatever the
    case of the letters of the address asked for: when no network id and no
    contract of the payload holds a colon, the answer is a token the payload
    lists on that network at that address (the last one, when it lists
    several). *)
Theorem listed_token_resolves_on_its_network data network token c address :
  colonFreePayload data = true ->
  In network data -> In token (LayerSwap.tokens network) ->
  contractAddress token = Some c ->
  LayerSwap.chain_id network <> "" ->
  Viem.isAddress address = true -> isNative address = false ->
  toLowerCase address = toLowerCase c ->
  exists network' token' c',
    In network' data /\ In token' (LayerSwap.tokens network')
    /\ LayerSwap.chain_id network' = LayerSwap.chain_id network
    /\ contractAddress token' = Some c'
    /\ toLowerCase c' = toLowerCase c
    /\ resolveToken (buildCache data ∅) address (Some (LayerSwap.chain_id network))
       = Some (tokenInfoOf token').
Proof. apply listed_token_resolves. Qed.

End Resolution.

(** [resolved_token_is_listed_at_the_address] at token B asked for on
    network 10, which does not list it: the answer is the BAR of network 1. *)
Lemma resolved_token_is_listed_at_the_address_witness :
  colonFreePayload Sample.payload = true
  /\ colonFreeId (Some "10") = true
  /\ isNative Sample.tokenB = false
  /\ Registry.resolveToken (H := Sample.host) Sample.cache Sample.tokenB (Some "10")
     = Some (Registry.tokenInfoOf (Sample.lsToken "BAR" (Some Sample.tokenB) 6))
  /\ exists network token c,
       In network Sample.payload /\ In token (LayerSwap.tokens network)
       /\ Registry.tokenInfoOf (Sample.lsToken "BAR" (Some Sample.tokenB) 6)
          = Registry.tokenInfoOf token
       /\ Registry.contractAddress token = Some c
       /\ JsString.toLowerCase c = JsString.toLowerCase Sample.tokenB
       /\ (LayerSwap.chain_id network = "10"
           \/ Sample.cache !! ("10" +:+ ":" +:+ JsString.toLowerCase Sample.tokenB) = None).
Proof.
  assert (Hres : Registry.resolveToken (H := Sample.host) Sample.cache Sample.tokenB (Some "10")
                 = Some (Registry.tokenInfoOf (Sample.lsToken "BAR" (Some Sample.tokenB) 6)))
    by (vm_compute; reflexivity).
  split; [reflexivity |]. split; [reflexivity |]. split; [reflexivity |].
  split; [exact Hres |].
  exact (resolved_token_is_listed_at_the_address (H := Sample.host) Sample.payload
           Sample.tokenB (Some "10") _ eq_refl eq_refl eq_refl Hres).
Defined.

(** [listed_token_resolves_on_its_network] at the FOO of network 1. *)
Lemma listed_token_resolves_on_its_network_witness :
  exists network' token' c',
    In network' Sample.payload /\ In token' (LayerSwap.tokens network')
    /\ LayerSwap.chain_id network' = "1"
    /\ Registry.contractAddress token' = Some c'
    /\ JsString.toLowerCase c' = JsString.toLowerCase Sample.tokenA
    /\ Registry.resolveToken (H := Sample.host) Sample.cache Sample.tokenA (Some "1")
       = Some (Registry.tokenInfoOf token').
Proof.
  apply (listed_token_resolves_on_its_network (H := Sample.host) Sample.payload
           SampleCard.network1 (Sample.lsToken "FOO" (Some Sample.tokenA) 18)
           Sample.tokenA Sample.tokenA).
  - reflexivity.
  - left. reflexivity.
  - right. left. reflexivity.
  - reflexivity.
  - discriminate.
  - vm_compute. reflexivity.
  - reflexivity.
  - reflexivity.
Defined.

(** ** Concurrent callers and the cache they observe *)

Section ConcurrentCallers.
Context `{Host}.
Import Registry JsString.

(** C4: callers that enter [resolveToken] before the fetch has ended share
    one outstanding request, and all of them see the cache this one
    response has filled.  Whatever the sequence of calls and responses, at
    most one request is ever issued, and every answer handed out agrees with
    the cache of the registry at the end of the run; callers that arrive
    while the request is outstanding are queued without being answered and
    without a second request; when the request ends, all of them, and every
    later caller, are answered from the one cache.  When the response is a
    payload, that cache holds what the payload lists and nothing else: an
    entry under a key is a token the payload lists under that key, every key
    the payload lists is present, the networks are the ones of the payload;
    and every caller, queued or later, that asks for the address of a token
    the payload lists on the network it names is answered with a token the
    payload lists there at that address. *)
Theorem single_flight_fetch :
  (forall events, (requests (registry (run start events)) <= 1)%nat)
  /\ (forall events,
        Forall (fun ca => ca = answer (registry (run start events)) (fst ca))
               (answered (run start events)))
  /\ (forall c0 calls,
        let w := run start (Resolve c0 :: map Resolve calls) in
        registry w = pendingState /\ waiting w = c0 :: calls /\ answered w = [])
  /\ (forall c0 calls r later,
        let w := run start (Resolve c0 :: map Resolve calls ++ RequestEnds r :: later) in
        registry w = completeFetch r pendingState
        /\ requests (registry w) = 1%nat
        /\ waiting w = []
        /\ answered w = map (answer (registry w)) (c0 :: calls ++ resolveCalls later))
  /\ (forall c0 calls data later key,
        let w := run start (Resolve c0 :: map Resolve calls
                              ++ RequestEnds (Payload data) :: later) in
        getNetworksData (registry w) = data
        /\ (forall info,
              tokenCache (registry w) !! key = Some info ->
              exists network token,
                In network data /\ In token (LayerSwap.tokens network)
                /\ In key (cacheKeys (LayerSwap.chain_id network) token)
                /\ info = tokenInfoOf token)
        /\ ((exists network token,
               In network data /\ In token (LayerSwap.tokens network)
               /\ In key (cacheKeys (LayerSwap.chain_id network) token))
            -> is_Some (tokenCache (registry w) !! key)))
  /\ (forall c0 calls data later network token c call,
        let w := run start (Resolve c0 :: map Resolve calls
                              ++ RequestEnds (Payload data) :: later) in
        colonFreePayload data = true ->
        In network data -> In token (LayerSwap.tokens network) ->
        LayerSwap.contract token = Some c -> c <> "" ->
        LayerSwap.chain_id network <> "" ->
        In call (c0 :: calls ++ resolveCalls later) ->
        callChain call = Some (LayerSwap.chain_id network) ->
        Viem.isAddress (callAddress call) = true ->
        isNative (callAddress call) = false ->
        toLowerCase (callAddress call) = toLowerCase c ->
        exists network' token' c',
          In network' data /\ In token' (LayerSwap.tokens network')
          /\ LayerSwap.chain_id network' = LayerSwap.chain_id network
          /\ LayerSwap.contract token' = Some c'
          /\ toLowerCase c' = toLowerCase c
          /\ In (call, Ok (Some (tokenInfoOf token'))) (answered w)).
Proof.
  split; [| split; [| split; [| split; [| split]]]].
  - intros events. apply phase_requests, run_phase, start_phase.
  - intros events.
    destruct (run_phase events start start_phase)
      as [_ _ Hans | _ Hans | data _ _ _ _ Hans]; try rewrite Hans; auto.
  - intros c0 calls w. subst w. rewrite run_resolves_pending. auto.
  - apply run_after_response.
  - intros c0 calls data later key w.
    destruct (run_after_response c0 calls (Payload data) later) as (Hreg & _).
    fold w in Hreg. rewrite Hreg.
    change (tokenCache (completeFetch (Payload data) pendingState))
      with (buildCache data ∅).
    split; [reflexivity |]. split.
    + intros info. apply buildCache_sound.
    + intros (n & t & Hn & Ht & Hk). eapply buildCache_written; eauto.
  - intros c0 calls data later network token c call w
      Hwf Hn Ht Hc Hce Hchain Hcall Hasks Haddr Hnative Hlow.
    destruct (run_after_response c0 calls (Payload data) later) as (Hreg & _ & _ & Hans).
    fold w in Hreg, Hans. rewrite Hans, Hreg.
    assert (Hca : contractAddress token = Some c).
    { unfold contractAddress. rewrite Hc.
      apply String.eqb_neq in Hce. rewrite Hce. reflexivity. }
    destruct (listed_token_resolves data network token c (callAddress call)
                Hwf Hn Ht Hca Hchain Haddr Hnative Hlow)
      as (n' & t' & c' & Hn' & Ht' & Hchain' & Hc' & Hlow' & Hres).
    exists n', t', c'. repeat split; auto.
    + unfold contractAddress in Hc'.
      destruct (LayerSwap.contract t') as [x |]; [| discriminate].
      destruct (String.eqb x ""); [discriminate | exact Hc'].
    + apply in_map_iff. exists call. split; [| exact Hcall].
      unfold answer.
      change (tokenCache (completeFetch (Payload data) pendingState))
        with (buildCache data ∅).
      rewrite Hasks, Hres. reflexivity.
Qed.

End ConcurrentCallers.

(** [single_flight_fetch] at fifty callers that ask for token A on network 1
    while the request is outstanding, the response being the sample payload:
    one request, the scoped key of token A in the cache, fifty answers, all
    the FOO of network 1, which is a token the payload lists on that network
    at that address. *)
Lemma single_flight_fetch_witness :
  let call := {| Registry.callAddress := Sample.tokenA; Registry.callChain := Some "1" |} in
  let w := Registry.run (H := Sample.host) Registry.start
             (Registry.Resolve call :: map Registry.Resolve (repeat call 49)
                ++ [Registry.RequestEnds (Registry.Payload Sample.payload)]) in
  Registry.requests (Registry.registry w) = 1%nat
  /\ is_Some (Registry.tokenCache (Registry.registry w) !! ("1:" +:+ Sample.tokenA))
  /\ Registry.answered w
     = repeat (call, Ok (Some (Registry.tokenInfoOf
                                 (Sample.lsToken "FOO" (Some Sample.tokenA) 18)))) 50
  /\ exists network' token' c',
       In network' Sample.payload /\ In token' (LayerSwap.tokens network')
       /\ LayerSwap.chain_id network' = "1"
       /\ LayerSwap.contract token' = Some c'
       /\ JsString.toLowerCase c' = JsString.toLowerCase Sample.tokenA
       /\ In (call, Ok (Some (Registry.tokenInfoOf token'))) (Registry.answered w).
Proof.
  intros call w.
  destruct (single_flight_fetch (H := Sample.host))
    as (_ & _ & _ & Hrun & Hcache & Hcallers).
  destruct (Hrun call (repeat call 49) (Registry.Payload Sample.payload) [])
    as (Hreg & Hreq & _ & Hans).
  destruct (Hcache call (repeat call 49) Sample.payload [] ("1:" +:+ Sample.tokenA))
    as (_ & _ & Hfound).
  split; [exact Hreq |]. split; [| split].
  - apply Hfound.
    exists SampleCard.network1, (Sample.lsToken "FOO" (Some Sample.tokenA) 18).
    split; [left; reflexivity |]. split; [right; left; reflexivity |].
    left. reflexivity.
  - etransitivity; [exact Hans |]. rewrite Hreg. vm_compute. reflexivity.
  - apply (Hcallers call (repeat call 49) Sample.payload [] SampleCard.network1
             (Sample.lsToken "FOO" (Some Sample.tokenA) 18) Sample.tokenA call).
    + reflexivity.
    + left. reflexivity.
    + right. left. reflexivity.
    + reflexivity.
    + discriminate.
    + discriminate.
    + left. reflexivity.
    + reflexivity.
    + vm_compute. reflexivity.
    + reflexivity.
    + reflexivity.
Defined.

(** ** The amount formatter beyond the claims *)

Section AmountFormatter.
Context `{Host}.
Variable cache : gmap string TokenInfo.
Import JsString Js Formatter.

Lemma scaleAmount_bigint_returns n token chain :
  exists text, scaleAmount cache (VBigInt n) (optional token) chain = Ok text.
Proof.
  unfold scaleAmount. destruct token as [t |]; simpl.
  - destruct (negb (String.eqb t "")); simpl.
    + destruct (Registry.resolveToken cache t (orUndefined chain)); simpl; eauto.
    + eauto.
  - eauto.
Qed.

(** X5: called as its signature allows, with a string or a bigint as the
    amount and a string or nothing as the token, the amount formatter never
    throws; a string that is not an integer literal is returned as it is. *)
Theorem amount_formatter_returns_on_strings_and_bigints amount token chain :
  (exists s, amount = VStr s) \/ (exists n, amount = VBigInt n) ->
  exists text,
    formatTokenAmount cache amount (optional token) chain = Ok text
    /\ (forall s e, amount = VStr s -> stringToBigInt s = Throw e -> text = s).
Proof.
  intros [[s ->] | [n ->]].
  - unfold formatTokenAmount. change (isBigNumberLike (VStr s)) with false.
    cbv beta iota. simpl andb. cbv iota.
    destruct (String.eqb s CONTRACT_BALANCE) eqn:Hs.
    + eexists. split; [reflexivity |]. intros s' e Heq Hthrow.
      inversion Heq; subst s'. apply String.eqb_eq in Hs. subst s.
      vm_compute in Hthrow. discriminate.
    + destruct (stringToBigInt s) as [n | e] eqn:Hparse.
      * destruct (scaleAmount_bigint_returns n token chain) as [text ->].
        exists text. split; [reflexivity |].
        intros s' e Heq Hthrow. inversion Heq; subst s'. congruence.
      * exists s. split; [reflexivity |]. intros s' e' Heq _. congruence.
  - unfold formatTokenAmount. change (isBigNumberLike (VBigInt n)) with false.
    cbv beta iota. simpl andb. cbv iota.
    destruct (scaleAmount_bigint_returns n token chain) as [text ->].
    exists text. split; [reflexivity |]. intros s e Heq. discriminate.
Qed.

(** X6: a big-number-like record is formatted as the text of its hex field
    would be, whenever that text is an integer literal: the empty text
    counts as zero in both, and the sentinel gives the marker in both. *)
Theorem record_formats_as_its_hex_text v h n token chain :
  isBigNumberLike v = true ->
  effectiveHex v = VStr h ->
  stringToBigInt h = Ok n ->
  formatTokenAmount cache v token chain = formatTokenAmount cache (VStr h) token chain.
Proof.
  intros Hbn Hhex Hparse. unfold formatTokenAmount. rewrite Hbn.
  change (isBigNumberLike (VStr h)) with false. cbv beta iota. simpl andb.
  fold (effectiveHex v). rewrite Hparse.
  rewrite Hhex. unfold isStr.
  destruct (String.eqb h CONTRACT_BALANCE); [reflexivity |].
  unfold bigNumberToBigInt. fold (effectiveHex v). rewrite Hhex.
  destruct (String.eqb h "") eqn:Hempty.
  - apply String.eqb_eq in Hempty. subst h. simpl.
    vm_compute in Hparse. inversion Hparse. reflexivity.
  - unfold truthy. rewrite Hempty. simpl. unfold toBigInt. simpl toStringJS.
    rewrite Hparse. reflexivity.
Qed.

(** X7: a record whose hex text is not an integer literal is not scaled:
    [BigInt] throws, nothing in the amount formatter catches it, and the
    formatter answers with its fixed error text and the JSON text of the
    record, whatever the registry holds. *)
Theorem record_with_bad_hex_shows_error name v h e chain ctx :
  isBigNumberLike v = true ->
  effectiveHex v = VStr h ->
  stringToBigInt h = Throw e ->
  hasBigInt v = false ->
  exists json,
    JSON_stringify v = Ok (Some json)
    /\ formatValueEnhanced cache name v chain ctx
       = Ok {| formatted := "Error formatting value"; raw := json |}.
Proof.
  intros Hbn Hhex Hthrow Hplain.
  destruct v as [| | b | m | m | s | l | fields]; try discriminate Hbn.
  destruct (JSON_stringify_ok _ Hplain) as [json Hjson].
  assert (Hsome : exists text, json = Some text).
  { unfold JSON_stringify in Hjson. cbn [serialize] in Hjson.
    destruct (mapO _ fields); inversion Hjson. eauto. }
  destruct Hsome as [text ->]. exists text. split; [exact Hjson |].
  rewrite formatValueEnhanced_eq, Hjson. cbn [mbind outcome_bind bindO].
  unfold formatBody. rewrite Hbn. unfold formatTokenAmount. rewrite Hbn.
  simpl andb.
  change (or_else (getField "hex" fields) (getField "_hex" fields))
    with (effectiveHex (VObj fields)).
  rewrite Hhex.
  assert (Hne : String.eqb h CONTRACT_BALANCE = false).
  { destruct (String.eqb_spec h CONTRACT_BALANCE) as [-> |]; [| reflexivity].
    vm_compute in Hthrow. discriminate. }
  assert (Hnz : String.eqb h "" = false).
  { destruct (String.eqb_spec h "") as [-> |]; [| reflexivity].
    vm_compute in Hthrow. discriminate. }
  unfold isStr. rewrite Hne.
  unfold bigNumberToBigInt. fold (effectiveHex (VObj fields)). rewrite Hhex.
  unfold truthy. rewrite Hnz. simpl negb. cbv iota.
  unfold toBigInt. simpl toStringJS. rewrite Hthrow. reflexivity.
Qed.

End AmountFormatter.

(** [amount_formatter_returns_on_strings_and_bigints] at a text that is not
    a number: it is returned as it is. *)
Lemma amount_formatter_returns_on_strings_and_bigints_witness :
  exists text,
    Formatter.formatTokenAmount (H := Sample.host) Sample.cache (VStr "12 apples")
      (optional (Some Sample.tokenA)) (Some "1") = Ok text
    /\ (forall s e, VStr "12 apples" = VStr s -> JsString.stringToBigInt s = Throw e ->
                    text = s).
Proof.
  apply (amount_formatter_returns_on_strings_and_bigints (H := Sample.host) Sample.cache
           (VStr "12 apples") (Some Sample.tokenA) (Some "1")).
  left. exists "12 apples". reflexivity.
Defined.

(** [record_formats_as_its_hex_text] at the record of one million. *)
Lemma record_formats_as_its_hex_text_witness :
  Formatter.isBigNumberLike SampleSwap.million = true
  /\ effectiveHex SampleSwap.million = VStr "0x0f4240"
  /\ JsString.stringToBigInt "0x0f4240" = Ok 1000000
  /\ Formatter.formatTokenAmount (H := Sample.host) Sample.cache SampleSwap.million
       (VStr Sample.tokenB) (Some "1")
     = Formatter.formatTokenAmount (H := Sample.host) Sample.cache (VStr "0x0f4240")
         (VStr Sample.tokenB) (Some "1").
Proof.
  split; [reflexivity |]. split; [reflexivity |]. split; [reflexivity |].
  apply (record_formats_as_its_hex_text (H := Sample.host) Sample.cache SampleSwap.million
           "0x0f4240" 1000000 (VStr Sample.tokenB) (Some "1")); reflexivity.
Defined.

(** [record_with_bad_hex_shows_error] at a record whose hex text has no
    hexadecimal digit. *)
Lemma record_with_bad_hex_shows_error_witness :
  exists json,
    Js.JSON_stringify (VObj [("hex", VStr "0xzz")]) = Ok (Some json)
    /\ Formatter.formatValueEnhanced (H := Sample.host) Sample.cache (VStr "amount")
         (VObj [("hex", VStr "0xzz")]) (Some "1") VUndefined
       = Ok {| formatted := "Error formatting value"; raw := json |}.
Proof.
  apply (record_with_bad_hex_shows_error (H := Sample.host) Sample.cache (VStr "amount")
           (VObj [("hex", VStr "0xzz")]) "0xzz" SyntaxError (Some "1") VUndefined);
    reflexivity.
Defined.

(** ** Paths, lists of addresses and swap descriptors *)

Section Paths.
Context `{Host}.
Variable cache : gmap string TokenInfo.
Import JsString Js Formatter.

Lemma prop_defined v k : isNullish v = false -> prop v k = Ok (get v k).
Proof. destruct v; try reflexivity; discriminate. Qed.

Lemma prop_nullish v k : isNullish v = true -> prop v k = Throw TypeError.
Proof. destruct v; try reflexivity; discriminate. Qed.

Lemma formatV4Hops_filter path chain :
  existsb isNullish path = false ->
  formatV4Hops cache path chain = formatV4Hops cache (List.filter namesCurrency path) chain.
Proof.
  induction path as [| hop path IH]; [reflexivity |].
  simpl existsb. intros Hnn. apply orb_false_elim in Hnn as [Hhop Hrest].
  cbn [List.filter formatV4Hops]. unfold namesCurrency at 1.
  rewrite (prop_defined hop "intermediateCurrency" Hhop).
  cbn [mbind outcome_bind bindO].
  destruct (truthy (get hop "intermediateCurrency")) eqn:Hc.
  - cbn [formatV4Hops]. rewrite (prop_defined hop "intermediateCurrency" Hhop).
    cbn [mbind outcome_bind bindO].
    rewrite Hc, (IH Hrest). reflexivity.
  - apply IH, Hrest.
Qed.

(** X8: in a path of intermediate currencies, a hop that names no currency
    contributes nothing to the text: the path renders as the path of its
    other hops, and as the empty text when no hop names a currency. *)
Theorem hops_without_currency_are_skipped path chain :
  existsb isNullish path = false ->
  formatV4Path cache path chain = formatV4Path cache (List.filter namesCurrency path) chain
  /\ (List.filter namesCurrency path = [] -> formatV4Path cache path chain = Ok "").
Proof.
  intros Hnn. unfold formatV4Path. rewrite (formatV4Hops_filter _ _ Hnn).
  split; [reflexivity |]. intros ->. reflexivity.
Qed.

Lemma formatV4Hops_nullish path chain :
  existsb isNullish path = true -> exists e, formatV4Hops cache path chain = Throw e.
Proof.
  induction path as [| hop path IH]; [discriminate |].
  simpl existsb. intros Hnn. cbn [formatV4Hops].
  destruct (isNullish hop) eqn:Hhop.
  - rewrite (prop_nullish hop "intermediateCurrency" Hhop). eexists. reflexivity.
  - rewrite (prop_defined hop "intermediateCurrency" Hhop). cbn [mbind outcome_bind bindO].
    simpl in Hnn. destruct (IH Hnn) as [e He].
    destruct (truthy (get hop "intermediateCurrency")).
    + destruct (Registry.resolveTokenAny cache _ _) as [token | e1];
        [| eexists; reflexivity].
      cbn [mbind outcome_bind bindO].
      destruct (symbolOr token (Ok "Unknown")) as [sym | e2]; [| eexists; reflexivity].
      cbn [mbind outcome_bind bindO].
      destruct (feeNote hop) as [fee | e3]; [| eexists; reflexivity].
      cbn [mbind outcome_bind bindO]. rewrite He. eexists. reflexivity.
    + eauto.
Qed.

Lemma shortAddress_text s : shortAddress (VStr s) = Ok (shortText s).
Proof. reflexivity. Qed.

Lemma formatV2Tokens_labels addrs chain :
  formatV2Tokens cache (map VStr addrs) chain = Ok (map (addressLabel cache chain) addrs).
Proof.
  induction addrs as [| a addrs IH]; [reflexivity |].
  cbn [map formatV2Tokens]. rewrite IH. unfold Registry.resolveTokenAny.
  cbn [mbind outcome_bind bindO]. unfold addressLabel.
  destruct (Registry.resolveToken cache a (orUndefined chain)) as [info |]; simpl.
  - destruct (String.eqb (symbol info) ""); reflexivity.
  - reflexivity.
Qed.

Lemma JSON_stringify_strings addrs :
  exists json, JSON_stringify (VArr (map VStr addrs)) = Ok (Some json).
Proof.
  destruct (JSON_stringify_ok (VArr (map VStr addrs))) as [json Hjson].
  { simpl. induction addrs; [reflexivity | exact IHaddrs]. }
  unfold JSON_stringify in *. cbn [serialize] in *.
  destruct (mapO _ (map VStr addrs)); inversion Hjson. eauto.
Qed.

(** X9: a list of texts that look like addresses renders as a path: one
    label per element, joined by arrows: the symbol when the registry knows
    the address, else the first six and last four characters, also for a
    text that is not a valid address.  No element makes it fail. *)
Theorem address_list_renders_as_path name addrs chain ctx :
  addrs <> [] ->
  forallb looksLikeAddress addrs = true ->
  exists json,
    JSON_stringify (VArr (map VStr addrs)) = Ok (Some json)
    /\ formatValueEnhanced cache name (VArr (map VStr addrs)) chain ctx
       = Ok {| formatted := join (" " +:+ arrow +:+ " ") (map (addressLabel cache chain) addrs);
               raw := json |}.
Proof.
  intros Hne Hall. destruct (JSON_stringify_strings addrs) as [json Hjson].
  exists json. split; [exact Hjson |].
  rewrite formatValueEnhanced_eq, Hjson. cbn [mbind outcome_bind bindO].
  destruct addrs as [| a addrs]; [contradiction |].
  unfold formatBody. change (isBigNumberLike (VArr _)) with false. cbv beta iota.
  cbn [map]. cbn [forallb]. change (isNamedField (VStr a)) with false.
  cbn [andb]. unfold formatPathArray.
  assert (Htest : forallb isAddressText (VStr a :: map VStr addrs) = true).
  { change (VStr a :: map VStr addrs) with (map VStr (a :: addrs)).
    clear -Hall. induction (a :: addrs) as [| x l IH]; [reflexivity |].
    cbn [forallb map] in *. apply andb_true_iff in Hall as [Hx Hl].
    change (isAddressText (VStr x)) with (looksLikeAddress x).
    rewrite Hx. apply IH, Hl. }
  rewrite Htest. unfold formatV2Path.
  change (VStr a :: map VStr addrs) with (map VStr (a :: addrs)).
  rewrite formatV2Tokens_labels. reflexivity.
Qed.

Lemma append_length a b :
  String.length (a +:+ b) = (String.length a + String.length b)%nat.
Proof.
  rewrite <- !chars_length, chars_append, length_app. reflexivity.
Qed.

Lemma shortText_length s :
  (10 <= String.length s)%nat -> String.length (shortText s) = 13%nat.
Proof.
  intros Hlen. unfold shortText, slice, sliceList.
  rewrite !append_length, !text_length, !length_firstn, !length_skipn, !chars_length.
  unfold clampIndex.
  change (6 <? 0) with false. change (0 <? 0) with false. change (-4 <? 0) with true.
  cbv iota. change (Z.to_nat 0) with 0%nat. change (Z.to_nat 6) with 6%nat.
  simpl String.length. lia.
Qed.

(** *** Swap descriptors *)

Lemma amountLine_falsy label amount token chain :
  truthy amount = false -> amountLine cache label amount token chain = Ok [].
Proof. unfold amountLine. intros ->. reflexivity. Qed.

Lemma currencyLines_falsy label currency chain :
  truthy currency = false -> currencyLines cache label currency chain = Ok [].
Proof. unfold currencyLines. intros ->. reflexivity. Qed.

Lemma firstHopCurrency_silent obj :
  silentPath (get obj "path") = true -> exists v, firstHopCurrency obj = Ok v.
Proof.
  unfold firstHopCurrency, silentPath.
  destruct (get obj "path") as [| | b | n | n | s | hops | fields]; eauto.
  destruct hops as [| hop hops]; eauto.
  simpl. intros Hs. apply andb_true_iff in Hs as [Hnn _].
  apply negb_true_iff, orb_false_elim in Hnn as [Hhop _].
  rewrite (prop_defined hop "intermediateCurrency" Hhop). eauto.
Qed.

Lemma filter_none hops :
  forallb (fun hop => negb (namesCurrency hop)) hops = true ->
  List.filter namesCurrency hops = [].
Proof.
  induction hops as [| hop hops IH]; [reflexivity |].
  simpl. intros Hall. apply andb_true_iff in Hall as [Hhop Hrest].
  apply negb_true_iff in Hhop. rewrite Hhop. apply IH, Hrest.
Qed.

Lemma pathLines_silent obj chain :
  silentPath (get obj "path") = true -> pathLines cache obj chain = Ok [].
Proof.
  unfold pathLines, silentPath.
  destruct (get obj "path") as [| | b | n | n | s | hops | fields]; try reflexivity.
  intros Hs. apply andb_true_iff in Hs as [Hnn Hnone].
  apply negb_true_iff in Hnn.
  unfold formatV4Path. rewrite (formatV4Hops_filter _ _ Hnn), (filter_none _ Hnone).
  reflexivity.
Qed.

Lemma formatSwapObject_placeholder obj chain :
  hasNoContent obj = true ->
  formatSwapObject cache obj chain = "Swap Details".
Proof.
  unfold hasNoContent. intros Hno.
  repeat (apply andb_true_iff in Hno as [Hno ?]).
  repeat match goal with
         | Hx : negb _ = true |- _ => apply negb_true_iff in Hx
         end.
  unfold formatSwapObject, swapParts.
  destruct (firstHopCurrency_silent obj) as [implied ->]; [assumption |].
  cbn [mbind outcome_bind bindO].
  rewrite !currencyLines_falsy by assumption. cbn [mbind outcome_bind bindO].
  rewrite (amountLine_falsy "Amount In: ") by assumption.
  cbn [mbind outcome_bind bindO].
  rewrite (amountLine_falsy "Amount Out: ") by assumption.
  cbn [mbind outcome_bind bindO].
  rewrite (amountLine_falsy "Min Out: ") by assumption.
  cbn [mbind outcome_bind bindO].
  rewrite pathLines_silent by assumption. reflexivity.
Qed.

Lemma pathLines_nullish obj hops chain :
  get obj "path" = VArr hops -> existsb isNullish hops = true ->
  exists e, pathLines cache obj chain = Throw e.
Proof.
  intros Hpath Hnn. unfold pathLines, formatV4Path. rewrite Hpath.
  destruct (formatV4Hops_nullish _ chain Hnn) as [e ->]. eexists. reflexivity.
Qed.

Lemma formatSwapObject_null_hop obj hops chain :
  get obj "path" = VArr hops ->
  existsb isNullish hops = true ->
  formatSwapObject cache obj chain = "Error formatting swap details".
Proof.
  intros Hpath Hnn. destruct (pathLines_nullish _ _ chain Hpath Hnn) as [e He].
  unfold formatSwapObject, swapParts. rewrite He.
  destruct (firstHopCurrency obj); [| reflexivity]. cbn [mbind outcome_bind bindO].
  destruct (currencyLines cache "From: " _ chain); [| reflexivity].
  cbn [mbind outcome_bind bindO].
  destruct (currencyLines cache "To: " _ chain); [| reflexivity].
  cbn [mbind outcome_bind bindO].
  destruct (amountLine cache "Amount In: " _ _ chain); [| reflexivity].
  cbn [mbind outcome_bind bindO].
  destruct (amountLine cache "Amount Out: " _ _ chain); [| reflexivity].
  cbn [mbind outcome_bind bindO].
  destruct (amountLine cache "Min Out: " _ _ chain); reflexivity.
Qed.

(** X10: one hop that is [null] or [undefined] in the path of a swap
    descriptor replaces the whole text by the error text, whatever the other
    fields hold and whatever the registry answers. *)
Theorem swap_with_null_hop_shows_error obj hops chain :
  get obj "path" = VArr hops ->
  existsb isNullish hops = true ->
  formatSwapObject cache obj chain = "Error formatting swap details".
Proof. apply formatSwapObject_null_hop. Qed.

End Paths.

(** [hops_without_currency_are_skipped] at a path whose second hop names no
    currency. *)
Lemma hops_without_currency_are_skipped_witness :
  Formatter.formatV4Path (H := Sample.host) Sample.cache
    [VObj [("intermediateCurrency", VStr Sample.tokenB)]; VObj [("fee", VNum 500)]] (Some "1")
  = Formatter.formatV4Path (H := Sample.host) Sample.cache
      [VObj [("intermediateCurrency", VStr Sample.tokenB)]] (Some "1").
Proof.
  apply (hops_without_currency_are_skipped (H := Sample.host) Sample.cache
           [VObj [("intermediateCurrency", VStr Sample.tokenB)]; VObj [("fee", VNum 500)]]
           (Some "1")).
  reflexivity.
Defined.

(** [address_list_renders_as_path] at the list of tokens A and B. *)
Lemma address_list_renders_as_path_witness :
  exists json,
    Js.JSON_stringify (VArr (map VStr [Sample.tokenA; Sample.tokenB])) = Ok (Some json)
    /\ Formatter.formatValueEnhanced (H := Sample.host) Sample.cache (VStr "path")
         (VArr (map VStr [Sample.tokenA; Sample.tokenB])) (Some "1") VUndefined
       = Ok {| formatted :=
                 JsString.join (" " +:+ Formatter.arrow +:+ " ")
                   (map (addressLabel (H := Sample.host) Sample.cache (Some "1"))
                        [Sample.tokenA; Sample.tokenB]);
               raw := json |}.
Proof.
  apply (address_list_renders_as_path (H := Sample.host) Sample.cache (VStr "path")
           [Sample.tokenA; Sample.tokenB] (Some "1") VUndefined).
  - discriminate.
  - reflexivity.
Defined.

(** [swap_with_null_hop_shows_error] at a descriptor whose path holds
    [null]. *)
Lemma swap_with_null_hop_shows_error_witness :
  Formatter.formatSwapObject (H := Sample.host) Sample.cache
    (VObj [("currencyIn", VStr Sample.tokenA); ("path", VArr [VNull])]) (Some "1")
  = "Error formatting swap details".
Proof.
  apply (swap_with_null_hop_shows_error (H := Sample.host) Sample.cache
           (VObj [("currencyIn", VStr Sample.tokenA); ("path", VArr [VNull])])
           [VNull] (Some "1")); reflexivity.
Defined.

(** ** The basic formatter *)

Section BasicFacts.
Context `{Host}.
Import JsString Js JsText BasicFormatter.

Lemma addressRegex_length s : Viem.addressRegex s = true -> String.length s = 42%nat.
Proof.
  intros Hrx. destruct (addressRegex_shape _ Hrx) as [Hlen _].
  rewrite toLowerCase_length in Hlen. exact Hlen.
Qed.

Lemma isAddress_length s : Viem.isAddress s = true -> String.length s = 42%nat.
Proof. intros Ha. apply addressRegex_length, isAddress_regex, Ha. Qed.

Lemma formatAddress_other s : Viem.isAddress s = false -> formatAddress s = s.
Proof. unfold formatAddress. intros ->. reflexivity. Qed.

Lemma isAddress_short s : String.length s <> 42%nat -> Viem.isAddress s = false.
Proof.
  intros Hlen. destruct (Viem.isAddress s) eqn:Ha; [| reflexivity].
  apply isAddress_length in Ha. contradiction.
Qed.

(** X11: [formatAddress] is idempotent: what it returns for an address, a
    name or a shortened form of thirteen characters, is not an address, and
    what is not an address is returned as it is. *)
Theorem formatAddress_idempotent address :
  formatAddress (formatAddress address) = formatAddress address.
Proof.
  destruct (Viem.isAddress address) eqn:Ha.
  - apply formatAddress_other. unfold formatAddress. rewrite Ha. simpl negb. cbv iota.
    repeat match goal with
           | |- context [if String.eqb address ?k then _ else _] =>
               destruct (String.eqb address k);
               [apply isAddress_short; discriminate |]
           end.
    apply isAddress_short. apply isAddress_length in Ha.
    fold (shortText address). rewrite shortText_length by lia. discriminate.
  - rewrite (formatAddress_other _ Ha). apply formatAddress_other, Ha.
Qed.

Lemma numeral_digits n : numeral (text (digits 10 n)) = n.
Proof.
  induction n as [n Hn | n Hn IH] using (digits_ind 10 ltac:(lia) ltac:(lia)).
  - rewrite (digits_small 10) by lia. rewrite numeral_text. cbn [fold_left].
    destruct (digitChar_decimal n Hn) as [_ ->]. reflexivity.
  - rewrite (digits_large 10) by lia. rewrite numeral_app, IH, numeral_text.
    cbn [fold_left length].
    destruct (digitChar_decimal (n mod 10)) as [_ ->]; [apply N.mod_lt; lia |].
    change (10 ^ N.of_nat 1)%N with 10%N.
    pose proof (N.div_mod n 10 ltac:(lia)). lia.
Qed.

Lemma formatAmount_bigint z d :
  formatAmount (VBigInt z) d = Ok (Viem.formatUnits (decimal z) (default 18%nat d)).
Proof. reflexivity. Qed.

Lemma formatAmount_decimal z d :
  formatAmount (VStr (decimal z)) d = Ok (Viem.formatUnits (decimal z) (default 18%nat d)).
Proof.
  unfold formatAmount. rewrite stringToBigInt_decimal. reflexivity.
Qed.

Lemma Forall_strip l :
  Forall (fun c => isDecimalDigit c = true) l ->
  Forall (fun c => isDecimalDigit c = true) (stripTrailingZeros l).
Proof.
  intros Hl. destruct (stripTrailingZeros_spec l) as [z Hz].
  rewrite Hz in Hl. apply Forall_app in Hl as [Hl _]. exact Hl.
Qed.

(** X12: [formatAmount] loses no digit.  For a non-negative integer, given
    as a bigint or as its decimal text, the result is a whole part and, when
    the remainder is not zero, a point and a fraction without trailing zeros;
    together they denote the integer exactly, at any number of decimals
    (18 when none is given). *)
Theorem formatAmount_is_exact n decimals :
  let d := default 18%nat decimals in
  exists whole frac : string,
    formatAmount (VBigInt (Z.of_N n)) decimals
    = Ok (whole +:+ (if String.eqb frac "" then "" else "." +:+ frac))
    /\ formatAmount (VStr (decimal (Z.of_N n))) decimals
       = formatAmount (VBigInt (Z.of_N n)) decimals
    /\ (String.length frac <= d)%nat
    /\ Forall (fun c => isDecimalDigit c = true) (chars frac)
    /\ (numeral whole * 10 ^ N.of_nat d
        + numeral frac * 10 ^ N.of_nat (d - String.length frac) = n)%N
    /\ (frac <> "" -> (numeral frac mod 10 <> 0)%N).
Proof.
  intros d.
  exists (text (digits 10 (n / 10 ^ N.of_nat d))),
         (text (stripTrailingZeros (lastDigits d n))).
  rewrite formatAmount_decimal, formatAmount_bigint. fold d.
  rewrite decimal_of_N, formatUnits_digits, text_eqb_empty.
  split; [destruct (stripTrailingZeros (lastDigits d n)); reflexivity |].
  split; [reflexivity |].
  destruct (stripTrailingZeros_spec (lastDigits d n)) as [z Hz].
  pose proof (lastDigits_length d n) as Hlen.
  rewrite Hz, length_app, repeat_length in Hlen.
  rewrite text_length, chars_text.
  split; [lia |].
  split; [apply Forall_strip, lastDigits_decimal |].
  split.
  - rewrite numeral_digits.
    pose proof (numeral_lastDigits d n) as Hnum.
    rewrite Hz, numeral_app, numeral_zeros, repeat_length in Hnum.
    replace (d - length (stripTrailingZeros (lastDigits d n)))%nat with z by lia.
    pose proof (N.div_mod n (10 ^ N.of_nat d)) as Hdm.
    assert (10 ^ N.of_nat d <> 0)%N by (apply N.pow_nonzero; lia).
    lia.
  - intros Hne. unfold stripTrailingZeros in *.
    pose proof (Forall_strip _ (lastDigits_decimal d n)) as Hdec.
    unfold stripTrailingZeros in Hdec.
    destruct (dropLeadingZeros (rev (lastDigits d n))) as [| c l] eqn:Hdrop;
      [exfalso; apply Hne; reflexivity |].
    assert (Hc : Ascii.eqb c "0" = false).
    { clear -Hdrop. induction (rev (lastDigits d n)) as [| x k IH]; [discriminate |].
      simpl in Hdrop. destruct (Ascii.eqb x "0") eqn:Hx; [apply IH, Hdrop |].
      inversion Hdrop; subst. exact Hx. }
    simpl rev in *. rewrite numeral_app. cbn [length].
    change (10 ^ N.of_nat 1)%N with 10%N.
    apply Forall_app in Hdec as [_ Hc10]. apply Forall_cons_1 in Hc10 as [Hc10 _].
    assert (Hlast : numeral (text [c]) = (code c - 48)%N) by reflexivity.
    rewrite Hlast, N.add_comm, N.Div0.mod_add.
    unfold isDecimalDigit in Hc10. apply andb_prop in Hc10 as [Hlo Hhi].
    apply N.leb_le in Hlo, Hhi.
    rewrite N.mod_small by lia.
    intros Hzero. assert (Hcode : code c = 48%N) by lia.
    assert (c = "0"%char).
    { unfold code in Hcode. rewrite <- (ascii_N_embedding c), Hcode. reflexivity. }
    subst c. discriminate Hc.
Qed.

Lemma startsWith_0x_digits l :
  Forall (fun c => isDecimalDigit c = true) l -> startsWith "0x" (text l) = false.
Proof.
  intros Hl. destruct l as [| c0 [| c1 l]]; [reflexivity | |].
  - destruct c0 as [[] [] [] [] [] [] [] []]; reflexivity.
  - apply Forall_cons_1 in Hl as [_ Hl]. apply Forall_cons_1 in Hl as [Hc1 _].
    destruct c0 as [[] [] [] [] [] [] [] []]; try reflexivity.
    destruct c1 as [[] [] [] [] [] [] [] []]; try reflexivity.
    discriminate Hc1.
Qed.

Lemma isDigits_digits n : isDigits (text (digits 10 n)) = true.
Proof.
  unfold isDigits. rewrite text_eqb_empty, chars_text.
  pose proof (digits_nonempty 10 ltac:(lia) ltac:(lia) n) as Hne.
  destruct (digits 10 n) eqn:Hd; [contradiction |]. rewrite <- Hd.
  apply forallb_forall. intros c Hin.
  pose proof (digits_decimal n) as Hdec. rewrite List.Forall_forall in Hdec.
  apply Hdec, Hin.
Qed.

(** X13: under a parameter name that contains [amount] or [value], in any
    case of letters, a non-negative integer is shown in units of 18 decimals
    followed by the integer itself in Wei, and the same text results from
    the bigint and from its decimal text. *)
Theorem wei_amount_shows_units_and_wei name n :
  isAmountName name = true ->
  formatValue name (VBigInt (Z.of_N n))
  = Ok (Viem.formatUnits (decimal (Z.of_N n)) 18
        +:+ " (" +:+ decimal (Z.of_N n) +:+ " Wei)")
  /\ formatValue name (VStr (decimal (Z.of_N n))) = formatValue name (VBigInt (Z.of_N n)).
Proof.
  intros Hname. split.
  - cbn [formatValue]. rewrite Hname. unfold formatWei.
    rewrite formatAmount_bigint. reflexivity.
  - cbn [formatValue]. rewrite Hname. unfold formatWei.
    rewrite formatAmount_bigint, formatAmount_decimal.
    rewrite decimal_of_N, (startsWith_0x_digits _ (digits_decimal n)), isDigits_digits.
    cbn [andb]. cbn [toStringJS]. rewrite decimal_of_N. reflexivity.
Qed.

Lemma formatAmount_string s d : exists text, formatAmount (VStr s) d = Ok text.
Proof.
  unfold formatAmount. destruct (stringToBigInt s); simpl; eauto.
Qed.

Lemma Forall_plain (Q : Value -> Prop) l :
  Forall (fun v => hasBigInt v = false -> Q v) l ->
  existsb hasBigInt l = false -> Forall Q l.
Proof.
  induction 1 as [| x l Hx _ IH]; intros Hplain; constructor.
  - apply Hx. simpl in Hplain. apply orb_false_elim in Hplain. tauto.
  - apply IH. simpl in Hplain. apply orb_false_elim in Hplain. tauto.
Qed.

(** X14: the basic formatter throws on nothing but the serialisation of an
    object: for a value that holds no bigint it returns a text, under any
    parameter name. *)
Theorem formatValue_returns name value :
  hasBigInt value = false -> exists text, formatValue name value = Ok text.
Proof.
  induction value as [| | b | n | n | s | items IH | fields IH] using Value_induction;
    intros Hplain; try (eexists; reflexivity); try discriminate Hplain.
  - cbn [formatValue].
    destruct (startsWith "0x" s && (len s =? 42)%nat); [eexists; reflexivity |].
    destruct (isAmountName name && isDigits s); [| eexists; reflexivity].
    unfold formatWei. destruct (formatAmount_string s None) as [text ->].
    eexists. reflexivity.
  - destruct items as [| item items]; [eexists; reflexivity |].
    cbn [formatValue]. destruct (forallb isHexText (item :: items)); [eexists; reflexivity |].
    assert (Hparts : exists parts, mapO (formatValue name) (item :: items) = Ok parts).
    { apply mapO_ok. apply (Forall_plain _ _ IH). exact Hplain. }
    destruct Hparts as [parts ->]. eexists. reflexivity.
  - cbn [formatValue]. destruct (JSON_stringify_ok _ Hplain) as [json ->].
    eexists. reflexivity.
Qed.

End BasicFacts.

(** [wei_amount_shows_units_and_wei] at the name [amountIn] and 1500000. *)
Lemma wei_amount_shows_units_and_wei_witness :
  BasicFormatter.formatValue (H := Sample.host) "amountIn" (VBigInt 1500000)
  = Ok "0.0000000000015 (1500000 Wei)"
  /\ BasicFormatter.formatValue (H := Sample.host) "amountIn" (VStr "1500000")
     = BasicFormatter.formatValue (H := Sample.host) "amountIn" (VBigInt 1500000).
Proof.
  apply (wei_amount_shows_units_and_wei (H := Sample.host) "amountIn" 1500000).
  reflexivity.
Defined.

(** [formatValue_returns] at a swap descriptor. *)
Lemma formatValue_returns_witness :
  exists text,
    BasicFormatter.formatValue (H := Sample.host) "params" SampleSwap.explicitOut = Ok text.
Proof.
  apply (formatValue_returns (H := Sample.host) "params" SampleSwap.explicitOut).
  reflexivity.
Defined.

(** ** From the input form to the parser *)

Section Pipeline.
Variable sdkParseCalldata : string -> Parser.SdkResult.
Import JsString JsText.

Lemma trimStart_app l c t :
  isWhiteSpace c = false -> trimStart (l ++ c :: t) = trimStart l ++ c :: t.
Proof.
  intros Hc. induction l as [| w l IH]; simpl.
  - rewrite Hc. reflexivity.
  - destruct (isWhiteSpace w); [exact IH | reflexivity].
Qed.

Lemma startsWith_0x s :
  startsWith "0x" s = true -> exists rest, chars s = "0"%char :: "x"%char :: rest.
Proof.
  destruct s as [| c0 [| c1 rest]].
  - discriminate.
  - destruct c0 as [[] [] [] [] [] [] [] []]; discriminate.
  - destruct c0 as [[] [] [] [] [] [] [] []]; try discriminate.
    destruct c1 as [[] [] [] [] [] [] [] []]; try discriminate.
    intros _. eexists. reflexivity.
Qed.

Lemma trimText_0x s :
  startsWith "0x" s = true -> startsWith "0x" (trimText s) = true.
Proof.
  intros Hs. destruct (startsWith_0x s Hs) as [rest Hrest].
  unfold trimText, trim. rewrite Hrest.
  change (trimStart ("0"%char :: "x"%char :: rest)) with ("0"%char :: "x"%char :: rest).
  change (rev ("0"%char :: "x"%char :: rest)) with ((rev rest ++ ["x"%char]) ++ ["0"%char]).
  rewrite <- app_assoc. change (["x"%char] ++ ["0"%char]) with ["x"%char; "0"%char].
  rewrite trimStart_app by reflexivity.
  rewrite rev_app_distr. reflexivity.
Qed.

(** X15: what the input form hands on is accepted by the guard of the
    parser.  A text the form forwards is the trimmed input, is not empty and
    starts with [0x], so that the parser's own message about the prefix is
    never the answer to it: whether the parse succeeds is decided by the SDK
    alone, and its commands are handed back in the shape of [src/types]. *)
Theorem forwarded_calldata_reaches_the_sdk typed calldata :
  snd (CalldataInput.handleParse typed) = Some calldata ->
  calldata = trimText typed
  /\ calldata <> ""
  /\ startsWith "0x" calldata = true
  /\ (forall decoded,
        sdkParseCalldata calldata = Parser.Parsed decoded ->
        Parser.parseCalldata sdkParseCalldata calldata
        = {| Parser.success := true;
             Parser.commands := Some (map Parser.toCommand decoded);
             Parser.error := None |})
  /\ (forall thrown,
        sdkParseCalldata calldata = Parser.Throws thrown ->
        Parser.success (Parser.parseCalldata sdkParseCalldata calldata) = false
        /\ Parser.error (Parser.parseCalldata sdkParseCalldata calldata)
           = Some (match thrown with
                   | Parser.ErrorObject message => message
                   | Parser.OtherValue => "Unknown error occurred"
                   end)).
Proof.
  unfold CalldataInput.handleParse.
  destruct (String.eqb (trimText typed) "") eqn:Hempty; [discriminate |].
  destruct (startsWith "0x" typed) eqn:Hprefix; [| discriminate].
  simpl. intros Heq. inversion Heq; subst calldata. clear Heq.
  pose proof (trimText_0x typed Hprefix) as Htrim.
  split; [reflexivity |].
  split; [apply String.eqb_neq, Hempty |].
  split; [exact Htrim |].
  unfold Parser.parseCalldata. rewrite Hempty, Htrim. simpl.
  split.
  - intros decoded ->. reflexivity.
  - intros thrown ->. destruct thrown; split; reflexivity.
Qed.

(** X16: whatever text it is given and whatever the SDK does, [handleParse]
    of the application ends not loading, with either the commands the SDK
    decoded and no error, or no command and an error message that is not
    empty. *)
Theorem parse_ends_with_commands_or_a_message calldata st :
  let st' := App.handleParse sdkParseCalldata calldata st in
  App.loading st' = false
  /\ ((App.error st' = None
       /\ exists decoded, sdkParseCalldata calldata = Parser.Parsed decoded
                          /\ App.commands st' = map Parser.toCommand decoded)
      \/ (App.commands st' = []
          /\ exists message, App.error st' = Some message /\ message <> "")).
Proof.
  unfold App.handleParse, Parser.parseCalldata.
  destruct (String.eqb calldata "" || negb (startsWith "0x" calldata)).
  - simpl. split; [reflexivity |]. right. split; [reflexivity |].
    eexists. split; [reflexivity | discriminate].
  - destruct (sdkParseCalldata calldata) as [decoded | [message |]]; simpl.
    + split; [reflexivity |]. left. eauto.
    + split; [reflexivity |]. right. split; [reflexivity |].
      destruct (String.eqb_spec message "") as [-> | Hne].
      * eexists. split; [reflexivity | discriminate].
      * eexists. split; [reflexivity | exact Hne].
    + split; [reflexivity |]. right. split; [reflexivity |].
      eexists. split; [reflexivity | discriminate].
Qed.

End Pipeline.

(** [forwarded_calldata_reaches_the_sdk] at a text with a trailing space. *)
Lemma forwarded_calldata_reaches_the_sdk_witness :
  snd (CalldataInput.handleParse "0x3593564c ") = Some "0x3593564c"
  /\ "0x3593564c" = JsText.trimText "0x3593564c "
  /\ Parser.success (Parser.parseCalldata SampleCard.emptySdk "0x3593564c") = true.
Proof.
  assert (Hsent : snd (CalldataInput.handleParse "0x3593564c ") = Some "0x3593564c")
    by reflexivity.
  destruct (forwarded_calldata_reaches_the_sdk SampleCard.emptySdk "0x3593564c "
              "0x3593564c" Hsent) as (Htrim & _ & _ & Hparsed & _).
  split; [exact Hsent |]. split; [exact Htrim |].
  rewrite (Hparsed [] eq_refl). reflexivity.
Defined.

(** ** The command card *)

(** A value that holds a native bigint does not serialise. *)
Lemma serialize_throws v : forall indent,
  hasBigInt v = true -> Js.serialize indent v = Throw TypeError.
Proof.
  induction v as [| | b | n | n | s | items IH | fields IH] using Value_induction;
    intros indent Hv; try discriminate Hv; [reflexivity | |].
  - cbn [Js.serialize].
    assert (Hparts :
              mapO (fun x => o ← Js.serialize (indent +:+ "  ") x; Ok (default "null" o)) items
              = Throw TypeError).
    { simpl in Hv. clear -IH Hv. induction IH as [| x l Hx _ IHl]; [discriminate |].
      simpl in Hv. simpl. destruct (hasBigInt x) eqn:Hxb.
      - rewrite (Hx _ eq_refl). reflexivity.
      - destruct (serialize_ok x (indent +:+ "  ") Hxb) as [o ->]. simpl.
        rewrite (IHl Hv). reflexivity. }
    rewrite Hparts. reflexivity.
  - cbn [Js.serialize].
    assert (Hparts :
              mapO (fun kx => o ← Js.serialize (indent +:+ "  ") (snd kx);
                              Ok (option_map (Js.member (fst kx)) o)) fields
              = Throw TypeError).
    { simpl in Hv. clear -IH Hv. induction IH as [| x l Hx _ IHl]; [discriminate |].
      simpl in Hv. simpl. destruct (hasBigInt (snd x)) eqn:Hxb.
      - rewrite (Hx _ eq_refl). reflexivity.
      - destruct (serialize_ok (snd x) (indent +:+ "  ") Hxb) as [o ->]. simpl.
        rewrite (IHl Hv). reflexivity. }
    rewrite Hparts. reflexivity.
Qed.

Lemma JSON_stringify_throws v :
  hasBigInt v = true -> Js.JSON_stringify v = Throw TypeError.
Proof. apply serialize_throws. Qed.

Section Card.
Context `{Host}.
Variable cache : gmap string TokenInfo.
Import JsString Js.

Lemma basicParam_throws param :
  holdsBigInt param = true -> exists e, CommandCard.basicParam param = Throw e.
Proof.
  unfold holdsBigInt, CommandCard.basicParam. intros Hb.
  destruct (BasicFormatter.formatValue _ _); [| eexists; reflexivity].
  cbn [mbind outcome_bind bindO]. rewrite (JSON_stringify_throws _ Hb).
  eexists. reflexivity.
Qed.

Lemma enhanceParam_throws chainId param :
  holdsBigInt param = true ->
  exists e, CommandCard.enhanceParam cache chainId param = Throw e.
Proof.
  intros Hb. unfold CommandCard.enhanceParam.
  rewrite (formatValueEnhanced_throws cache _ _ _ _ TypeError)
    by (apply JSON_stringify_throws, Hb).
  apply basicParam_throws, Hb.
Qed.

Lemma enhanceParam_returns chainId param :
  holdsBigInt param = false ->
  exists result,
    Formatter.formatValueEnhanced cache (VStr (Parser.name param)) (Parser.value param)
      chainId VUndefined = Ok result
    /\ CommandCard.enhanceParam cache chainId param
       = Ok {| CommandCard.name := Parser.name param;
               CommandCard.value := Parser.value param;
               CommandCard.formatted := formatted result;
               CommandCard.raw := Some (raw result) |}.
Proof.
  intros Hb. destruct (JSON_stringify_ok _ Hb) as [json Hjson].
  destruct (formatValueEnhanced_returns cache (VStr (Parser.name param)) _ chainId VUndefined
              json Hjson) as [result Hres].
  exists result. split; [exact Hres |]. unfold CommandCard.enhanceParam. rewrite Hres.
  destruct result. reflexivity.
Qed.

Lemma mapO_throws_somewhere {A B} (f : A -> Outcome B) (p : A -> bool) l :
  (forall x, p x = true -> exists e, f x = Throw e) ->
  existsb p l = true -> exists e, mapO f l = Throw e.
Proof.
  intros Hthrow. induction l as [| x l IH]; [discriminate |].
  simpl. destruct (f x) as [y | e] eqn:Hfx; [| eauto].
  destruct (p x) eqn:Hx.
  - destruct (Hthrow x Hx) as [e He]. congruence.
  - simpl. intros Hl. destruct (IH Hl) as [e ->]. eauto.
Qed.

Lemma mapO_enhanceParam chainId params :
  existsb holdsBigInt params = false ->
  exists enhanced,
    mapO (CommandCard.enhanceParam cache chainId) params = Ok enhanced
    /\ Forall2 (fun param entry =>
                  exists result,
                    Formatter.formatValueEnhanced cache (VStr (Parser.name param))
                      (Parser.value param) chainId VUndefined = Ok result
                    /\ entry = {| CommandCard.name := Parser.name param;
                                  CommandCard.value := Parser.value param;
                                  CommandCard.formatted := formatted result;
                                  CommandCard.raw := Some (raw result) |})
               params enhanced.
Proof.
  induction params as [| param params IH]; intros Hplain.
  - exists []. split; [reflexivity | constructor].
  - simpl in Hplain. apply orb_false_elim in Hplain as [Hparam Hrest].
    destruct (IH Hrest) as (enhanced & Hmap & Hall).
    destruct (enhanceParam_returns chainId param Hparam) as (result & Hres & Hentry).
    eexists. split.
    + simpl. rewrite Hentry. simpl. rewrite Hmap. reflexivity.
    + constructor; [| exact Hall]. exists result. auto.
Qed.

(** X17: when no parameter of the command holds a native bigint, enhancing
    ends not loading and with one entry per parameter, in order, each with
    the name and the value of its parameter and with the display and the
    raw text of the enhanced formatter: the fallback to the basic formatter
    is not used. *)
Theorem enhancement_uses_the_enhanced_formatter chainId command st :
  existsb holdsBigInt (Parser.params command) = false ->
  let st' := CommandCard.enhanceParams cache chainId command st in
  CommandCard.loading st' = false
  /\ Forall2 (fun param entry =>
                exists result,
                  Formatter.formatValueEnhanced cache (VStr (Parser.name param))
                    (Parser.value param) chainId VUndefined = Ok result
                  /\ entry = {| CommandCard.name := Parser.name param;
                                CommandCard.value := Parser.value param;
                                CommandCard.formatted := formatted result;
                                CommandCard.raw := Some (raw result) |})
             (Parser.params command) (CommandCard.enhancedParams st').
Proof.
  intros Hplain. destruct (mapO_enhanceParam chainId _ Hplain) as (enhanced & Hmap & Hall).
  unfold CommandCard.enhanceParams. rewrite Hmap. simpl. split; [reflexivity | exact Hall].
Qed.

(** X18: one parameter that holds a native bigint makes the whole
    enhancement come to nothing: the enhanced formatter throws on it, the
    fallback throws on it too, the entries are left as they were; and when
    there were none, the list the component renders throws as well. *)
Theorem bigint_parameter_abandons_enhancement chainId command st :
  existsb holdsBigInt (Parser.params command) = true ->
  CommandCard.enhanceParams cache chainId command st
  = {| CommandCard.enhancedParams := CommandCard.enhancedParams st;
       CommandCard.loading := false |}
  /\ (CommandCard.enhancedParams st = [] ->
      exists e,
        CommandCard.shownParams command (CommandCard.enhanceParams cache chainId command st)
        = Throw e).
Proof.
  intros Hbig.
  destruct (mapO_throws_somewhere (CommandCard.enhanceParam cache chainId) holdsBigInt _
              (enhanceParam_throws chainId) Hbig) as [e He].
  unfold CommandCard.enhanceParams. rewrite He. simpl. split; [reflexivity |].
  intros Hnone. unfold CommandCard.shownParams. simpl. rewrite Hnone.
  apply (mapO_throws_somewhere CommandCard.basicParam holdsBigInt _ basicParam_throws Hbig).
Qed.

End Card.

(** [enhancement_uses_the_enhanced_formatter] at a command without a
    bigint. *)
Lemma enhancement_uses_the_enhanced_formatter_witness :
  CommandCard.loading
    (CommandCard.enhanceParams (H := Sample.host) Sample.cache (Some "1")
       SampleCard.sweep SampleCard.idle) = false.
Proof.
  apply (enhancement_uses_the_enhanced_formatter (H := Sample.host) Sample.cache (Some "1")
           SampleCard.sweep SampleCard.idle).
  reflexivity.
Defined.

(** [bigint_parameter_abandons_enhancement] at a command with a bigint
    parameter. *)
Lemma bigint_parameter_abandons_enhancement_witness :
  CommandCard.enhanceParams (H := Sample.host) Sample.cache (Some "1")
    SampleCard.wrap SampleCard.idle
  = {| CommandCard.enhancedParams := []; CommandCard.loading := false |}.
Proof.
  apply (bigint_parameter_abandons_enhancement (H := Sample.host) Sample.cache (Some "1")
           SampleCard.wrap SampleCard.idle).
  reflexivity.
Defined.

(** ** The registry as an index *)

Section RegistryIndex.
Context `{Host}.
Import Registry.

Lemma step_indexed w e :
  Phase w -> indexed (registry w) -> indexed (registry (step w e)).
Proof.
  intros [Hreg Hwait Hans | Hreg Hans | data Hdata Hprom Hreq Hwait Hans] Hidx.
  - destruct w as [st wt an]. simpl in *. subst st.
    destruct e as [c | r]; reflexivity.
  - destruct w as [st wt an]. simpl in *. subst st.
    destruct e as [c | r]; [reflexivity |].
    destruct r; reflexivity.
  - rewrite (step_loaded w e data Hdata Hprom). exact Hidx.
Qed.

Lemma run_indexed events : forall w,
  Phase w -> indexed (registry w) -> indexed (registry (run w events)).
Proof.
  induction events as [| e events IH]; intros w Hphase Hidx; [exact Hidx |].
  rewrite run_cons. apply IH; [apply step_phase, Hphase | apply step_indexed; assumption].
Qed.

(** X19: the cache is always the index of the networks the registry hands
    out.  In every run, whatever the calls and the response, the token cache
    is what the loop builds from the networks of [getNetworksData]: empty
    before the response and after a failure, where the networks are the empty
    list, and the index of the payload after a success, where the networks
    are the payload. *)
Theorem registry_indexes_its_networks :
  (forall events, indexed (registry (run start events)))
  /\ (forall c0 calls r later,
        getNetworksData
          (registry (run start (Resolve c0 :: map Resolve calls ++ RequestEnds r :: later)))
        = match r with
          | Payload data => data
          | _ => []
          end).
Proof.
  split.
  - intros events. apply run_indexed; [apply start_phase | reflexivity].
  - intros c0 calls r later.
    destruct (run_after_response c0 calls r later) as [-> _].
    destruct r; reflexivity.
Qed.

End RegistryIndex.

(** ** The earlier revision of the formatter *)

Section Revisions.
Context `{Host}.
Variable cache : gmap string TokenInfo.
Import JsString Js.

Lemma earlier_scaleAmount amount token :
  Earlier.scaleAmount cache amount token = Formatter.scaleAmount cache amount token None.
Proof. reflexivity. Qed.

Lemma earlier_formatTokenAmount amount token :
  notSentinel amount = true ->
  Earlier.formatTokenAmount cache amount token
  = Formatter.formatTokenAmount cache amount token None.
Proof.
  unfold notSentinel, isSentinelRecord. intros Hns.
  apply andb_true_iff in Hns as [Hrec Hstr]. apply negb_true_iff in Hrec, Hstr.
  unfold Earlier.formatTokenAmount, Formatter.formatTokenAmount.
  rewrite Hrec. destruct (Formatter.isBigNumberLike amount); [reflexivity |].
  destruct amount; try reflexivity.
  simpl in Hstr. rewrite Hstr. reflexivity.
Qed.

(** X20: the earlier revision of the amount formatter is the current one
    without its guard: called without a network id, the two give the same
    result on every amount that is not the sentinel, whatever the token; the
    sentinel itself, as a string or in a record, the earlier revision scales
    as the integer [2^255]. *)
Theorem earlier_amount_formatter_lacks_the_guard amount token :
  (notSentinel amount = true ->
   Earlier.formatTokenAmount cache amount token
   = Formatter.formatTokenAmount cache amount token None)
  /\ (notSentinel amount = false ->
      Earlier.formatTokenAmount cache amount token
      = Earlier.scaleAmount cache (VBigInt (2 ^ 255)) token).
Proof.
  split; [apply earlier_formatTokenAmount |].
  unfold notSentinel, isSentinelRecord. intros Hs.
  apply andb_false_iff in Hs as [Hs | Hs]; apply negb_false_iff in Hs.
  - apply andb_true_iff in Hs as [Hbn Hhex].
    unfold Earlier.formatTokenAmount. rewrite Hbn.
    unfold Formatter.bigNumberToBigInt.
    destruct (or_else (get amount "hex") (get amount "_hex")); try discriminate Hhex.
    simpl in Hhex. apply String.eqb_eq in Hhex. subst s. reflexivity.
  - destruct amount; try discriminate Hs.
    simpl in Hs. apply String.eqb_eq in Hs. subst s. reflexivity.
Qed.

Lemma earlier_formatHops path :
  Earlier.formatHops cache path = Formatter.formatV4Hops cache path None.
Proof.
  induction path as [| hop path IH]; [reflexivity |].
  cbn [Earlier.formatHops Formatter.formatV4Hops]. rewrite IH. reflexivity.
Qed.

Lemma earlier_pathLines obj :
  Earlier.pathLines cache obj = Formatter.pathLines cache obj None.
Proof.
  unfold Earlier.pathLines, Formatter.pathLines, Earlier.formatPath, Formatter.formatV4Path.
  destruct (get obj "path"); try reflexivity. rewrite earlier_formatHops. reflexivity.
Qed.

Lemma earlier_currencyLines label currency :
  Earlier.currencyLines cache label currency
  = Formatter.currencyLines cache label currency None.
Proof.
  unfold Earlier.currencyLines, Formatter.currencyLines, Formatter.currencyLine.
  destruct (truthy currency); [| reflexivity].
  change (Formatter.orUndefined None) with (@None string).
  destruct (Registry.resolveTokenAny cache currency None); [| reflexivity].
  cbn [mbind outcome_bind bindO].
  destruct (if isStr currency Registry.nativeAddress then Ok "Native ETH"
            else Formatter.shortAddress currency); [| reflexivity].
  cbn [mbind outcome_bind bindO].
  destruct (Formatter.symbolOr _ _); reflexivity.
Qed.

Lemma earlier_amountLine label amount token :
  notSentinel amount = true ->
  Earlier.amountLine cache label amount token
  = Formatter.amountLine cache label amount token None.
Proof.
  intros Hns. unfold Earlier.amountLine, Formatter.amountLine.
  rewrite (earlier_formatTokenAmount _ _ Hns). reflexivity.
Qed.

Lemma firstHopCurrency_implied obj v :
  Formatter.firstHopCurrency obj = Ok v -> v = impliedCurrency obj.
Proof.
  unfold Formatter.firstHopCurrency, impliedCurrency.
  destruct (get obj "path") as [| | b | n | n | s | hops | fields];
    try (intros Heq; inversion Heq; reflexivity).
  destruct hops as [| hop hops]; [intros Heq; inversion Heq; reflexivity |].
  destruct hop; simpl; intros Heq; inversion Heq; reflexivity.
Qed.

Lemma firstHopCurrency_throws obj e :
  Formatter.firstHopCurrency obj = Throw e ->
  exists hops, get obj "path" = VArr hops /\ existsb isNullish hops = true.
Proof.
  unfold Formatter.firstHopCurrency.
  destruct (get obj "path") as [| | b | n | n | s | hops | fields]; try discriminate.
  destruct hops as [| hop hops]; [discriminate |].
  intros Hthrow. exists (hop :: hops). split; [reflexivity |].
  destruct hop; try discriminate Hthrow; reflexivity.
Qed.

Lemma earlier_swap_with_null_hop obj hops :
  get obj "path" = VArr hops ->
  existsb isNullish hops = true ->
  Earlier.formatSwapObject cache obj = "Error formatting swap details".
Proof.
  intros Hpath Hnn. destruct (pathLines_nullish cache _ _ None Hpath Hnn) as [e He].
  rewrite <- earlier_pathLines in He.
  unfold Earlier.formatSwapObject, Earlier.swapParts. rewrite He.
  destruct (Earlier.currencyLines cache "From: " _); [| reflexivity].
  cbn [mbind outcome_bind bindO].
  destruct (Earlier.currencyLines cache "To: " _); [| reflexivity].
  cbn [mbind outcome_bind bindO].
  destruct (Earlier.amountLine cache "Amount In: " _ _); [| reflexivity].
  cbn [mbind outcome_bind bindO].
  destruct (Earlier.amountLine cache "Amount Out: " _ _); [| reflexivity].
  cbn [mbind outcome_bind bindO].
  destruct (Earlier.amountLine cache "Min Out: " _ _); reflexivity.
Qed.

Lemma earlier_formatSwapObject obj :
  readAlike obj = true ->
  Earlier.formatSwapObject cache obj = Formatter.formatSwapObject cache obj None.
Proof.
  unfold readAlike. intros Halike.
  apply andb_true_iff in Halike as [Halike Hout].
  apply andb_true_iff in Halike as [Halike Hmin].
  apply andb_true_iff in Halike as [Hin Hamt].
  destruct (Formatter.firstHopCurrency obj) as [implied | e] eqn:Hfirst.
  - apply firstHopCurrency_implied in Hfirst as Himplied.
    unfold Earlier.formatSwapObject, Formatter.formatSwapObject,
      Earlier.swapParts, Formatter.swapParts.
    rewrite Hfirst. cbn [mbind outcome_bind bindO].
    rewrite !earlier_currencyLines, earlier_pathLines.
    rewrite (earlier_amountLine "Amount In: " _ _ Hin),
      (earlier_amountLine "Amount Out: " _ _ Hamt),
      (earlier_amountLine "Min Out: " _ _ Hmin).
    assert (Htoken :
              or_else (if truthy (get obj "currencyOut") then get obj "currencyOut"
                       else implied) (get obj "currencyOut")
              = get obj "currencyOut").
    { unfold or_else. destruct (truthy (get obj "currencyOut")) eqn:Hc.
      - rewrite Hc. reflexivity.
      - simpl in Hout. apply negb_true_iff in Hout. rewrite Himplied, Hout.
        reflexivity. }
    rewrite Htoken. reflexivity.
  - destruct (firstHopCurrency_throws _ _ Hfirst) as (hops & Hpath & Hnn).
    rewrite (earlier_swap_with_null_hop _ _ Hpath Hnn).
    rewrite (formatSwapObject_null_hop cache _ _ None Hpath Hnn).
    reflexivity.
Qed.

(** X21: on a swap descriptor, the current revision without a network id
    differs from the earlier one only through the sentinel and through the
    output currency it takes from the path: when no amount is the sentinel
    and the output currency is given, or the first hop names none, the two
    revisions give the same text, the error text included. *)
Theorem revisions_agree_on_swaps_read_alike obj :
  readAlike obj = true ->
  Earlier.formatSwapObject cache obj = Formatter.formatSwapObject cache obj None.
Proof. apply earlier_formatSwapObject. Qed.

Lemma forallb_isNamedField_strings a addrs :
  forallb Formatter.isNamedField (map VStr (a :: addrs)) = false.
Proof. reflexivity. Qed.

Lemma forallb_isV4Hop_strings a addrs :
  forallb Formatter.isV4Hop (map VStr (a :: addrs)) = false.
Proof. reflexivity. Qed.

(** X22: the earlier revision knows no list of addresses: a list of strings
    that is not empty is shown by its length, addresses or not, where the
    current revision renders a list of address-like texts as a path. *)
Theorem earlier_revision_counts_lists_of_strings name texts ctx :
  texts <> [] ->
  exists json,
    JSON_stringify (VArr (map VStr texts)) = Ok (Some json)
    /\ Earlier.formatValueEnhanced cache name (VArr (map VStr texts)) ctx
       = Ok {| formatted := "Array with " +:+ decimal (Z.of_nat (length texts)) +:+ " items";
               raw := json |}.
Proof.
  intros Hne. destruct (JSON_stringify_strings texts) as [json Hjson].
  exists json. split; [exact Hjson |].
  destruct texts as [| a texts]; [contradiction |].
  cbn [Earlier.formatValueEnhanced]. rewrite Hjson. cbn [mbind outcome_bind bindO].
  change (Formatter.isBigNumberLike (VArr (map VStr (a :: texts)))) with false.
  cbv iota. cbn [map].
  change (VStr a :: map VStr texts) with (map VStr (a :: texts)).
  rewrite forallb_isNamedField_strings. unfold Earlier.formatPathArray.
  rewrite forallb_isV4Hop_strings, length_map. reflexivity.
Qed.

End Revisions.

(** [earlier_amount_formatter_lacks_the_guard] at one million, which is not
    the sentinel, and at the sentinel string, which the earlier revision
    scales. *)
Lemma earlier_amount_formatter_lacks_the_guard_witness :
  Earlier.formatTokenAmount (H := Sample.host) Sample.cache SampleSwap.million
    (VStr Sample.tokenB)
  = Formatter.formatTokenAmount (H := Sample.host) Sample.cache SampleSwap.million
      (VStr Sample.tokenB) None
  /\ Earlier.formatTokenAmount (H := Sample.host) Sample.cache
       (VStr Formatter.CONTRACT_BALANCE) VUndefined
     = Earlier.scaleAmount (H := Sample.host) Sample.cache (VBigInt (2 ^ 255)) VUndefined.
Proof.
  split.
  - apply (earlier_amount_formatter_lacks_the_guard (H := Sample.host) Sample.cache
             SampleSwap.million (VStr Sample.tokenB)).
    reflexivity.
  - apply (earlier_amount_formatter_lacks_the_guard (H := Sample.host) Sample.cache
             (VStr Formatter.CONTRACT_BALANCE) VUndefined).
    reflexivity.
Defined.

(** [revisions_agree_on_swaps_read_alike] at a descriptor that gives its
    output currency. *)
Lemma revisions_agree_on_swaps_read_alike_witness :
  Earlier.formatSwapObject (H := Sample.host) Sample.cache SampleSwap.explicitOut
  = Formatter.formatSwapObject (H := Sample.host) Sample.cache SampleSwap.explicitOut None.
Proof.
  apply (revisions_agree_on_swaps_read_alike (H := Sample.host) Sample.cache
           SampleSwap.explicitOut).
  reflexivity.
Defined.

(** [earlier_revision_counts_lists_of_strings] at the list of tokens A and
    B. *)
Lemma earlier_revision_counts_lists_of_strings_witness :
  exists json,
    Js.JSON_stringify (VArr (map VStr [Sample.tokenA; Sample.tokenB])) = Ok (Some json)
    /\ Earlier.formatValueEnhanced (H := Sample.host) Sample.cache (VStr "path")
         (VArr (map VStr [Sample.tokenA; Sample.tokenB])) VUndefined
       = Ok {| formatted := "Array with 2 items"; raw := json |}.
Proof.
  apply (earlier_revision_counts_lists_of_strings (H := Sample.host) Sample.cache
           (VStr "path") [Sample.tokenA; Sample.tokenB] VUndefined).
  discriminate.
Defined.

(** ** The placeholder of a swap descriptor, and addresses end to end *)

Section Placeholder.
Context `{Host}.
Variable cache : gmap string TokenInfo.
Import JsString Js Formatter.

Lemma labelled_append label rest c :
  firstChar label = Some c -> isLabelChar c = true -> labelled (label +:+ rest).
Proof.
  intros Hc Hl. exists c. split; [| exact Hl].
  destruct label; [discriminate | exact Hc].
Qed.

Lemma currencyLines_labelled label c currency chain lines :
  firstChar label = Some c -> isLabelChar c = true ->
  currencyLines cache label currency chain = Ok lines ->
  Forall labelled lines /\ (truthy currency = true -> lines <> []).
Proof.
  intros Hc Hl. unfold currencyLines, currencyLine.
  destruct (truthy currency).
  - destruct (Registry.resolveTokenAny cache currency _); [| discriminate].
    cbn [mbind outcome_bind bindO].
    destruct (if isStr currency Registry.nativeAddress then _ else _); [| discriminate].
    cbn [mbind outcome_bind bindO].
    destruct (symbolOr _ _); [| discriminate].
    cbn [mbind outcome_bind bindO]. intros Heq. inversion Heq. split.
    + constructor; [| constructor]. eapply labelled_append; eauto.
    + discriminate.
  - intros Heq. inversion Heq. split; [constructor | discriminate].
Qed.

Lemma amountLine_labelled label c amount token chain lines :
  firstChar label = Some c -> isLabelChar c = true ->
  amountLine cache label amount token chain = Ok lines ->
  Forall labelled lines /\ (truthy amount = true -> lines <> []).
Proof.
  intros Hc Hl. unfold amountLine. destruct (truthy amount).
  - destruct (formatTokenAmount cache amount token chain); [| discriminate].
    cbn [mbind outcome_bind bindO]. intros Heq. inversion Heq. split.
    + constructor; [| constructor]. eapply labelled_append; eauto.
    + discriminate.
  - intros Heq. inversion Heq. split; [constructor | discriminate].
Qed.

Lemma formatV4Hops_named path chain steps :
  formatV4Hops cache path chain = Ok steps ->
  existsb isNullish path = false
  /\ (existsb namesCurrency path = true -> exists step rest, steps = (arrow +:+ step) :: rest).
Proof.
  revert steps. induction path as [| hop path IH]; intros steps Hsteps.
  - split; [reflexivity | discriminate].
  - cbn [formatV4Hops] in Hsteps.
    destruct (isNullish hop) eqn:Hnull.
    { rewrite (prop_nullish hop "intermediateCurrency" Hnull) in Hsteps. discriminate. }
    rewrite (prop_defined hop "intermediateCurrency" Hnull) in Hsteps.
    cbn [mbind outcome_bind bindO] in Hsteps. simpl existsb. rewrite Hnull.
    unfold namesCurrency at 1.
    destruct (truthy (get hop "intermediateCurrency")).
    + destruct (Registry.resolveTokenAny cache _ _); [| discriminate].
      cbn [mbind outcome_bind bindO] in Hsteps.
      destruct (symbolOr _ _); [| discriminate].
      cbn [mbind outcome_bind bindO] in Hsteps.
      destruct (feeNote hop); [| discriminate].
      cbn [mbind outcome_bind bindO] in Hsteps.
      destruct (formatV4Hops cache path chain) as [rest |]; [| discriminate].
      cbn [mbind outcome_bind bindO] in Hsteps. inversion Hsteps.
      destruct (IH rest eq_refl) as [Hnn _]. split; [exact Hnn |].
      intros _. eauto.
    + destruct (IH steps Hsteps) as [Hnn Hnamed]. split; [exact Hnn | exact Hnamed].
Qed.

Lemma join_nonempty sep step rest :
  join sep ((arrow +:+ step) :: rest) <> "".
Proof. destruct rest; discriminate. Qed.

Lemma pathLines_labelled obj chain lines :
  pathLines cache obj chain = Ok lines ->
  Forall labelled lines /\ (silentPath (get obj "path") = false -> lines <> []).
Proof.
  unfold pathLines, silentPath, formatV4Path.
  destruct (get obj "path") as [| | b | n | n | s | hops | fields];
    try (intros Heq; inversion Heq; split; [constructor | discriminate]).
  destruct (formatV4Hops cache hops chain) as [steps |] eqn:Hsteps; [| discriminate].
  cbn [mbind outcome_bind bindO].
  destruct (formatV4Hops_named _ _ _ Hsteps) as [Hnn Hnamed].
  intros Heq. inversion Heq as [Hlines]. clear Heq. split.
  - destruct (String.eqb (join " " steps) ""); constructor; [| constructor].
    eapply labelled_append; [reflexivity | reflexivity].
  - rewrite Hnn. simpl negb. cbv iota. cbn [andb]. intros Hsome.
    assert (Hex : existsb namesCurrency hops = true).
    { clear -Hsome. induction hops as [| hop hops IH]; [discriminate |].
      simpl in *. destruct (namesCurrency hop); [reflexivity |]. apply IH, Hsome. }
    destruct (Hnamed Hex) as (step & rest & ->).
    destruct (String.eqb_spec (join " " ((arrow +:+ step) :: rest)) "") as [Hempty |];
      [| discriminate].
    exfalso. revert Hempty. apply join_nonempty.
Qed.

Lemma join_labelled line lines :
  labelled line -> join nl (line :: lines) <> "Swap Details".
Proof.
  intros (c & Hc & Hl) Heq.
  assert (Hfirst : firstChar (join nl (line :: lines)) = Some c).
  { destruct line as [| c' line]; [discriminate |].
    destruct lines; exact Hc. }
  rewrite Heq in Hfirst. inversion Hfirst; subst c. discriminate Hl.
Qed.

Lemma swapParts_lines obj chain parts :
  swapParts cache obj chain = Ok parts ->
  Forall labelled parts /\ (hasNoContent obj = false -> parts <> []).
Proof.
  unfold swapParts, hasNoContent.
  destruct (firstHopCurrency obj) as [implied |]; [| discriminate].
  cbn [mbind outcome_bind bindO].
  destruct (currencyLines cache "From: " _ chain) as [l1 |] eqn:H1; [| discriminate].
  cbn [mbind outcome_bind bindO].
  destruct (currencyLines cache "To: " _ chain) as [l2 |] eqn:H2; [| discriminate].
  cbn [mbind outcome_bind bindO].
  destruct (amountLine cache "Amount In: " _ _ chain) as [l3 |] eqn:H3; [| discriminate].
  cbn [mbind outcome_bind bindO].
  destruct (amountLine cache "Amount Out: " _ _ chain) as [l4 |] eqn:H4; [| discriminate].
  cbn [mbind outcome_bind bindO].
  destruct (amountLine cache "Min Out: " _ _ chain) as [l5 |] eqn:H5; [| discriminate].
  cbn [mbind outcome_bind bindO].
  destruct (pathLines cache obj chain) as [l6 |] eqn:H6; [| discriminate].
  cbn [mbind outcome_bind bindO]. intros Heq. inversion Heq. clear Heq.
  apply (currencyLines_labelled _ "F"%char) in H1 as [F1 N1]; try reflexivity.
  apply (currencyLines_labelled _ "T"%char) in H2 as [F2 N2]; try reflexivity.
  apply (amountLine_labelled _ "A"%char) in H3 as [F3 N3]; try reflexivity.
  apply (amountLine_labelled _ "A"%char) in H4 as [F4 N4]; try reflexivity.
  apply (amountLine_labelled _ "M"%char) in H5 as [F5 N5]; try reflexivity.
  apply pathLines_labelled in H6 as [F6 N6].
  split; [repeat (apply Forall_app; split); assumption |].
  intros Hcontent Hnil.
  repeat (apply app_eq_nil in Hnil as [? Hnil]). subst.
  destruct (truthy (get obj "currencyIn")); [apply N1; reflexivity |].
  destruct (truthy (get obj "currencyOut")); [apply N2; reflexivity |].
  destruct (truthy (get obj "amountIn")); [apply N3; reflexivity |].
  destruct (truthy (get obj "amountOut")); [apply N4; reflexivity |].
  destruct (truthy (get obj "amountOutMinimum")); [apply N5; reflexivity |].
  simpl in Hcontent. apply N6; [exact Hcontent | reflexivity].
Qed.

Lemma formatSwapObject_content obj chain :
  hasNoContent obj = false -> formatSwapObject cache obj chain <> "Swap Details".
Proof.
  intros Hcontent. unfold formatSwapObject.
  destruct (swapParts cache obj chain) as [parts |] eqn:Hparts; [| discriminate].
  destruct (swapParts_lines _ _ _ Hparts) as [Hall Hne].
  cbn [mbind outcome_bind bindO tryCatch].
  destruct parts as [| line lines]; [exfalso; apply (Hne Hcontent); reflexivity |].
  apply Forall_cons_1 in Hall as [Hline _]. apply join_labelled, Hline.
Qed.

(** X23: a swap descriptor shows the placeholder exactly when it has nothing
    to show: the text is [Swap Details] if and only if none of the two
    currencies and the three amounts is truthy and the path adds no line. *)
Theorem swap_placeholder_iff_nothing_to_show obj chain :
  formatSwapObject cache obj chain = "Swap Details" <-> hasNoContent obj = true.
Proof.
  split.
  - intros Htext. destruct (hasNoContent obj) eqn:Hcontent; [reflexivity |].
    exfalso. exact (formatSwapObject_content obj chain Hcontent Htext).
  - apply formatSwapObject_placeholder.
Qed.

Lemma addressRegex_looks a : Viem.addressRegex a = true -> looksLikeAddress a = true.
Proof.
  intros Hrx. pose proof (addressRegex_length a Hrx) as Hlen.
  unfold looksLikeAddress, len. rewrite Hlen. rewrite andb_true_r.
  unfold Viem.addressRegex in Hrx.
  destruct a as [| c0 a]; [discriminate |].
  destruct c0 as [[] [] [] [] [] [] [] []]; try discriminate.
  destruct a as [| c1 a]; [discriminate |].
  destruct c1 as [[] [] [] [] [] [] [] []]; try discriminate.
  reflexivity.
Qed.

End Placeholder.

Section EndToEnd.
Context `{Host}.
Import JsString Js Formatter Registry.

(** X24: an address the payload lists on the selected network is shown with
    a symbol the payload lists for it there.  After a fetch of a well-formed
    payload, for a token listed with a contract on a network whose id is not
    empty, an address equal to that contract up to the case of its letters is
    displayed as the symbol of a token the payload lists on that network at
    that contract, followed by the first six and last four characters of the
    address in parentheses; [raw] is the address. *)
Theorem listed_address_is_shown_with_its_symbol
    data network token c name address ctx :
  colonFreePayload data = true ->
  In network data -> In token (LayerSwap.tokens network) ->
  contractAddress token = Some c ->
  LayerSwap.chain_id network <> "" ->
  Viem.isAddress address = true -> isNative address = false ->
  toLowerCase address = toLowerCase c ->
  exists network' token' c',
    In network' data /\ In token' (LayerSwap.tokens network')
    /\ LayerSwap.chain_id network' = LayerSwap.chain_id network
    /\ contractAddress token' = Some c'
    /\ toLowerCase c' = toLowerCase c
    /\ formatValueEnhanced (buildCache data ∅) name (VStr address)
         (Some (LayerSwap.chain_id network)) ctx
       = Ok {| formatted := LayerSwap.symbol token' +:+ " (" +:+ shortText address +:+ ")";
               raw := address |}.
Proof.
  intros Hwf Hn Ht Hc Hchain Haddr Hnative Hlow.
  destruct (listed_token_resolves data network token c address
              Hwf Hn Ht Hc Hchain Haddr Hnative Hlow)
    as (n' & t' & c' & Hn' & Ht' & Hchain' & Hc' & Hlow' & Hres).
  exists n', t', c'. repeat (split; [assumption |]).
  rewrite formatValueEnhanced_eq. simpl JSON_stringify.
  cbn [mbind outcome_bind bindO]. unfold formatBody.
  change (isBigNumberLike (VStr address)) with false. cbv beta iota.
  unfold formatLeaf.
  pose proof (addressRegex_looks _ (isAddress_regex _ Haddr)) as Hlooks.
  unfold looksLikeAddress in Hlooks. rewrite Hlooks.
  unfold resolveTokenAny. cbn [mbind outcome_bind bindO].
  assert (Hscope : orUndefined (Some (LayerSwap.chain_id network))
                   = Some (LayerSwap.chain_id network)).
  { unfold orUndefined. apply String.eqb_neq in Hchain. rewrite Hchain. reflexivity. }
  rewrite Hscope, Hres. reflexivity.
Qed.

End EndToEnd.

(** [listed_address_is_shown_with_its_symbol] at the FOO of network 1. *)
Lemma listed_address_is_shown_with_its_symbol_witness :
  exists network' token' c',
    In network' Sample.payload /\ In token' (LayerSwap.tokens network')
    /\ LayerSwap.chain_id network' = "1"
    /\ Registry.contractAddress token' = Some c'
    /\ JsString.toLowerCase c' = JsString.toLowerCase Sample.tokenA
    /\ Formatter.formatValueEnhanced (H := Sample.host) Sample.cache (VStr "token")
         (VStr Sample.tokenA) (Some "1") VUndefined
       = Ok {| formatted := LayerSwap.symbol token' +:+ " (" +:+ shortText Sample.tokenA +:+ ")";
               raw := Sample.tokenA |}.
Proof.
  apply (listed_address_is_shown_with_its_symbol (H := Sample.host) Sample.payload
           SampleCard.network1 (Sample.lsToken "FOO" (Some Sample.tokenA) 18)
           Sample.tokenA (VStr "token") Sample.tokenA VUndefined).
  - reflexivity.
  - left. reflexivity.
  - right. left. reflexivity.
  - reflexivity.
  - discriminate.
  - vm_compute. reflexivity.
  - reflexivity.
  - reflexivity.
Defined.

(** ** The two revisions at large *)

Lemma mapO_Forall_ext {A B} (f g : A -> Outcome B) l :
  Forall (fun x => f x = g x) l -> mapO f l = mapO g l.
Proof.
  induction 1 as [| x l Hx _ IH]; [reflexivity |].
  simpl. rewrite Hx, IH. reflexivity.
Qed.

Section RevisionsAtLarge.
Context `{Host}.
Variable cache : gmap string TokenInfo.
Import JsString Js.

Lemma earlier_formatPath path :
  Earlier.formatPath cache path = Formatter.formatV4Path cache path None.
Proof.
  unfold Earlier.formatPath, Formatter.formatV4Path. rewrite earlier_formatHops.
  reflexivity.
Qed.

Lemma agree_value_field name fields :
  Forall (fun kv => agreeOn cache (snd kv)) fields ->
  withField "value" readAlikeValue true fields = true ->
  withField "value" (fun v => Earlier.formatValueEnhanced cache name v VUndefined)
    (Ok Formatter.nullResult) fields
  = withField "value" (fun v => Formatter.formatValueEnhanced cache name v None VUndefined)
      (Ok Formatter.nullResult) fields.
Proof.
  induction 1 as [| [k v] fields Hv _ IH]; [reflexivity |].
  cbn [withField]. destruct (String.eqb "value" k).
  - intros Hread. apply Hv, Hread.
  - exact IH.
Qed.

Lemma agree_named_fields items :
  Forall (fun item => agreeOn cache item /\ agreeInside cache item) items ->
  forallb (fun item =>
             match item with
             | VObj fields => withField "value" readAlikeValue true fields
             | _ => true
             end) items = true ->
  mapO (fun item =>
          name ← prop item "name";
          itemResult ←
            match item with
            | VObj fields =>
                withField "value"
                  (fun v => Earlier.formatValueEnhanced cache name v VUndefined)
                  (Ok Formatter.nullResult) fields
            | _ => Ok Formatter.nullResult
            end;
          Ok (toStringJS name +:+ ": " +:+ formatted itemResult)) items
  = mapO (fun item =>
            name ← prop item "name";
            itemResult ←
              match item with
              | VObj fields =>
                  withField "value"
                    (fun v => Formatter.formatValueEnhanced cache name v None VUndefined)
                    (Ok Formatter.nullResult) fields
              | _ => Ok Formatter.nullResult
              end;
            Ok (toStringJS name +:+ ": " +:+ formatted itemResult)) items.
Proof.
  intros Hall Hread. apply mapO_Forall_ext.
  induction Hall as [| item items [_ Hinside] _ IH]; [constructor |].
  cbn [forallb] in Hread. apply andb_true_iff in Hread as [Hitem Hrest].
  constructor; [| apply IH, Hrest].
  destruct item; try reflexivity.
  cbn [prop mbind outcome_bind bindO].
  rewrite (agree_value_field _ _ Hinside Hitem). reflexivity.
Qed.

Lemma revisions_agree v : agreeOn cache v /\ agreeInside cache v.
Proof.
  induction v as [| | b | n | n | s | items IH | fields IH] using Value_induction;
    (split; [| try exact I]); try (intros name ctx _; reflexivity).
  - intros name ctx Hread. cbn [readAlikeValue] in Hread.
    cbn [Earlier.formatValueEnhanced Formatter.formatValueEnhanced].
    destruct (JSON_stringify (VArr items)) as [json |]; [| reflexivity].
    cbn [mbind outcome_bind bindO].
    change (Formatter.isBigNumberLike (VArr items)) with false. cbv iota.
    destruct items as [| item items]; [reflexivity |].
    destruct (forallb Formatter.isNamedField (item :: items)).
    + rewrite (agree_named_fields _ IH Hread). reflexivity.
    + apply andb_true_iff in Hread as [Hv2 Hv3]. apply negb_true_iff in Hv2, Hv3.
      unfold Earlier.formatPathArray, Formatter.formatPathArray.
      rewrite Hv2, Hv3, earlier_formatPath. reflexivity.
  - eapply Forall_impl; [exact IH |]. intros item [Hitem _]. exact Hitem.
  - intros name ctx Hread. cbn [readAlikeValue] in Hread.
    cbn [Earlier.formatValueEnhanced Formatter.formatValueEnhanced].
    destruct (JSON_stringify (VObj fields)) as [json |]; [| reflexivity].
    cbn [mbind outcome_bind bindO].
    destruct (Formatter.isBigNumberLike (VObj fields)).
    + rewrite (earlier_formatTokenAmount cache _ _ Hread). reflexivity.
    + unfold Earlier.formatObject, Formatter.formatObject.
      destruct (has "currencyIn" (VObj fields) || has "currencyOut" (VObj fields)
                || has "path" (VObj fields)); [| reflexivity].
      rewrite (earlier_formatSwapObject cache _ Hread). reflexivity.
  - eapply Forall_impl; [exact IH |]. intros kv [Hkv _]. exact Hkv.
Qed.

(** X25: where the two revisions of the formatter differ.  Called without a
    network id, the current revision gives the result of the earlier one,
    display and raw text, on every value in which no record that is reached
    is the sentinel, no list is a list of address-like texts or a fee-tier
    path, and every swap descriptor gives its output currency or has a path
    that implies none. *)
Theorem revisions_agree_on_values_read_alike name v ctx :
  readAlikeValue v = true ->
  Earlier.formatValueEnhanced cache name v ctx
  = Formatter.formatValueEnhanced cache name v None ctx.
Proof. intros Hread. apply revisions_agree, Hread. Qed.

End RevisionsAtLarge.

(** [revisions_agree_on_values_read_alike] at a list of named fields that
    holds a swap descriptor. *)
Lemma revisions_agree_on_values_read_alike_witness :
  Earlier.formatValueEnhanced (H := Sample.host) Sample.cache (VStr "params")
    (VArr [VObj [("name", VStr "swap"); ("value", SampleSwap.explicitOut)]]) VUndefined
  = Formatter.formatValueEnhanced (H := Sample.host) Sample.cache (VStr "params")
      (VArr [VObj [("name", VStr "swap"); ("value", SampleSwap.explicitOut)]]) None VUndefined.
Proof.
  apply (revisions_agree_on_values_read_alike (H := Sample.host) Sample.cache (VStr "params")
           (VArr [VObj [("name", VStr "swap"); ("value", SampleSwap.explicitOut)]]) VUndefined).
  reflexivity.
Defined.

(** ** Negative amounts *)

Section Negative.
Context `{Host}.
Variable cache : gmap string TokenInfo.
Import JsString Js Formatter.

Lemma slice_tail c s : slice (String c s) 1 None = s.
Proof.
  unfold slice, sliceList, clampIndex. change (1 <? 0) with false. cbv iota.
  change (chars (String c s)) with (c :: chars s). cbn [length].
  change (Z.to_nat 1) with 1%nat.
  replace (Nat.min (S (length (chars s))) 1) with 1%nat by lia.
  cbn [skipn]. replace (S (length (chars s)) - 1)%nat with (length (chars s)) by lia.
  rewrite firstn_all. apply text_chars.
Qed.

Lemma formatUnits_minus t d :
  startsWith "-" t = false ->
  Viem.formatUnits (String "-" t) d = "-" +:+ Viem.formatUnits t d.
Proof.
  intros Hplain. unfold Viem.formatUnits. rewrite Hplain.
  change (startsWith "-" (String "-" t)) with true. cbv iota.
  rewrite slice_tail. reflexivity.
Qed.

Lemma splitDot_snoc x l : forall cur,
  splitDot (cur ++ [x]) l
  = match splitDot cur l with
    | piece :: rest => (x :: piece) :: rest
    | [] => []
    end.
Proof.
  induction l as [| c l IH]; intros cur.
  - simpl. rewrite rev_app_distr. reflexivity.
  - simpl. destruct (Ascii.eqb c "."%char).
    + rewrite rev_app_distr. reflexivity.
    + apply (IH (c :: cur)).
Qed.

Lemma splitDot_nonempty l : forall cur, splitDot cur l <> [].
Proof.
  induction l as [| c l IH]; intros cur; simpl; [discriminate |].
  destruct (Ascii.eqb c "."%char); [discriminate | apply IH].
Qed.

Lemma split_dot_minus s :
  nth 0 (split_dot (String "-" s)) "" = String "-" (nth 0 (split_dot s) "")
  /\ nth 1 (split_dot (String "-" s)) "" = nth 1 (split_dot s) "".
Proof.
  unfold split_dot. change (chars (String "-" s)) with ("-"%char :: chars s).
  change (splitDot [] ("-"%char :: chars s)) with (splitDot ([] ++ ["-"%char]) (chars s)).
  rewrite splitDot_snoc. pose proof (splitDot_nonempty (chars s) []) as Hne.
  destruct (splitDot [] (chars s)) as [| piece rest]; [contradiction |].
  split; reflexivity.
Qed.

Lemma scaleAmount_minus n token chain :
  0 < n ->
  scaleAmount cache (VBigInt (- n)) token chain
  = text ← scaleAmount cache (VBigInt n) token chain; Ok ("-" +:+ text).
Proof.
  intros Hn. unfold scaleAmount.
  destruct (if truthy token then _ else _) as [[info |] | e]; [| | reflexivity];
    cbn [mbind outcome_bind bindO formatUnitsOf toStringJS].
  - assert (Hneg : decimal (- n) = String "-" (decimal n)).
    { unfold decimal. destruct (Z.ltb_spec (- n) 0); [| lia].
      destruct (Z.ltb_spec n 0); [lia |]. rewrite Z.opp_involutive. reflexivity. }
    assert (Hplain : startsWith "-" (decimal n) = false).
    { rewrite <- (Z2N.id n) by lia. rewrite decimal_of_N. apply startsWith_minus_digits. }
    rewrite Hneg, (formatUnits_minus _ _ Hplain).
    change ("-" +:+ Viem.formatUnits (decimal n) (decimals info))
      with (String "-" (Viem.formatUnits (decimal n) (decimals info))).
    destruct (split_dot_minus (Viem.formatUnits (decimal n) (decimals info))) as [-> ->].
    destruct (String.eqb (slice (nth 1 (split_dot _) "") 0 (Some 6)) ""); reflexivity.
  - assert (Hneg : decimal (- n) = String "-" (decimal n)).
    { unfold decimal. destruct (Z.ltb_spec (- n) 0); [| lia].
      destruct (Z.ltb_spec n 0); [lia |]. rewrite Z.opp_involutive. reflexivity. }
    assert (Hplain : startsWith "-" (decimal n) = false).
    { rewrite <- (Z2N.id n) by lia. rewrite decimal_of_N. apply startsWith_minus_digits. }
    rewrite Hneg, (formatUnits_minus _ _ Hplain). reflexivity.
Qed.

(** X26: a negative amount is shown as the positive one with a minus sign
    in front.  For a positive integer [n], the amount formatter gives for the
    bigint [-n], and for its decimal text, the text it gives for [n]
    preceded by [-], with the same six digits of the fraction and the same
    symbol; it fails when, and as, it does for [n]. *)
Theorem negative_amount_is_minus_the_positive n token chain :
  0 < n ->
  formatTokenAmount cache (VBigInt (- n)) token chain
  = (text ← formatTokenAmount cache (VBigInt n) token chain; Ok ("-" +:+ text))
  /\ formatTokenAmount cache (VStr (decimal (- n))) token chain
     = formatTokenAmount cache (VBigInt (- n)) token chain.
Proof.
  intros Hn. split.
  - apply (scaleAmount_minus n token chain Hn).
  - unfold formatTokenAmount. change (isBigNumberLike (VStr _)) with false.
    change (isBigNumberLike (VBigInt _)) with false. cbv beta iota. simpl andb. cbv iota.
    rewrite decimal_not_sentinel, stringToBigInt_decimal. reflexivity.
Qed.

End Negative.

(** [negative_amount_is_minus_the_positive] at 1234567 of token B, which is
    BAR with 6 decimals on network 1. *)
Lemma negative_amount_is_minus_the_positive_witness :
  Formatter.formatTokenAmount (H := Sample.host) Sample.cache (VBigInt (- 1234567))
    (VStr Sample.tokenB) (Some "1")
  = Ok "-1.234567 BAR".
Proof.
  destruct (negative_amount_is_minus_the_positive (H := Sample.host) Sample.cache
              1234567 (VStr Sample.tokenB) (Some "1")) as [Hminus _]; [lia |].
  etransitivity; [exact Hminus | reflexivity].
Defined.

(** ** Amounts after a failed fetch *)

Section Degraded.
Context `{Host}.
Import JsString Js Formatter Registry.

Lemma failed_cache c0 calls r later :
  failed r = true ->
  tokenCache (registry (run start (Resolve c0 :: map Resolve calls ++ RequestEnds r :: later)))
  = ∅.
Proof.
  intros Hfailed. destruct (run_after_response c0 calls r later) as [-> _].
  destruct r; try reflexivity. discriminate Hfailed.
Qed.

(** X27: amounts are still shown after a failed fetch.  When the request
    has failed, in any run, the amount formatter shows an amount of a token
    other than the native one in full, at 18 decimals, followed by [tokens],
    whatever the address and the network id; and an amount at the native
    zero address in ETH. *)
Theorem amounts_after_a_failed_fetch c0 calls r later n address chain :
  failed r = true ->
  let cache :=
    tokenCache
      (registry (run start (Resolve c0 :: map Resolve calls ++ RequestEnds r :: later))) in
  (address <> nativeAddress ->
   formatTokenAmount cache (VBigInt n) (VStr address) chain
   = Ok (Viem.formatUnits (decimal n) 18 +:+ " tokens"))
  /\ (address = nativeAddress ->
      exists shown,
        formatTokenAmount cache (VBigInt n) (VStr address) chain = Ok (shown +:+ " ETH")).
Proof.
  intros Hfailed cache. subst cache. rewrite (failed_cache _ _ _ _ Hfailed).
  unfold formatTokenAmount. change (isBigNumberLike (VBigInt n)) with false.
  cbv beta iota. simpl andb. cbv iota. unfold scaleAmount. split.
  - intros Hother. destruct (truthy (VStr address)) eqn:Htruthy; [| reflexivity].
    unfold resolveTokenAny. rewrite resolveToken_empty.
    assert (Hnative : isNative address = false).
    { unfold isNative. simpl in Htruthy. apply negb_true_iff in Htruthy.
      rewrite Htruthy. apply String.eqb_neq, Hother. }
    rewrite Hnative. reflexivity.
  - intros ->. eexists. reflexivity.
Qed.

End Degraded.

(** [amounts_after_a_failed_fetch] at a rejected request and one unit of
    token A. *)
Lemma amounts_after_a_failed_fetch_witness :
  Formatter.formatTokenAmount (H := Sample.host)
    (Registry.tokenCache
       (Registry.registry
          (Registry.run (H := Sample.host) Registry.start
             [Registry.Resolve {| Registry.callAddress := Sample.tokenA;
                                  Registry.callChain := Some "1" |};
              Registry.RequestEnds Registry.FetchRejected])))
    (VBigInt (10 ^ 18)) (VStr Sample.tokenA) (Some "1")
  = Ok "1 tokens".
Proof.
  destruct (amounts_after_a_failed_fetch (H := Sample.host)
              {| Registry.callAddress := Sample.tokenA; Registry.callChain := Some "1" |}
              [] Registry.FetchRejected [] (10 ^ 18) Sample.tokenA (Some "1") eq_refl)
    as [Hother _].
  etransitivity; [apply Hother; discriminate | reflexivity].
Defined.
